(** * LumenClay banking service ([src/economy.c]): a shallow embedding

    The C translation unit is embedded function by function.

    - A C [double] is an IEEE 754 binary64 number: Rocq's primitive [float],
      with [+], [-], [*] rounding to nearest, ties to even (C's default
      rounding mode), and the comparisons [<], [<=] false on NaN, exactly as
      the machine operations are.
    - A [size_t] is an [N] with the 64-bit wrap-around written out.
    - [Account *] arguments are never NULL here (the NULL branches return 0
      before reading anything); a [const char *] that the code tests against
      NULL is an [option string].
    - The arrays [items] and [history] are kept as the lists of their live
      prefixes ([items[0 .. item_count)] and [history[0 .. history_count)]):
      no function of the file reads a slot at or past the count.
    - The [error] buffer is returned as a value: a call yields [OK] (the C
      function returns 1) or [Err e] (it returns 0 after writing message [e]),
      together with the account as the call leaves it.  A failing call
      therefore returns whatever it had written to the account so far.
    - [time(NULL)] is an argument [now] of every function that stamps a
      history entry.
    - What [service_report] prints is returned as the list of its lines, one
      constructor per [printf] call with the values the format is given. *)

From Stdlib Require Import ZArith NArith List String Bool Lia Floats QArith.
Import ListNotations.

Set Warnings "-inexact-float".

Local Open Scope string_scope.
Local Open Scope list_scope.
Local Open Scope float_scope.

(** ** C types *)

Definition double := float.
Definition time_t := Z.
Definition size_t := N.

Definition SIZE_MODULUS : N := 2 ^ 64.

(** [a + b] on [size_t]. *)
Definition size_add (a b : size_t) : size_t := ((a + b) mod SIZE_MODULUS)%N.

(** [a - b] on [size_t]. *)
Definition size_sub (a b : size_t) : size_t :=
  ((a + SIZE_MODULUS - b mod SIZE_MODULUS) mod SIZE_MODULUS)%N.

(** [(double)q] for a [size_t] [q]: the nearest binary64 number. *)
Definition double_of_size_t (q : size_t) : double :=
  SF2Prim (binary_normalize prec emax (Z.of_N q) 0 false).

(** [snprintf(buf, size, "%s", s)]: at most [size - 1] characters are kept. *)
Definition snprintf_s (size : nat) (s : string) : string :=
  substring 0 (size - 1) s.

(** ** Constants *)

Definition MAX_ITEMS : nat := 32.
Definition MAX_ITEM_NAME : nat := 48.
Definition MAX_SERVICE_NAME : nat := 48.
Definition MAX_TRANSACTION_HISTORY : nat := 64.

Definition BANK_MIN_TRANSACTION : double := 1.0.
Definition BANK_MAX_TRANSACTION : double := 10000.0.
Definition BANK_MAX_DAILY_TOTAL : double := 25000.0.
Definition BANK_MAX_ITEM_QUANTITY : size_t := 999%N.

(** ** Data model *)

Record TransactionEntry := mkEntry {
  entry_timestamp : time_t;
  entry_description : string;
  entry_amount : double;
  entry_resulting_balance : double
}.

Record Item := mkItem {
  item_name : string;
  item_quantity : size_t
}.

Record Account := mkAccount {
  owner : string;
  balance : double;
  investment_balance : double;
  daily_total : double;
  items : list Item;
  history : list TransactionEntry
}.

Definition item_count (a : Account) : nat := List.length (items a).
Definition history_count (a : Account) : nat := List.length (history a).

Record BankingService := mkService {
  service_name : string;
  deposit_fee : double;
  withdrawal_fee : double;
  transfer_fee : double;
  investment_rate : double;
  daily_limit : double
}.

(** Field assignments. *)
Definition set_balance (a : Account) (v : double) : Account :=
  mkAccount (owner a) v (investment_balance a) (daily_total a) (items a) (history a).
Definition set_investment_balance (a : Account) (v : double) : Account :=
  mkAccount (owner a) (balance a) v (daily_total a) (items a) (history a).
Definition set_daily_total (a : Account) (v : double) : Account :=
  mkAccount (owner a) (balance a) (investment_balance a) v (items a) (history a).
Definition set_items (a : Account) (v : list Item) : Account :=
  mkAccount (owner a) (balance a) (investment_balance a) (daily_total a) v (history a).
Definition set_history (a : Account) (v : list TransactionEntry) : Account :=
  mkAccount (owner a) (balance a) (investment_balance a) (daily_total a) (items a) v.

(** ** Error messages: one constructor per [snprintf(error, ...)] site,
    carrying the values the format string prints. *)

Inductive Error :=
| ErrBelowMinimum (amount : double)
| ErrAboveMaximum (amount : double)
| ErrDailyLimit (projected limit : double)
| ErrDepositFee
| ErrWithdrawalFee
| ErrInsufficientBalance (have need : double)
| ErrTransferFunds (available required : double)
| ErrTransferFee (amount : double)
| ErrInvestNonPositive
| ErrInvestFunds (amount have : double)
| ErrWithdrawInvestmentNonPositive
| ErrWithdrawInvestmentFunds (invested amount : double)
| ErrInvalidStorage
| ErrQuantityLimit (quantity : size_t)
| ErrVaultFull
| ErrTotalQuantity
| ErrInvalidRetrieval
| ErrItemNotFound (name : string)
| ErrOnlyStored (stored : size_t) (name : string).

Inductive Result := OK | Err (e : Error).

Definition succeeded (r : Result) : bool :=
  match r with OK => true | Err _ => false end.

(** The error kinds of the specification (its section 7).  The code has no
    such type, it writes a message and returns 0; [error_kind] files each
    message under the kind the specification names for its condition. *)
Inductive ErrorKind :=
| InvalidInput | OutOfRange | LimitExceeded | FeeRejected | InsufficientFunds | NotFound.

Definition error_kind (e : Error) : ErrorKind :=
  match e with
  | ErrBelowMinimum _ | ErrAboveMaximum _ => OutOfRange
  | ErrDailyLimit _ _ | ErrQuantityLimit _ | ErrVaultFull | ErrTotalQuantity => LimitExceeded
  | ErrDepositFee | ErrWithdrawalFee | ErrTransferFee _ => FeeRejected
  | ErrInsufficientBalance _ _ | ErrTransferFunds _ _ | ErrInvestFunds _ _
  | ErrWithdrawInvestmentFunds _ _ | ErrOnlyStored _ _ => InsufficientFunds
  | ErrInvestNonPositive | ErrWithdrawInvestmentNonPositive
  | ErrInvalidStorage | ErrInvalidRetrieval => InvalidInput
  | ErrItemNotFound _ => NotFound
  end.

(** ** History and account creation *)

Definition account_add_history (now : time_t) (account : Account)
    (description : string) (amount : double) : Account :=
  let entry := mkEntry now (snprintf_s 96 description) amount (balance account) in
  if (history_count account <? MAX_TRANSACTION_HISTORY)%nat then
    set_history account (history account ++ [entry])
  else
    (* memmove(history, history + 1, 63 entries); history[63] = entry *)
    set_history account
      (firstn (MAX_TRANSACTION_HISTORY - 1) (skipn 1 (history account)) ++ [entry]).

Definition account_reset (owner : option string) (initial_balance : double) : Account :=
  mkAccount
    (snprintf_s 64 (match owner with Some o => o | None => "Unknown" end))
    (if initial_balance <? 0 then 0 else initial_balance)
    0
    0.0
    []
    [].

(** ** Validation gates *)

Definition enforce_amount (amount : double) : Result :=
  if amount <? BANK_MIN_TRANSACTION then Err (ErrBelowMinimum amount)
  else if BANK_MAX_TRANSACTION <? amount then Err (ErrAboveMaximum amount)
  else OK.

Definition enforce_daily (service : BankingService) (account : Account)
    (amount : double) : Result :=
  let limit := if 0 <? daily_limit service then daily_limit service
               else BANK_MAX_DAILY_TOTAL in
  let projected := daily_total account + amount in
  if limit <? projected then Err (ErrDailyLimit projected limit)
  else OK.

(** [apply_fee(service, &amount, fee)]: [None] when it returns 0, otherwise
    the value [*amount] holds afterwards. *)
Definition apply_fee (service : BankingService) (amount fee : double) : option double :=
  if fee <=? 0 then Some amount
  else
    let after_fee := amount - fee in
    if after_fee <? BANK_MIN_TRANSACTION then None
    else Some after_fee.

(** ** Currency operations on one account *)

Definition service_deposit (service : BankingService) (now : time_t)
    (amount : double) (account : Account) : Result * Account :=
  let requested := amount in
  match enforce_amount amount with
  | Err e => (Err e, account)
  | OK =>
    match enforce_daily service account requested with
    | Err e => (Err e, account)
    | OK =>
      match apply_fee service amount (deposit_fee service) with
      | None => (Err ErrDepositFee, account)
      | Some amount =>
        let account := set_balance account (balance account + amount) in
        let account := set_daily_total account (daily_total account + requested) in
        let account := account_add_history now account "Deposit" amount in
        (OK, account)
      end
    end
  end.

Definition service_withdraw (service : BankingService) (now : time_t)
    (amount : double) (account : Account) : Result * Account :=
  let requested := amount in
  match enforce_amount amount with
  | Err e => (Err e, account)
  | OK =>
    match enforce_daily service account requested with
    | Err e => (Err e, account)
    | OK =>
      match apply_fee service amount (withdrawal_fee service) with
      | None => (Err ErrWithdrawalFee, account)
      | Some amount =>
        if balance account <? amount then
          (Err (ErrInsufficientBalance (balance account) amount), account)
        else
          let account := set_balance account (balance account - amount) in
          let account := set_daily_total account (daily_total account + requested) in
          let account := account_add_history now account "Withdrawal" (- amount) in
          (OK, account)
      end
    end
  end.

Definition service_invest (service : BankingService) (now : time_t)
    (amount : double) (account : Account) : Result * Account :=
  if amount <=? 0 then (Err ErrInvestNonPositive, account)
  else if balance account <? amount then
    (Err (ErrInvestFunds amount (balance account)), account)
  else
    let account := set_balance account (balance account - amount) in
    let account := set_investment_balance account (investment_balance account + amount) in
    let account := account_add_history now account "Investment Deposit" (- amount) in
    (OK, account).

Definition service_apply_investment_yield (service : BankingService) (now : time_t)
    (account : Account) : Account :=
  if (investment_balance account <=? 0) || (investment_rate service <=? 0) then account
  else
    let yield := investment_balance account * investment_rate service in
    let account := set_investment_balance account (investment_balance account + yield) in
    account_add_history now account "Investment Yield" yield.

Definition service_withdraw_investment (service : BankingService) (now : time_t)
    (amount : double) (account : Account) : Result * Account :=
  if amount <=? 0 then (Err ErrWithdrawInvestmentNonPositive, account)
  else if investment_balance account <? amount then
    (Err (ErrWithdrawInvestmentFunds (investment_balance account) amount), account)
  else
    let account := set_investment_balance account (investment_balance account - amount) in
    let account := set_balance account (balance account + amount) in
    let account := account_add_history now account "Investment Withdrawal" amount in
    (OK, account).

Definition service_reset_daily (account : Account) : Account :=
  set_daily_total account 0.0.

Definition service_init (name : option string)
    (deposit_fee withdrawal_fee transfer_fee investment_rate daily_limit : double)
    : BankingService :=
  mkService
    (snprintf_s MAX_SERVICE_NAME (match name with Some n => n | None => "Bank" end))
    deposit_fee withdrawal_fee transfer_fee investment_rate
    (if daily_limit <=? 0 then BANK_MAX_DAILY_TOTAL else daily_limit).

(** ** Item storage *)

(** [arr[i] = x] on the live prefix of an array; every index the code writes
    is below the count, so nothing is written out of range. *)
Fixpoint array_set {A : Type} (arr : list A) (i : nat) (x : A) : list A :=
  match arr, i with
  | [], _ => []
  | _ :: rest, O => x :: rest
  | y :: rest, S j => y :: array_set rest j x
  end.

Definition empty_item : Item := mkItem "" 0%N.

(** [arr[i]]. *)
Definition array_get (arr : list Item) (i : nat) : Item := nth i arr empty_item.

(** The loop of [account_find_item], started at index [i]. *)
Fixpoint find_item_from (i : nat) (slots : list Item) (name : string) : option nat :=
  match slots with
  | [] => None
  | slot :: rest =>
    if String.eqb (item_name slot) name then Some i
    else find_item_from (S i) rest name
  end.

(** [None] stands for [SIZE_MAX]. *)
Definition account_find_item (account : Account) (name : option string) : option nat :=
  match name with
  | None => None
  | Some name => find_item_from 0 (items account) name
  end.

Definition service_store_item (now : time_t) (name : option string)
    (quantity : size_t) (account : Account) : Result * Account :=
  match name with
  | None => (Err ErrInvalidStorage, account)
  | Some item =>
    if (quantity =? 0)%N then (Err ErrInvalidStorage, account)
    else if (BANK_MAX_ITEM_QUANTITY <? quantity)%N then
      (Err (ErrQuantityLimit quantity), account)
    else
      let slot :=
        match account_find_item account name with
        | Some index => Some (index, account)
        | None =>
          if (MAX_ITEMS <=? item_count account)%nat then None
          else
            (* index = account->item_count++; name copied; quantity = 0 *)
            Some (item_count account,
                  set_items account
                    (items account ++ [mkItem (snprintf_s MAX_ITEM_NAME item) 0%N]))
        end in
      match slot with
      | None => (Err ErrVaultFull, account)
      | Some (index, account) =>
        let stored := item_quantity (array_get (items account) index) in
        if (BANK_MAX_ITEM_QUANTITY <? size_add stored quantity)%N then
          (Err ErrTotalQuantity, account)
        else
          let account :=
            set_items account
              (array_set (items account) index
                 (mkItem (item_name (array_get (items account) index))
                         (size_add stored quantity))) in
          let account :=
            account_add_history now account "Item Stored" (double_of_size_t quantity) in
          (OK, account)
      end
  end.

(** [for (i = index; i + 1 < item_count; ++i) items[i] = items[i + 1];]
    run for at most [fuel] iterations. *)
Fixpoint shift_items (fuel i : nat) (slots : list Item) : list Item :=
  match fuel with
  | O => slots
  | S fuel' =>
    if (i + 1 <? List.length slots)%nat then
      shift_items fuel' (S i) (array_set slots i (array_get slots (i + 1)))
    else slots
  end.

Definition service_retrieve_item (now : time_t) (name : option string)
    (quantity : size_t) (account : Account) : Result * Account :=
  match name with
  | None => (Err ErrInvalidRetrieval, account)
  | Some item =>
    if (quantity =? 0)%N then (Err ErrInvalidRetrieval, account)
    else
      match account_find_item account name with
      | None => (Err (ErrItemNotFound item), account)
      | Some index =>
        let stored := item_quantity (array_get (items account) index) in
        if (stored <? quantity)%N then (Err (ErrOnlyStored stored item), account)
        else
          let account :=
            set_items account
              (array_set (items account) index
                 (mkItem (item_name (array_get (items account) index))
                         (size_sub stored quantity))) in
          let account :=
            account_add_history now account "Item Retrieved"
              (- double_of_size_t quantity) in
          if (item_quantity (array_get (items account) index) =? 0)%N then
            (* the loop runs item_count - index - 1 times, then item_count-- *)
            (OK, set_items account
                   (removelast (shift_items (item_count account) index (items account))))
          else (OK, account)
      end
  end.

(** ** Transfer between two accounts

    [service_transfer] takes two pointers, which may be equal; the accounts
    live in a heap and every access goes through it. *)

Definition Ptr := nat.
Definition Heap := Ptr -> Account.

Definition heap_set (h : Heap) (p : Ptr) (a : Account) : Heap :=
  fun q => if Nat.eqb q p then a else h q.

Definition service_transfer (service : BankingService) (now_from now_to : time_t)
    (from to : Ptr) (amount : double) (h : Heap) : Result * Heap :=
  match enforce_amount amount with
  | Err e => (Err e, h)
  | OK =>
    match enforce_daily service (h from) amount with
    | Err e => (Err e, h)
    | OK =>
      if balance (h from) <? amount then
        (Err (ErrTransferFunds (balance (h from)) amount), h)
      else
        let fee := transfer_fee service in
        let credited :=
          if 0 <? fee then
            if amount - fee <? BANK_MIN_TRANSACTION then None
            else Some (amount - fee)
          else Some amount in
        match credited with
        | None => (Err (ErrTransferFee amount), h)
        | Some credited =>
          let h := heap_set h from (set_balance (h from) (balance (h from) - amount)) in
          let h := heap_set h to (set_balance (h to) (balance (h to) + credited)) in
          let h := heap_set h from
                     (set_daily_total (h from) (daily_total (h from) + amount)) in
          let h := heap_set h from
                     (account_add_history now_from (h from) "Transfer Sent" (- amount)) in
          let h := heap_set h to
                     (account_add_history now_to (h to) "Transfer Received" credited) in
          (OK, h)
        end
    end
  end.

(** ** Sequences of calls

    A driver's calls, each naming the account (or accounts) it is applied to,
    and the environment's clock readings. *)

Inductive Operation :=
| Deposit (service : BankingService) (p : Ptr) (amount : double) (now : time_t)
| Withdraw (service : BankingService) (p : Ptr) (amount : double) (now : time_t)
| Transfer (service : BankingService) (from to : Ptr) (amount : double)
           (now_from now_to : time_t)
| Invest (service : BankingService) (p : Ptr) (amount : double) (now : time_t)
| ApplyYield (service : BankingService) (p : Ptr) (now : time_t)
| WithdrawInvestment (service : BankingService) (p : Ptr) (amount : double) (now : time_t)
| StoreItem (p : Ptr) (name : option string) (quantity : size_t) (now : time_t)
| RetrieveItem (p : Ptr) (name : option string) (quantity : size_t) (now : time_t)
| ResetDaily (p : Ptr).

(** A call through the pointer [p]. *)
Definition on_account (p : Ptr) (f : Account -> Result * Account) (h : Heap)
    : Result * Heap :=
  let '(r, a) := f (h p) in (r, heap_set h p a).

Definition exec (op : Operation) (h : Heap) : Result * Heap :=
  match op with
  | Deposit service p amount now => on_account p (service_deposit service now amount) h
  | Withdraw service p amount now => on_account p (service_withdraw service now amount) h
  | Transfer service from to amount now_from now_to =>
      service_transfer service now_from now_to from to amount h
  | Invest service p amount now => on_account p (service_invest service now amount) h
  | ApplyYield service p now =>
      (OK, heap_set h p (service_apply_investment_yield service now (h p)))
  | WithdrawInvestment service p amount now =>
      on_account p (service_withdraw_investment service now amount) h
  | StoreItem p name quantity now => on_account p (service_store_item now name quantity) h
  | RetrieveItem p name quantity now =>
      on_account p (service_retrieve_item now name quantity) h
  | ResetDaily p => (OK, heap_set h p (service_reset_daily (h p)))
  end.

(** The heap after a sequence of calls that all succeed; [None] as soon as
    one of them fails. *)
Fixpoint run (ops : list Operation) (h : Heap) : option Heap :=
  match ops with
  | [] => Some h
  | op :: rest =>
    match exec op h with
    | (OK, h') => run rest h'
    | (Err _, _) => None
    end
  end.

(** Every account of the heap is as [account_reset] leaves it. *)
Definition fresh_heap (h : Heap) : Prop :=
  forall p, exists owner initial_balance, h p = account_reset owner initial_balance.

(** Appending [n] entries in a row. *)
Fixpoint add_entries (account : Account) (entries : list (time_t * string * double))
    : Account :=
  match entries with
  | [] => account
  | (now, description, amount) :: rest =>
      add_entries (account_add_history now account description amount) rest
  end.

(** ** Predicates the statements below are about *)

(** C's [x >= 0]. *)
Definition at_least_zero (x : double) : Prop := (0 <=? x) = true.

(** C's [x < 0] is false: [x] is not a negative number. *)
Definition never_negative (x : double) : Prop := (x <? 0) = false.

Definition balances_never_negative (a : Account) : Prop :=
  never_negative (balance a) /\ never_negative (investment_balance a).

(** The limit the daily gate uses, in the words of the specification: the
    service's configured limit when it is above 0, the default otherwise. *)
Definition effective_daily_limit (service : BankingService) : double :=
  if 0 <? daily_limit service then daily_limit service else 25000.0.

(** The invariant of the [history] array's declared size. *)
Definition history_within_capacity (a : Account) : Prop :=
  (history_count a <= MAX_TRANSACTION_HISTORY)%nat.

(** The entry [account_add_history] writes. *)
Definition history_entry (account : Account) (e : time_t * string * double)
    : TransactionEntry :=
  let '(now, description, amount) := e in
  mkEntry now (snprintf_s 96 description) amount (balance account).

(** The last [n] elements of a list. *)
Definition last_n {A : Type} (n : nat) (l : list A) : list A :=
  skipn (List.length l - n) l.

(** The rational number a finite double stands for. *)
Definition double_value (x : double) : option Q :=
  match Prim2SF x with
  | S754_zero _ => Some 0%Q
  | S754_finite s m e =>
      Some ((if s then - inject_Z (Zpos m) else inject_Z (Zpos m)) * 2 ^ e)%Q
  | S754_infinity _ | S754_nan => None
  end.

(** [x] is a finite double standing for [q]. *)
Definition stands_for (x : double) (q : Q) : Prop :=
  exists v, double_value x = Some v /\ (v == q)%Q.

(** Sign of a binary64 datum, as [SpecFloat] gives it: not below zero. *)
Definition sf_nonneg (s : spec_float) : Prop :=
  match s with
  | S754_finite true _ _ | S754_infinity true => False
  | _ => True
  end.

(** What rounding a number of sign [sign] can produce. *)
Definition sf_round_of (sign : bool) (s : spec_float) : Prop :=
  match s with
  | S754_zero b | S754_infinity b | S754_finite b _ _ => b = sign
  | S754_nan => True
  end.

(** A binary64 datum that is not NaN and has the sign [sign]. *)
Definition sf_signed (sign : bool) (s : spec_float) : Prop :=
  match s with
  | S754_zero b | S754_infinity b | S754_finite b _ _ => b = sign
  | S754_nan => False
  end.

(** A finite binary64 datum of sign [sign]. *)
Definition sf_finite_signed (sign : bool) (s : spec_float) : Prop :=
  match s with
  | S754_zero b | S754_finite b _ _ => b = sign
  | S754_infinity _ | S754_nan => False
  end.

(** A binary64 datum [>= 0]: a zero, a positive number or plus infinity. *)
Definition sf_geq0 (s : spec_float) : Prop :=
  match s with
  | S754_zero _ | S754_infinity false | S754_finite false _ _ => True
  | _ => False
  end.

Definition sf_is_finite (s : spec_float) : Prop :=
  match s with
  | S754_zero _ | S754_finite _ _ _ => True
  | _ => False
  end.

Definition balances_at_least_zero (a : Account) : Prop :=
  at_least_zero (balance a) /\ at_least_zero (investment_balance a).

(** The arguments of a call are numbers: no amount, fee or rate that the
    call reads is NaN, and an amount that no upper bound is checked against
    (investing, withdrawing an investment) is finite. *)
Definition numeric_call (op : Operation) : Prop :=
  match op with
  | Deposit service _ amount _ =>
      is_nan amount = false /\ is_nan (deposit_fee service) = false
  | Withdraw service _ amount _ =>
      is_nan amount = false /\ is_nan (withdrawal_fee service) = false
  | Transfer _ _ _ amount _ _ => is_nan amount = false
  | Invest _ _ amount _ | WithdrawInvestment _ _ amount _ => is_finite amount = true
  | ApplyYield service _ _ => is_nan (investment_rate service) = false
  | StoreItem _ _ _ _ | RetrieveItem _ _ _ _ | ResetDaily _ => True
  end.

(** Every account of the heap is as [account_reset] leaves it, for an initial
    balance that is not NaN. *)
Definition numeric_fresh_heap (h : Heap) : Prop :=
  forall p, exists owner initial_balance,
    is_nan initial_balance = false /\ h p = account_reset owner initial_balance.

(** ** Scenarios *)

(** A service that charges nothing and keeps the default daily limit. *)
Definition free_service : BankingService := service_init (Some "Bank") 0 0 0 0 0.

(** The service of the demonstration [main]. *)
Definition guild_treasurer : BankingService :=
  service_init (Some "Guild Treasurer") 0.25 0.5 0.1 0.05 15000.0.

Definition hero : Account := account_reset (Some "Hero") 500.0.

(** A heap in which every account is a fresh "Hero". *)
Definition heroes : Heap := fun _ => hero.

(** The calls of the demonstration [main], then a transfer to a second
    account and a daily reset. *)
Definition demo_calls : list Operation :=
  [ Deposit guild_treasurer 0%nat 200.0 1%Z;
    Withdraw guild_treasurer 0%nat 50.0 2%Z;
    StoreItem 0%nat (Some "Ancient Relic") 2%N 3%Z;
    Invest guild_treasurer 0%nat 100.0 4%Z;
    ApplyYield guild_treasurer 0%nat 5%Z;
    Transfer guild_treasurer 0%nat 1%nat 25.0 6%Z 7%Z;
    WithdrawInvestment guild_treasurer 0%nat 5.0 8%Z;
    RetrieveItem 0%nat (Some "Ancient Relic") 1%N 9%Z;
    ResetDaily 0%nat ].

(** The heap those calls end in. *)
Definition demo_final : Heap :=
  Eval vm_compute in
    match run demo_calls heroes with
    | Some h => h
    | None => heroes
    end.

(** The heap after a fresh account accepted a deposit of NaN. *)
Definition after_nan_deposit : Heap :=
  Eval vm_compute in snd (exec (Deposit free_service 0%nat nan 1%Z) heroes).

(** A vault holding [MAX_ITEMS] distinct items, named "A", "B", ... *)
Definition full_vault : Account :=
  set_items hero
    (map (fun i => mkItem (String (Ascii.ascii_of_nat (65 + i)) "") 1%N)
         (seq 0 MAX_ITEMS)).

(** Two accounts with the given balances: pointer 0 and every other pointer. *)
Definition two_accounts (balance_0 balance_1 : double) : Heap :=
  fun p => if Nat.eqb p 0 then account_reset (Some "Sender") balance_0
           else account_reset (Some "Receiver") balance_1.

(** A service whose only fee is the transfer fee. *)
Definition transfer_fee_service (fee : double) : BankingService :=
  service_init (Some "Bank") 0 0 fee 0 0.

(** A service whose only fee is the deposit fee. *)
Definition deposit_fee_service (fee : double) : BankingService :=
  service_init (Some "Bank") fee 0 0 0 0.

(** A service that charges 5 on withdrawals. *)
Definition withdrawal_fee_5 : BankingService := service_init (Some "Bank") 0 5 0 0 0.

(** A service with a daily limit of 100 and no fee. *)
Definition daily_limit_100 : BankingService := service_init (Some "Bank") 0 0 0 0 100.

(** A service with an investment rate of 0.1. *)
Definition rate_one_tenth : BankingService := service_init (Some "Bank") 0 0 0 0.1 0.

(** [n] history records stamped 1, 2, ..., [n]. *)
Definition numbered_entries (n : nat) : list (time_t * string * double) :=
  map (fun i => (Z.of_nat i, "Deposit", 1.0)) (seq 1 n).

(** ** Drivers, the report, and the predicates of the further properties *)

(** A driver that carries on after a call that fails, as the demonstration
    [main] does (it prints the message and goes on): the heap after all the
    calls. *)
Definition drive (ops : list Operation) (h : Heap) : Heap :=
  fold_left (fun h op => snd (exec op h)) ops h.

(** ** The report

    [service_report] only prints.  Its output is the list of the lines it
    prints, one constructor per [printf] call carrying the values that the
    format string is given; the rendering of the numbers ([%.2f], [%zu]) and
    of the clock reading ([localtime], [strftime]) is left to the reader of
    the line. *)
Inductive ReportLine :=
| ReportTitle (service_name owner : string)
| ReportBalance (balance : double)
| ReportInvestments (investment_balance : double)
| ReportDailyTotal (daily_total limit : double)
| ReportItemCount (item_count : nat)
| ReportItem (name : string) (quantity : size_t)
| ReportTransactionCount (history_count : nat)
| ReportTransaction (timestamp : time_t) (description : string)
    (amount resulting_balance : double).

Definition service_report (service : BankingService) (account : Account)
    : list ReportLine :=
  let limit := if 0 <? daily_limit service then daily_limit service
               else BANK_MAX_DAILY_TOTAL in
  [ ReportTitle (service_name service) (owner account);
    ReportBalance (balance account);
    ReportInvestments (investment_balance account);
    ReportDailyTotal (daily_total account) limit;
    ReportItemCount (item_count account) ]
  ++ map (fun slot => ReportItem (item_name slot) (item_quantity slot)) (items account)
  ++ [ ReportTransactionCount (history_count account) ]
  ++ map (fun entry =>
            ReportTransaction (entry_timestamp entry) (entry_description entry)
              (entry_amount entry) (entry_resulting_balance entry))
       (history account).

(** A slot holds between 1 and [BANK_MAX_ITEM_QUANTITY] units. *)
Definition quantity_in_range (slot : Item) : Prop :=
  (1 <= item_quantity slot <= BANK_MAX_ITEM_QUANTITY)%N.

(** The name of a slot fits the [name] array with its terminator. *)
Definition name_fits (slot : Item) : Prop :=
  (String.length (item_name slot) < MAX_ITEM_NAME)%nat.

(** The vault is within its bounds: no more than [MAX_ITEMS] slots, each
    with a quantity in range and a name that fits. *)
Definition vault_ok (a : Account) : Prop :=
  (item_count a <= MAX_ITEMS)%nat
  /\ Forall quantity_in_range (items a)
  /\ Forall name_fits (items a).

(** The same of the slots alone. *)
Definition vault_slots_ok (slots : list Item) : Prop :=
  (List.length slots <= MAX_ITEMS)%nat
  /\ Forall quantity_in_range slots /\ Forall name_fits slots.

(** The quantity stored under [name]: what [service_retrieve_item] compares
    the request with, and 0 when no slot has the name. *)
Definition stored_quantity (a : Account) (name : string) : size_t :=
  match account_find_item a (Some name) with
  | Some index => item_quantity (array_get (items a) index)
  | None => 0%N
  end.

(** All the units in the slots. *)
Definition slots_units (slots : list Item) : N :=
  fold_right (fun slot n => (item_quantity slot + n)%N) 0%N slots.

Definition total_units (a : Account) : N := slots_units (items a).

(** No two slots have the same name. *)
Definition names_distinct (a : Account) : Prop :=
  NoDup (map item_name (items a)).

(** A call that stores an item does so under a name that fits a slot. *)
Definition store_name_fits (op : Operation) : Prop :=
  match op with
  | StoreItem _ (Some item) _ _ => (String.length item < MAX_ITEM_NAME)%nat
  | _ => True
  end.

(** The account a successful item call leaves: one history entry more and
    the given slots. *)
Definition item_call_result (now : time_t) (a : Account) (description : string)
    (amount : double) (slots : list Item) : Account :=
  set_items (account_add_history now a description amount) slots.

(** The history is empty or its last entry shows the balance of the
    account. *)
Definition last_entry_shows_balance (a : Account) : Prop :=
  history a = []
  \/ exists older e, history a = older ++ [e] /\ entry_resulting_balance e = balance a.

(** [e] is the most recent entry of the history. *)
Definition last_entry_is (a : Account) (e : TransactionEntry) : Prop :=
  exists older, history a = older ++ [e].

(** What a fee gate leaves of the amount. *)
Definition net_of_fee (amount fee : double) : double :=
  if fee <=? 0 then amount else amount - fee.

(** The accounts a call is given. *)
Definition names_account (op : Operation) (q : Ptr) : Prop :=
  match op with
  | Deposit _ p _ _ | Withdraw _ p _ _ | Invest _ p _ _ | ApplyYield _ p _
  | WithdrawInvestment _ p _ _ | StoreItem p _ _ _ | RetrieveItem p _ _ _
  | ResetDaily p => q = p
  | Transfer _ from to _ _ _ => q = from \/ q = to
  end.

(** The service a call goes through, for the calls that take one. *)
Definition uses_service (service : BankingService) (op : Operation) : Prop :=
  match op with
  | Deposit s _ _ _ | Withdraw s _ _ _ | Transfer s _ _ _ _ _ | Invest s _ _ _
  | ApplyYield s _ _ | WithdrawInvestment s _ _ _ => s = service
  | StoreItem _ _ _ _ | RetrieveItem _ _ _ _ | ResetDaily _ => True
  end.

(** The daily total is not above the limit the gate of [service] uses. *)
Definition within_daily_limit (service : BankingService) (a : Account) : Prop :=
  (effective_daily_limit service <? daily_total a) = false.

(** A binary64 datum at or above the positive number [ma * 2^ea]. *)
Definition sf_above (ma : positive) (ea : Z) (r : spec_float) : Prop :=
  match r with
  | S754_infinity false => True
  | S754_finite false mr er => (ea < er)%Z \/ (er = ea /\ (ma <= mr)%positive)
  | _ => False
  end.

(** A binary64 datum from zero up to the positive number [ma * 2^ea]. *)
Definition sf_below (ma : positive) (ea : Z) (r : spec_float) : Prop :=
  match r with
  | S754_zero _ => True
  | S754_finite false mr er => (er < ea)%Z \/ (er = ea /\ (mr <= ma)%positive)
  | _ => False
  end.

(** ** Proof automation *)

(** Case analysis on two binary64 data, unfolding the operations of
    [SpecFloat] one step without computing inside the rounding functions. *)
Ltac sf_cases a b :=
  destruct a as [[|]|[|]| |[|] ? ?], b as [[|]|[|]| |[|] ? ?];
  cbn [SF64add SFadd SF64sub SFsub SF64mul SFmul SFcompare SFltb SFleb
       sf_nonneg sf_geq0 sf_is_finite cond_Zopp negb xorb valid_binary].

(** Case analysis on every guard of the goal. *)
Ltac guards :=
  repeat match goal with
         | |- context [if ?c then _ else _] => destruct c eqn:?
         end.

Ltac unfold_gates :=
  unfold enforce_amount, enforce_daily, apply_fee,
    BANK_MIN_TRANSACTION, BANK_MAX_TRANSACTION, BANK_MAX_DAILY_TOTAL in *.

Create Rewrite HintDb frame.

(** Rewrites the fields read through [account_add_history] and the field
    assignments. *)
Ltac frame :=
  repeat (autorewrite with frame;
          cbn [fst snd owner balance investment_balance daily_total items history
               set_balance set_investment_balance set_daily_total set_items set_history]).

(** * Facts of binary64 arithmetic

    The primitive operations are specified by [FloatAxioms] in terms of
    [SpecFloat]; the facts below are what the bank's guards rely on. *)

Module IEEE.

Lemma SFcompare_antisym (x y : spec_float) :
  SFcompare y x = option_map CompOpp (SFcompare x y).
Proof.
  destruct x as [sx|sx| |sx mx ex], y as [sy|sy| |sy my ey]; simpl;
    try reflexivity; try (destruct sx; reflexivity); try (destruct sy; reflexivity);
    try (destruct sx, sy; reflexivity).
  destruct sx, sy; simpl; try reflexivity;
    rewrite (Z.compare_antisym ex ey); destruct (ex ?= ey)%Z; simpl; try reflexivity;
    rewrite <- (Pos.compare_cont_antisym _ _ Eq); simpl;
    try rewrite CompOpp_involutive; reflexivity.
Qed.

Lemma binary_round_aux_sign (s : bool) (m e : Z) (l : location) :
  sf_round_of s (binary_round_aux prec emax s m e l).
Proof.
  unfold binary_round_aux.
  destruct (shr_fexp prec emax m e l) as [mrs' e'].
  destruct (shr_fexp prec emax _ e' loc_Exact) as [mrs'' e''].
  destruct (shr_m mrs''); simpl; auto.
  destruct (_ <=? _)%Z; simpl; auto.
Qed.

Lemma binary_round_sign (s : bool) (m : positive) (e : Z) :
  sf_round_of s (binary_round prec emax s m e).
Proof.
  unfold binary_round.
  destruct (shl_align m e _) as [mz ez]. apply binary_round_aux_sign.
Qed.

Lemma binary_normalize_nonneg (z e : Z) :
  (0 <= z)%Z -> sf_round_of false (binary_normalize prec emax z e false).
Proof.
  intros Hz. destruct z as [|p|p]; simpl.
  - reflexivity.
  - apply binary_round_sign.
  - lia.
Qed.

Lemma sf_round_of_nonneg (s : spec_float) : sf_round_of false s -> sf_nonneg s.
Proof. destruct s as [b|b| |b m e]; simpl; intros H; try subst b; exact I. Qed.

Lemma digits2_pos_bounds (m : positive) :
  (2 ^ (Zpos (digits2_pos m) - 1) <= Zpos m < 2 ^ Zpos (digits2_pos m))%Z.
Proof.
  induction m as [p IH|p IH|]; simpl digits2_pos.
  - rewrite Pos2Z.inj_succ.
    replace (Z.succ (Z.pos (digits2_pos p)) - 1)%Z with (Z.succ (Z.pos (digits2_pos p) - 1))%Z by lia.
    rewrite !Z.pow_succ_r by lia. lia.
  - rewrite Pos2Z.inj_succ.
    replace (Z.succ (Z.pos (digits2_pos p)) - 1)%Z with (Z.succ (Z.pos (digits2_pos p) - 1))%Z by lia.
    rewrite !Z.pow_succ_r by lia. lia.
  - simpl. lia.
Qed.

Lemma iter_xO_value (d m : positive) :
  Zpos (Pos.iter xO m d) = (Zpos m * 2 ^ Zpos d)%Z.
Proof.
  revert m. induction d as [|d IH] using Pos.peano_ind; intros m.
  - simpl. lia.
  - rewrite Pos.iter_succ, Pos2Z.inj_succ, Z.pow_succ_r by lia.
    rewrite Pos2Z.inj_xO, IH. lia.
Qed.

Lemma shl_align_value (m : positive) (e ez : Z) :
  (ez <= e)%Z -> Zpos (fst (shl_align m e ez)) = (Zpos m * 2 ^ (e - ez))%Z.
Proof.
  intros H. unfold shl_align.
  destruct (ez - e)%Z as [|d|d] eqn:E.
  - replace (e - ez)%Z with 0%Z by lia. simpl. lia.
  - lia.
  - simpl fst. rewrite iter_xO_value. replace (e - ez)%Z with (Zpos d) by lia. reflexivity.
Qed.

Lemma bounded_inv (m : positive) (e : Z) :
  bounded prec emax m e = true ->
  (Zpos (digits2_pos m) <= 53 /\ -1074 <= e /\ (Zpos (digits2_pos m) = 53 \/ e = -1074))%Z.
Proof.
  unfold bounded, canonical_mantissa, fexp, SpecFloat.emin.
  intros H. apply andb_prop in H. destruct H as [H _].
  apply Z.eqb_eq in H. change prec with 53%Z in H. change emax with 1024%Z in H.
  lia.
Qed.

(** The comparison of two valid positive mantissa/exponent pairs is the
    comparison of their values at a common exponent. *)
Lemma compare_aligned (m1 m2 : positive) (e1 e2 : Z) :
  bounded prec emax m1 e1 = true -> bounded prec emax m2 e2 = true ->
  match (e1 ?= e2)%Z with
  | Lt => Lt
  | Gt => Gt
  | Eq => Pos.compare_cont Eq m1 m2
  end
  = (Zpos (fst (shl_align m1 e1 (Z.min e1 e2))) ?= Zpos (fst (shl_align m2 e2 (Z.min e1 e2))))%Z.
Proof.
  intros B1 B2.
  apply bounded_inv in B1. apply bounded_inv in B2.
  pose proof (digits2_pos_bounds m1) as D1. pose proof (digits2_pos_bounds m2) as D2.
  rewrite !shl_align_value by lia.
  destruct (Z.compare_spec e1 e2) as [E|E|E].
  - subst e2. rewrite Z.min_id, Z.sub_diag. simpl (2 ^ 0)%Z. rewrite !Z.mul_1_r.
    reflexivity.
  - symmetry. apply Z.compare_lt_iff.
    rewrite Z.min_l by lia. rewrite Z.sub_diag. simpl (2 ^ 0)%Z. rewrite Z.mul_1_r.
    assert (Hd : Zpos (digits2_pos m2) = 53%Z) by lia.
    rewrite Hd in D2.
    assert (Zpos m1 < 2 ^ 53)%Z.
    { destruct D1 as [_ D1]. eapply Z.lt_le_trans; [exact D1|].
      apply Z.pow_le_mono_r; lia. }
    assert (2 ^ 1 <= 2 ^ (e2 - e1))%Z by (apply Z.pow_le_mono_r; lia).
    change (2 ^ (53 - 1))%Z with 4503599627370496%Z in D2.
    change (2 ^ 53)%Z with 9007199254740992%Z in *.
    change (2 ^ 1)%Z with 2%Z in *. nia.
  - symmetry. apply Z.compare_gt_iff.
    rewrite Z.min_r by lia. rewrite Z.sub_diag. simpl (2 ^ 0)%Z. rewrite Z.mul_1_r.
    assert (Hd : Zpos (digits2_pos m1) = 53%Z) by lia.
    rewrite Hd in D1.
    assert (Zpos m2 < 2 ^ 53)%Z.
    { destruct D2 as [_ D2]. eapply Z.lt_le_trans; [exact D2|].
      apply Z.pow_le_mono_r; lia. }
    assert (2 ^ 1 <= 2 ^ (e1 - e2))%Z by (apply Z.pow_le_mono_r; lia).
    change (2 ^ (53 - 1))%Z with 4503599627370496%Z in D1.
    change (2 ^ 53)%Z with 9007199254740992%Z in *.
    change (2 ^ 1)%Z with 2%Z in *. nia.
Qed.

Lemma SFadd_nonneg (a b : spec_float) :
  sf_nonneg a -> sf_nonneg b -> sf_nonneg (SF64add a b).
Proof.
  unfold SF64add. sf_cases a b; intros Ha Hb; try exact I; try contradiction.
  apply sf_round_of_nonneg, binary_normalize_nonneg. lia.
Qed.

Lemma SFsub_nonneg (a b : spec_float) :
  valid_binary a = true -> valid_binary b = true ->
  SFltb a b = false -> sf_nonneg (SF64sub a b).
Proof.
  unfold SF64sub, SFltb.
  sf_cases a b; intros Va Vb H; try exact I; try discriminate;
    apply sf_round_of_nonneg, binary_normalize_nonneg.
  all: try lia.
  all: 
    pose proof (compare_aligned _ _ _ _ Va Vb) as C;
    destruct (_ ?= _)%Z eqn:E in H; try discriminate.
  all: rewrite E in C.
  - rewrite C in H.
    match type of H with context [(?x ?= ?y)%Z] =>
      destruct (Z.compare_spec x y); simpl in H; try discriminate; lia end.
  - match type of C with context [(?x ?= ?y)%Z] =>
      destruct (Z.compare_spec x y); try discriminate; lia end.
  - rewrite C in H.
    match type of H with context [(?x ?= ?y)%Z] =>
      destruct (Z.compare_spec x y); simpl in H; try discriminate; lia end.
  - match type of C with context [(?x ?= ?y)%Z] =>
      destruct (Z.compare_spec x y); try discriminate; lia end.
Qed.

Lemma SFmul_nonneg (a b : spec_float) :
  SFleb a (S754_zero false) = false -> SFleb b (S754_zero false) = false ->
  sf_nonneg (SF64mul a b).
Proof.
  unfold SF64mul, SFleb.
  sf_cases a b; intros Ha Hb; try exact I; try discriminate.
  apply sf_round_of_nonneg, binary_round_aux_sign.
Qed.

Lemma Prim2SF_zero : Prim2SF 0 = S754_zero false.
Proof. reflexivity. Qed.

Lemma Prim2SF_one : Prim2SF 1 = S754_finite false 4503599627370496 (-52).
Proof. reflexivity. Qed.

Lemma ltb_zero_nonneg (x : float) : (x <? 0) = false <-> sf_nonneg (Prim2SF x).
Proof.
  rewrite FloatAxioms.ltb_spec, Prim2SF_zero. unfold SFltb.
  destruct (Prim2SF x) as [[|]|[|]| |[|] m e]; simpl; split; intros H;
    try exact I; try reflexivity; try discriminate; try contradiction.
Qed.

Lemma add_never_negative (x y : float) :
  (x <? 0) = false -> (y <? 0) = false -> (x + y <? 0) = false.
Proof.
  rewrite !ltb_zero_nonneg, FloatAxioms.add_spec. apply SFadd_nonneg.
Qed.

Lemma sub_never_negative (x y : float) :
  (x <? y) = false -> (x - y <? 0) = false.
Proof.
  rewrite ltb_zero_nonneg, FloatAxioms.sub_spec, FloatAxioms.ltb_spec.
  apply SFsub_nonneg; apply Prim2SF_valid.
Qed.

Lemma mul_never_negative (x y : float) :
  (x <=? 0) = false -> (y <=? 0) = false -> (x * y <? 0) = false.
Proof.
  rewrite ltb_zero_nonneg, FloatAxioms.mul_spec, !FloatAxioms.leb_spec, Prim2SF_zero.
  apply SFmul_nonneg.
Qed.

Lemma ge_one_never_negative (x : float) : (x <? 1) = false -> (x <? 0) = false.
Proof.
  rewrite ltb_zero_nonneg, FloatAxioms.ltb_spec, Prim2SF_one. unfold SFltb.
  destruct (Prim2SF x) as [[|]|[|]| |[|] m e]; cbn [SFcompare sf_nonneg]; intros H;
    try exact I; discriminate.
Qed.

Lemma positive_never_negative (x : float) : (x <=? 0) = false -> (x <? 0) = false.
Proof.
  rewrite ltb_zero_nonneg, FloatAxioms.leb_spec, Prim2SF_zero. unfold SFleb.
  destruct (Prim2SF x) as [[|]|[|]| |[|] m e]; simpl; intros H;
    try exact I; discriminate.
Qed.

Lemma ltb_leb_antisym (x y : float) : (x <? y) = true -> (y <=? x) = false.
Proof.
  rewrite FloatAxioms.ltb_spec, FloatAxioms.leb_spec. unfold SFltb, SFleb.
  rewrite (SFcompare_antisym (Prim2SF x) (Prim2SF y)).
  destruct (SFcompare (Prim2SF x) (Prim2SF y)) as [[| |]|]; simpl; congruence.
Qed.

Lemma SFcompare_refl (s : spec_float) : s <> S754_nan -> SFcompare s s = Some Eq.
Proof.
  destruct s as [[|]|[|]| |[|] m e]; simpl; intros H; try reflexivity; try congruence;
    rewrite Z.compare_refl, Pos.compare_cont_refl; reflexivity.
Qed.

Lemma is_nan_spec (x : float) : is_nan x = false <-> Prim2SF x <> S754_nan.
Proof.
  unfold is_nan. rewrite FloatAxioms.eqb_spec. unfold SFeqb. split.
  - intros H E. rewrite E in H. discriminate.
  - intros H. rewrite SFcompare_refl by exact H. reflexivity.
Qed.

Lemma SFcompare_total (a b : spec_float) :
  a <> S754_nan -> b <> S754_nan -> exists c, SFcompare a b = Some c.
Proof.
  destruct a as [[|]|[|]| |[|] ma ea], b as [[|]|[|]| |[|] mb eb]; simpl;
    intros Ha Hb; try congruence; eexists; reflexivity.
Qed.

Lemma leb_negb_ltb (x y : float) :
  is_nan x = false -> is_nan y = false -> (x <=? y) = negb (y <? x).
Proof.
  rewrite !is_nan_spec, FloatAxioms.leb_spec, FloatAxioms.ltb_spec. intros Hx Hy.
  unfold SFleb, SFltb. rewrite (SFcompare_antisym (Prim2SF x) (Prim2SF y)).
  destruct (SFcompare_total _ _ Hx Hy) as [c ->]. destruct c; reflexivity.
Qed.

Lemma ltb_negb_leb (x y : float) :
  is_nan x = false -> is_nan y = false -> (x <? y) = negb (y <=? x).
Proof.
  intros Hx Hy. rewrite (leb_negb_ltb y x Hy Hx), negb_involutive. reflexivity.
Qed.

Lemma shr_1_m (mrs : shr_record) :
  (0 <= shr_m mrs)%Z -> shr_m (shr_1 mrs) = (shr_m mrs / 2)%Z.
Proof.
  destruct mrs as [m r s]. cbn [shr_m]. intros Hm.
  rewrite <- Z.div2_div.
  destruct m as [|[p|p|]|p]; cbn [shr_1 shr_m Z.div2]; try reflexivity; lia.
Qed.

Lemma iter_shr_1_m (p : positive) :
  forall mrs, (0 <= shr_m mrs)%Z ->
    shr_m (SpecFloat.iter_pos shr_1 p mrs) = (shr_m mrs / 2 ^ Zpos p)%Z.
Proof.
  induction p as [p IH|p IH|]; intros mrs Hm; cbn [SpecFloat.iter_pos].
  - assert (H1 : (0 <= shr_m (shr_1 mrs))%Z).
    { rewrite shr_1_m by exact Hm. apply Z.div_pos; lia. }
    assert (H2 : (0 <= shr_m (SpecFloat.iter_pos shr_1 p (shr_1 mrs)))%Z).
    { rewrite IH by exact H1. apply Z.div_pos; [exact H1|]. apply Z.pow_pos_nonneg; lia. }
    rewrite IH by exact H2. rewrite IH by exact H1. rewrite shr_1_m by exact Hm.
    rewrite !Z.div_div by (try apply Z.pow_pos_nonneg; lia).
    f_equal. rewrite <- Z.pow_add_r, <- Z.pow_succ_r by lia. f_equal. lia.
  - assert (H2 : (0 <= shr_m (SpecFloat.iter_pos shr_1 p mrs))%Z).
    { rewrite IH by exact Hm. apply Z.div_pos; [exact Hm|]. apply Z.pow_pos_nonneg; lia. }
    rewrite IH by exact H2. rewrite IH by exact Hm.
    rewrite !Z.div_div by (try apply Z.pow_pos_nonneg; lia).
    f_equal. rewrite <- Z.pow_add_r by lia. f_equal. lia.
  - rewrite shr_1_m by exact Hm. reflexivity.
Qed.

Lemma shr_record_of_loc_m (m : Z) (l : location) : shr_m (shr_record_of_loc m l) = m.
Proof. destruct l as [|[| |]]; reflexivity. Qed.

(** What [shr_fexp] returns for a mantissa that is not negative: the
    mantissa divided by the power of two it was shifted by, and the exponent
    raised by as much. *)
Lemma shr_fexp_spec (m e : Z) (l : location) :
  (0 <= m)%Z ->
  let n := Z.max 0 (fexp prec emax (Zdigits2 m + e) - e) in
  shr_m (fst (shr_fexp prec emax m e l)) = (m / 2 ^ n)%Z
  /\ snd (shr_fexp prec emax m e l) = (e + n)%Z.
Proof.
  intros Hm. cbv zeta. unfold shr_fexp, shr.
  destruct (fexp prec emax (Zdigits2 m + e) - e)%Z as [|p|p] eqn:E.
  - cbn [fst snd]. rewrite shr_record_of_loc_m.
    change (Z.max 0 0) with 0%Z. rewrite Z.div_1_r. split; [reflexivity | lia].
  - cbn [fst snd]. rewrite iter_shr_1_m by (rewrite shr_record_of_loc_m; exact Hm).
    rewrite shr_record_of_loc_m.
    replace (Z.max 0 (Z.pos p)) with (Z.pos p) by lia. split; reflexivity.
  - cbn [fst snd]. rewrite shr_record_of_loc_m.
    replace (Z.max 0 (Z.neg p)) with 0%Z by lia. rewrite Z.div_1_r. split; [reflexivity | lia].
Qed.

Lemma round_nearest_even_bounds (m : Z) (l : location) :
  (m <= round_nearest_even m l <= m + 1)%Z.
Proof.
  unfold round_nearest_even. destruct l as [|[| |]]; try lia.
  destruct (Z.even m); lia.
Qed.

Lemma Zdigits2_le_pow (m k : Z) :
  (0 <= k)%Z -> (0 <= m <= 2 ^ k)%Z -> (Zdigits2 m <= k + 1)%Z.
Proof.
  intros Hk [H0 Hm]. destruct m as [|p|p]; cbn [Zdigits2]; try lia.
  pose proof (digits2_pos_bounds p) as [Hlo _].
  destruct (Z.le_gt_cases (Z.pos (digits2_pos p)) (k + 1)) as [H|H]; [exact H|].
  assert (2 ^ (k + 1) <= 2 ^ (Z.pos (digits2_pos p) - 1))%Z
    by (apply Z.pow_le_mono_r; lia).
  rewrite Z.pow_add_r in H1 by lia. change (2 ^ 1)%Z with 2%Z in H1.
  assert (0 < 2 ^ k)%Z by (apply Z.pow_pos_nonneg; lia). lia.
Qed.

Lemma digits2_pos_mono (p q : positive) :
  (p <= q)%positive -> (Zpos (digits2_pos p) <= Zpos (digits2_pos q))%Z.
Proof.
  intros H.
  pose proof (digits2_pos_bounds p) as [Hlo _].
  pose proof (digits2_pos_bounds q) as [_ Hhi].
  destruct (Z.le_gt_cases (Z.pos (digits2_pos p)) (Z.pos (digits2_pos q))) as [L|L];
    [exact L|].
  assert (2 ^ Z.pos (digits2_pos q) <= 2 ^ (Z.pos (digits2_pos p) - 1))%Z
    by (apply Z.pow_le_mono_r; lia).
  lia.
Qed.

Lemma digits2_pos_iter_xO (k m : positive) :
  Zpos (digits2_pos (Pos.iter xO m k)) = (Zpos (digits2_pos m) + Zpos k)%Z.
Proof.
  induction k as [|k IH] using Pos.peano_ind.
  - cbn [Pos.iter digits2_pos]. lia.
  - rewrite Pos.iter_succ. cbn [digits2_pos]. rewrite Pos2Z.inj_succ, IH. lia.
Qed.

Lemma shl_align_digits (m : positive) (e ez : Z) :
  (ez <= e)%Z ->
  Zpos (digits2_pos (fst (shl_align m e ez))) = (Zpos (digits2_pos m) + (e - ez))%Z.
Proof.
  intros H. unfold shl_align.
  destruct (ez - e)%Z as [|d|d] eqn:E; cbn [fst]; try lia.
  rewrite digits2_pos_iter_xO. lia.
Qed.

Lemma fexp_bounds (x : Z) :
  (fexp prec emax x = Z.max (x - 53) (-1074))%Z.
Proof. reflexivity. Qed.

(** Rounding a mantissa that is not negative never yields NaN; the sign is
    the one asked for. *)
Lemma binary_round_aux_signed (s : bool) (m e : Z) (l : location) :
  (0 <= m)%Z -> sf_signed s (binary_round_aux prec emax s m e l).
Proof.
  intros Hm. unfold binary_round_aux.
  pose proof (shr_fexp_spec m e l Hm) as [S1 _].
  destruct (shr_fexp prec emax m e l) as [mrs' e']. cbn [fst] in S1.
  assert (H1 : (0 <= shr_m mrs')%Z).
  { rewrite S1. apply Z.div_pos; [exact Hm|]. apply Z.pow_pos_nonneg; lia. }
  pose proof (round_nearest_even_bounds (shr_m mrs') (loc_of_shr_record mrs')) as B.
  set (m1 := round_nearest_even (shr_m mrs') (loc_of_shr_record mrs')) in *.
  assert (Hm1 : (0 <= m1)%Z) by lia.
  pose proof (shr_fexp_spec m1 e' loc_Exact Hm1) as [S2 _].
  destruct (shr_fexp prec emax m1 e' loc_Exact) as [mrs'' e'']. cbn [fst] in S2.
  assert (H2 : (0 <= shr_m mrs'')%Z).
  { rewrite S2. apply Z.div_pos; [exact Hm1|]. apply Z.pow_pos_nonneg; lia. }
  destruct (shr_m mrs'') as [|p|p]; cbn [sf_signed]; try reflexivity; try lia.
  destruct (_ <=? _)%Z; reflexivity.
Qed.

(** Rounding a positive mantissa whose value lies well inside the binary64
    range yields a finite number. *)
Lemma binary_round_aux_finite (s : bool) (m e : Z) (l : location) :
  (0 < m)%Z -> (e <= 970)%Z -> (Zdigits2 m + e <= 1023)%Z ->
  sf_finite_signed s (binary_round_aux prec emax s m e l).
Proof.
  intros Hm He HD. unfold binary_round_aux.
  assert (Hm0 : (0 <= m)%Z) by lia.
  pose proof (shr_fexp_spec m e l Hm0) as [S1 E1]. cbv zeta in S1, E1.
  rewrite fexp_bounds in S1, E1.
  destruct (shr_fexp prec emax m e l) as [mrs' e']. cbn [fst snd] in S1, E1.
  set (n := Z.max 0 (Z.max (Zdigits2 m + e - 53) (-1074) - e)) in *.
  assert (Hd : (m < 2 ^ Zdigits2 m)%Z).
  { destruct m as [|p|p]; try lia. cbn [Zdigits2]. apply digits2_pos_bounds. }
  assert (Hdpos : (0 < Zdigits2 m)%Z) by (destruct m; cbn [Zdigits2]; lia).
  assert (H1 : (0 <= shr_m mrs' < 2 ^ 53)%Z).
  { rewrite S1. split.
    - apply Z.div_pos; [lia|]. apply Z.pow_pos_nonneg; lia.
    - apply Z.div_lt_upper_bound; [apply Z.pow_pos_nonneg; lia|].
      rewrite <- Z.pow_add_r by lia.
      eapply Z.lt_le_trans; [exact Hd|]. apply Z.pow_le_mono_r; lia. }
  pose proof (round_nearest_even_bounds (shr_m mrs') (loc_of_shr_record mrs')) as B.
  set (m1 := round_nearest_even (shr_m mrs') (loc_of_shr_record mrs')) in *.
  assert (Hm1 : (0 <= m1 <= 2 ^ 53)%Z) by lia.
  pose proof (Zdigits2_le_pow m1 53 ltac:(lia) Hm1) as Hd1.
  pose proof (shr_fexp_spec m1 e' loc_Exact ltac:(lia)) as [S2 E2]. cbv zeta in S2, E2.
  rewrite fexp_bounds in S2, E2.
  destruct (shr_fexp prec emax m1 e' loc_Exact) as [mrs'' e'']. cbn [fst snd] in S2, E2.
  assert (H2 : (0 <= shr_m mrs'')%Z).
  { rewrite S2. apply Z.div_pos; [lia|]. apply Z.pow_pos_nonneg; lia. }
  assert (He'' : (e'' <= 971)%Z) by lia.
  destruct (shr_m mrs'') as [|p|p]; cbn [sf_finite_signed]; try reflexivity; try lia.
  apply Z.leb_le in He''. change (emax - prec)%Z with 971%Z. rewrite He''. reflexivity.
Qed.

Lemma binary_round_signed (s : bool) (m : positive) (e : Z) :
  sf_signed s (binary_round prec emax s m e).
Proof.
  unfold binary_round. destruct (shl_align m e _) as [mz ez].
  apply binary_round_aux_signed. lia.
Qed.

Lemma binary_round_finite (s : bool) (m : positive) (e : Z) :
  (Zpos (digits2_pos m) + e <= 1023)%Z ->
  sf_finite_signed s (binary_round prec emax s m e).
Proof.
  intros HD. unfold binary_round. rewrite fexp_bounds.
  set (t := Z.max (Z.pos (digits2_pos m) + e - 53) (-1074)).
  pose proof (shl_align_digits m e t) as Hdig.
  unfold shl_align in *.
  destruct (t - e)%Z as [|d|d] eqn:E; cbn [fst] in *.
  - apply binary_round_aux_finite; cbn [Zdigits2]; lia.
  - apply binary_round_aux_finite; cbn [Zdigits2]; lia.
  - apply binary_round_aux_finite; cbn [Zdigits2]; lia.
Qed.

Lemma sf_signed_geq0 (s : spec_float) : sf_signed false s -> sf_geq0 s.
Proof. destruct s as [b|b| |b m e]; cbn; intros H; try subst b; auto. Qed.

Lemma sf_signed_not_nan (sign : bool) (s : spec_float) : sf_signed sign s -> s <> S754_nan.
Proof. destruct s; cbn; intros H; [discriminate|discriminate|contradiction|discriminate]. Qed.

Lemma binary_normalize_signed (z e : Z) :
  (0 <= z)%Z -> sf_signed false (binary_normalize prec emax z e false).
Proof.
  intros Hz. destruct z as [|p|p]; cbn [binary_normalize]; [reflexivity| |lia].
  apply binary_round_signed.
Qed.

Lemma binary_normalize_not_nan (z e : Z) :
  binary_normalize prec emax z e false <> S754_nan.
Proof.
  destruct z as [|p|p]; cbn [binary_normalize]; [discriminate| |];
    eapply sf_signed_not_nan; apply binary_round_signed.
Qed.

Lemma SFadd_geq0 (a b : spec_float) :
  sf_geq0 a -> sf_geq0 b -> sf_geq0 (SF64add a b).
Proof.
  unfold SF64add. sf_cases a b; intros Ha Hb; try exact I; try contradiction.
  apply sf_signed_geq0, binary_normalize_signed. lia.
Qed.

Lemma SFsub_geq0 (a b : spec_float) :
  valid_binary a = true -> valid_binary b = true ->
  sf_geq0 a -> sf_is_finite b -> SFltb a b = false -> sf_geq0 (SF64sub a b).
Proof.
  unfold SF64sub, SFltb.
  sf_cases a b; intros Va Vb Ha Hb H; try exact I; try contradiction; try discriminate;
    apply sf_signed_geq0, binary_normalize_signed.
  all: try lia.
  pose proof (compare_aligned _ _ _ _ Va Vb) as C.
  destruct (_ ?= _)%Z eqn:E in H; try discriminate; rewrite E in C.
  - rewrite C in H.
    match type of H with context [(?x ?= ?y)%Z] =>
      destruct (Z.compare_spec x y); simpl in H; try discriminate; lia end.
  - match type of C with context [(?x ?= ?y)%Z] =>
      destruct (Z.compare_spec x y); try discriminate; lia end.
Qed.

Lemma SFmul_geq0 (a b : spec_float) :
  SFltb (S754_zero false) a = true -> SFltb (S754_zero false) b = true ->
  sf_geq0 (SF64mul a b).
Proof.
  unfold SF64mul, SFltb.
  sf_cases a b; intros Ha Hb; try exact I; try discriminate.
  apply sf_signed_geq0, binary_round_aux_signed. lia.
Qed.

Lemma SFsub_not_nan (a f : spec_float) :
  sf_is_finite a -> f <> S754_nan -> SF64sub a f <> S754_nan.
Proof.
  unfold SF64sub.
  sf_cases a f; intros Ha Hf; try contradiction; try congruence; try discriminate;
    apply binary_normalize_not_nan.
Qed.

(** An amount that is a number inside the range of [enforce_amount] is a
    positive finite number whose exponent is at most that of 10000. *)
Lemma in_range_finite (a : spec_float) :
  a <> S754_nan ->
  SFltb a (Prim2SF 1) = false -> SFltb (Prim2SF 10000) a = false ->
  exists m e, a = S754_finite false m e /\ (e <= -39)%Z.
Proof.
  rewrite Prim2SF_one. change (Prim2SF 10000) with (S754_finite false 5497558138880000 (-39)).
  unfold SFltb.
  destruct a as [[|]|[|]| |[|] m e]; cbn [SFcompare]; intros Hn H1 H2;
    try discriminate; try congruence.
  exists m, e. split; [reflexivity|].
  destruct (Z.compare_spec (-39) e); try discriminate; lia.
Qed.

Lemma SFsub_in_range_not_pinf (a f : spec_float) :
  valid_binary a = true ->
  a <> S754_nan ->
  SFltb a (Prim2SF 1) = false -> SFltb (Prim2SF 10000) a = false ->
  SFleb f (S754_zero false) = false ->
  SF64sub a f <> S754_infinity false.
Proof.
  intros Va Hn H1 H2 Hf.
  destruct (in_range_finite a Hn H1 H2) as (ma & ea & -> & Hea).
  unfold SFleb in Hf. unfold SF64sub.
  destruct f as [[|]|[|]| |[|] mf ef]; cbn [SFsub SFcompare cond_Zopp negb] in *;
    try discriminate.
  cbn [valid_binary] in Va. apply bounded_inv in Va.
  set (ez := Z.min ea ef).
  pose proof (shl_align_digits ma ea ez ltac:(lia)) as DA.
  set (A := fst (shl_align ma ea ez)) in *.
  set (F := fst (shl_align mf ef ez)) in *.
  destruct (Z.pos A - Z.pos F)%Z as [|z|z] eqn:E; cbn [binary_normalize].
  - discriminate.
  - assert (HD : (Z.pos (digits2_pos z) + ez <= 1023)%Z).
    { pose proof (digits2_pos_mono z A ltac:(lia)). lia. }
    pose proof (binary_round_finite false z ez HD) as Hfin.
    intros Hinf. rewrite Hinf in Hfin. exact Hfin.
  - pose proof (binary_round_sign true z ez) as Hs.
    intros Hinf. rewrite Hinf in Hs. cbn in Hs. discriminate.
Qed.

Lemma at_least_zero_spec (x : float) : at_least_zero x <-> sf_geq0 (Prim2SF x).
Proof.
  unfold at_least_zero. rewrite FloatAxioms.leb_spec, Prim2SF_zero. unfold SFleb.
  destruct (Prim2SF x) as [[|]|[|]| |[|] m e]; cbn [SFcompare sf_geq0]; split; intros H;
    try exact I; try reflexivity; try discriminate; try contradiction.
Qed.

Lemma at_least_zero_not_nan (x : float) : at_least_zero x -> is_nan x = false.
Proof.
  rewrite at_least_zero_spec, is_nan_spec.
  destruct (Prim2SF x); cbn; intros H; try discriminate. contradiction.
Qed.

Lemma is_finite_spec (x : float) : is_finite x = true -> sf_is_finite (Prim2SF x).
Proof.
  unfold is_finite, is_infinity.
  rewrite FloatAxioms.eqb_spec, FloatAxioms.abs_spec.
  change (Prim2SF infinity) with (S754_infinity false).
  destruct (is_nan x) eqn:En; [discriminate|].
  apply is_nan_spec in En.
  destruct (Prim2SF x) as [[|]|[|]| |[|] m e]; cbn; intros H;
    try exact I; try discriminate; congruence.
Qed.

Lemma is_finite_not_nan (x : float) : is_finite x = true -> is_nan x = false.
Proof.
  unfold is_finite. destruct (is_nan x); [discriminate | reflexivity].
Qed.

Lemma add_at_least_zero (x y : float) :
  at_least_zero x -> at_least_zero y -> at_least_zero (x + y).
Proof.
  rewrite !at_least_zero_spec, FloatAxioms.add_spec. apply SFadd_geq0.
Qed.

Lemma sub_at_least_zero (x y : float) :
  at_least_zero x -> is_finite y = true -> (x <? y) = false -> at_least_zero (x - y).
Proof.
  rewrite !at_least_zero_spec, FloatAxioms.sub_spec, FloatAxioms.ltb_spec.
  intros Hx Hy H. apply SFsub_geq0; auto using Prim2SF_valid, is_finite_spec.
Qed.

Lemma positive_at_least_zero (x : float) :
  is_nan x = false -> (x <=? 0) = false -> at_least_zero x.
Proof.
  rewrite at_least_zero_spec, is_nan_spec, FloatAxioms.leb_spec, Prim2SF_zero.
  unfold SFleb.
  destruct (Prim2SF x) as [[|]|[|]| |[|] m e]; cbn [SFcompare sf_geq0]; intros Hn H;
    try exact I; try discriminate; congruence.
Qed.

Lemma mul_at_least_zero (x y : float) :
  is_nan x = false -> is_nan y = false ->
  (x <=? 0) = false -> (y <=? 0) = false -> at_least_zero (x * y).
Proof.
  intros Nx Ny Hx Hy.
  rewrite at_least_zero_spec, FloatAxioms.mul_spec.
  rewrite (leb_negb_ltb x 0 Nx eq_refl) in Hx.
  rewrite (leb_negb_ltb y 0 Ny eq_refl) in Hy.
  apply negb_false_iff in Hx, Hy.
  rewrite FloatAxioms.ltb_spec, Prim2SF_zero in Hx, Hy.
  apply SFmul_geq0; assumption.
Qed.

Lemma at_least_one_at_least_zero (x : float) :
  is_nan x = false -> (x <? 1) = false -> at_least_zero x.
Proof.
  rewrite at_least_zero_spec, is_nan_spec, FloatAxioms.ltb_spec, Prim2SF_one.
  unfold SFltb.
  destruct (Prim2SF x) as [[|]|[|]| |[|] m e]; cbn [SFcompare sf_geq0]; intros Hn H;
    try exact I; try discriminate; congruence.
Qed.

Lemma in_range_is_finite (x : float) :
  is_nan x = false -> (x <? 1) = false -> (10000 <? x) = false -> is_finite x = true.
Proof.
  intros Hn H1 H2. unfold is_finite. rewrite Hn. cbn [orb negb].
  unfold is_infinity. rewrite FloatAxioms.eqb_spec, FloatAxioms.abs_spec.
  apply is_nan_spec in Hn. rewrite FloatAxioms.ltb_spec in H1, H2.
  destruct (in_range_finite _ Hn H1 H2) as (m & e & -> & _). reflexivity.
Qed.

Lemma sub_fee_not_nan (amount fee : float) :
  is_finite amount = true -> is_nan fee = false -> is_nan (amount - fee) = false.
Proof.
  intros Ha Hf. apply is_nan_spec. rewrite FloatAxioms.sub_spec.
  apply SFsub_not_nan; [apply is_finite_spec; exact Ha | apply is_nan_spec; exact Hf].
Qed.

(** An amount within the per-transaction bounds, less a fee above zero, is
    a finite number when it is at least 1. *)
Lemma sub_fee_is_finite (amount fee : float) :
  is_nan amount = false -> is_nan fee = false ->
  (amount <? 1) = false -> (10000 <? amount) = false ->
  (fee <=? 0) = false -> (amount - fee <? 1) = false ->
  is_finite (amount - fee) = true.
Proof.
  intros Na Nf H1 H2 Hfee Hafter.
  pose proof (sub_fee_not_nan amount fee (in_range_is_finite amount Na H1 H2) Nf) as Nr.
  unfold is_finite. rewrite Nr. cbn [orb negb].
  unfold is_infinity. rewrite FloatAxioms.eqb_spec, FloatAxioms.abs_spec.
  change (Prim2SF infinity) with (S754_infinity false).
  rewrite FloatAxioms.ltb_spec, Prim2SF_one in Hafter.
  assert (Hp : Prim2SF (amount - fee) <> S754_infinity false).
  { rewrite FloatAxioms.sub_spec. apply SFsub_in_range_not_pinf.
    - apply Prim2SF_valid.
    - apply is_nan_spec; exact Na.
    - rewrite <- FloatAxioms.ltb_spec. exact H1.
    - rewrite <- FloatAxioms.ltb_spec. exact H2.
    - rewrite <- Prim2SF_zero, <- FloatAxioms.leb_spec. exact Hfee. }
  unfold SFltb in Hafter.
  destruct (Prim2SF (amount - fee)) as [[|]|[|]| |[|] m e];
    cbn [SFcompare SFabs SFeqb] in *; try reflexivity; try discriminate; congruence.
Qed.

Lemma not_below_zero_at_least_zero (x : float) :
  is_nan x = false -> (x <? 0) = false -> at_least_zero x.
Proof.
  intros Hn H. unfold at_least_zero.
  rewrite (leb_negb_ltb 0 x eq_refl Hn), H. reflexivity.
Qed.

Lemma ltb_true_not_nan (x y : float) : (x <? y) = true -> is_nan y = false.
Proof.
  rewrite FloatAxioms.ltb_spec, is_nan_spec. unfold SFltb.
  intros H E. rewrite E in H. destruct (Prim2SF x); discriminate.
Qed.

End IEEE.

(** * Accounts: what each call changes *)

Section AddHistoryFrame.
Variables (now : time_t) (a : Account) (description : string) (amount : double).

Lemma add_history_owner :
  owner (account_add_history now a description amount) = owner a.
Proof. unfold account_add_history. guards; reflexivity. Qed.

Lemma add_history_balance :
  balance (account_add_history now a description amount) = balance a.
Proof. unfold account_add_history. guards; reflexivity. Qed.

Lemma add_history_investment_balance :
  investment_balance (account_add_history now a description amount)
  = investment_balance a.
Proof. unfold account_add_history. guards; reflexivity. Qed.

Lemma add_history_daily_total :
  daily_total (account_add_history now a description amount) = daily_total a.
Proof. unfold account_add_history. guards; reflexivity. Qed.

Lemma add_history_items :
  items (account_add_history now a description amount) = items a.
Proof. unfold account_add_history. guards; reflexivity. Qed.
End AddHistoryFrame.

#[local] Hint Rewrite add_history_owner add_history_balance
  add_history_investment_balance add_history_daily_total add_history_items : frame.

(** * Balances are never negative *)

Section NeverNegative.
Import IEEE.

Create HintDb nonneg.

#[local] Hint Resolve add_never_negative sub_never_negative mul_never_negative
  ge_one_never_negative positive_never_negative : nonneg.

Lemma account_reset_never_negative (o : option string) (b : double) :
  balances_never_negative (account_reset o b).
Proof.
  unfold balances_never_negative, never_negative, account_reset; cbn [balance investment_balance].
  split; [|reflexivity].
  destruct (b <? 0) eqn:E; [reflexivity | exact E].
Qed.

Lemma service_deposit_never_negative service now amount a :
  balances_never_negative a ->
  balances_never_negative (snd (service_deposit service now amount a)).
Proof.
  unfold balances_never_negative, never_negative, service_deposit. intros [Hb Hi].
  unfold_gates. guards; frame; auto with nonneg.
Qed.

Lemma service_withdraw_never_negative service now amount a :
  balances_never_negative a ->
  balances_never_negative (snd (service_withdraw service now amount a)).
Proof.
  unfold balances_never_negative, never_negative, service_withdraw. intros [Hb Hi].
  unfold_gates. guards; frame; auto with nonneg.
Qed.

Lemma service_invest_never_negative service now amount a :
  balances_never_negative a ->
  balances_never_negative (snd (service_invest service now amount a)).
Proof.
  unfold balances_never_negative, never_negative, service_invest. intros [Hb Hi].
  guards; frame; auto with nonneg.
Qed.

Lemma service_apply_investment_yield_never_negative service now a :
  balances_never_negative a ->
  balances_never_negative (service_apply_investment_yield service now a).
Proof.
  unfold balances_never_negative, never_negative, service_apply_investment_yield.
  intros [Hb Hi].
  destruct (investment_balance a <=? 0) eqn:E1; cbn [orb]; [auto|].
  destruct (investment_rate service <=? 0) eqn:E2; [auto|].
  frame; auto with nonneg.
Qed.

Lemma service_withdraw_investment_never_negative service now amount a :
  balances_never_negative a ->
  balances_never_negative (snd (service_withdraw_investment service now amount a)).
Proof.
  unfold balances_never_negative, never_negative, service_withdraw_investment.
  intros [Hb Hi].
  guards; frame; auto with nonneg.
Qed.
End NeverNegative.

(** * On numbers, balances stay at least zero *)

Section AtLeastZero.
Import IEEE.

Create HintDb geq0.

#[local] Hint Resolve add_at_least_zero sub_at_least_zero positive_at_least_zero
  mul_at_least_zero at_least_one_at_least_zero in_range_is_finite sub_fee_not_nan
  sub_fee_is_finite at_least_zero_not_nan is_finite_not_nan : geq0.

Lemma account_reset_at_least_zero (o : option string) (b : double) :
  is_nan b = false -> balances_at_least_zero (account_reset o b).
Proof.
  intros Hn. unfold balances_at_least_zero, account_reset; cbn [balance investment_balance].
  split; [|reflexivity].
  destruct (b <? 0) eqn:E; [reflexivity|].
  apply not_below_zero_at_least_zero; assumption.
Qed.

Lemma service_deposit_at_least_zero service now amount a :
  is_nan amount = false -> is_nan (deposit_fee service) = false ->
  balances_at_least_zero a ->
  balances_at_least_zero (snd (service_deposit service now amount a)).
Proof.
  unfold balances_at_least_zero, service_deposit. intros Na Nf [Hb Hi].
  unfold_gates. guards; frame; auto 6 with geq0. 
Qed.

Lemma service_withdraw_at_least_zero service now amount a :
  is_nan amount = false -> is_nan (withdrawal_fee service) = false ->
  balances_at_least_zero a ->
  balances_at_least_zero (snd (service_withdraw service now amount a)).
Proof.
  unfold balances_at_least_zero, service_withdraw. intros Na Nf [Hb Hi].
  unfold_gates. guards; frame; auto 6 with geq0.
Qed.

Lemma service_invest_at_least_zero service now amount a :
  is_finite amount = true ->
  balances_at_least_zero a ->
  balances_at_least_zero (snd (service_invest service now amount a)).
Proof.
  unfold balances_at_least_zero, service_invest. intros Fa [Hb Hi].
  guards; frame; auto 6 with geq0.
Qed.

Lemma service_apply_investment_yield_at_least_zero service now a :
  is_nan (investment_rate service) = false ->
  balances_at_least_zero a ->
  balances_at_least_zero (service_apply_investment_yield service now a).
Proof.
  unfold balances_at_least_zero, service_apply_investment_yield. intros Nr [Hb Hi].
  destruct (investment_balance a <=? 0) eqn:E1; cbn [orb]; [auto|].
  destruct (investment_rate service <=? 0) eqn:E2; [auto|].
  frame; auto 6 with geq0.
Qed.

Lemma service_withdraw_investment_at_least_zero service now amount a :
  is_finite amount = true ->
  balances_at_least_zero a ->
  balances_at_least_zero (snd (service_withdraw_investment service now amount a)).
Proof.
  unfold balances_at_least_zero, service_withdraw_investment. intros Fa [Hb Hi].
  guards; frame; auto 6 with geq0.
Qed.
End AtLeastZero.

(** * Item calls leave the currency fields alone *)

Section ItemFrame.
Variables (now : time_t) (name : option string) (quantity : size_t) (a : Account).

Lemma service_store_item_currency :
  let a' := snd (service_store_item now name quantity a) in
  balance a' = balance a /\ investment_balance a' = investment_balance a
  /\ daily_total a' = daily_total a /\ owner a' = owner a.
Proof.
  unfold service_store_item.
  destruct name as [item|]; [|cbn; auto].
  destruct (account_find_item a (Some item)); guards; frame; auto.
Qed.

Lemma service_retrieve_item_currency :
  let a' := snd (service_retrieve_item now name quantity a) in
  balance a' = balance a /\ investment_balance a' = investment_balance a
  /\ daily_total a' = daily_total a /\ owner a' = owner a.
Proof.
  unfold service_retrieve_item.
  destruct name as [item|]; [|cbn; auto].
  destruct (account_find_item a (Some item)); guards; frame; auto.
Qed.
End ItemFrame.

(** * Retrieving the last units of an item removes its slot *)

Lemma array_get_middle (pre rest : list Item) (x : Item) :
  array_get (pre ++ x :: rest) (List.length pre) = x.
Proof. unfold array_get. apply nth_middle. Qed.

Lemma array_set_middle {A : Type} (pre rest : list A) (x y : A) :
  array_set (pre ++ x :: rest) (List.length pre) y = pre ++ y :: rest.
Proof.
  induction pre as [|z pre IH]; cbn [array_set app List.length]; [reflexivity|].
  rewrite IH. reflexivity.
Qed.

Lemma last_default {A : Type} (l : list A) (a d d' : A) :
  last (a :: l) d = last (a :: l) d'.
Proof.
  revert a. induction l as [|b l IH]; intros a; [reflexivity|].
  change (last (b :: l) d = last (b :: l) d'). apply IH.
Qed.

(** The loop of [service_retrieve_item], given at least as many iterations
    as there are slots after [index], moves each of them down by one and
    leaves the last slot in place. *)
Lemma shift_items_spec (rest : list Item) :
  forall (fuel : nat) (pre : list Item) (x : Item),
    (List.length rest <= fuel)%nat ->
    shift_items fuel (List.length pre) (pre ++ x :: rest)
    = pre ++ rest ++ [last rest x].
Proof.
  induction rest as [|y rest IH]; intros fuel pre x Hfuel.
  - assert (Hend : (List.length pre + 1 <? List.length (pre ++ [x]))%nat = false).
    { apply Nat.ltb_ge. rewrite length_app. cbn [List.length]. lia. }
    destruct fuel; cbn [shift_items]; [reflexivity|]. rewrite Hend. reflexivity.
  - destruct fuel as [|fuel]; [cbn [List.length] in Hfuel; lia|].
    cbn [shift_items].
    assert (Hmore : (List.length pre + 1 <? List.length (pre ++ x :: y :: rest))%nat = true).
    { apply Nat.ltb_lt. rewrite length_app. cbn [List.length]. lia. }
    rewrite Hmore.
    assert (Hnext : array_get (pre ++ x :: y :: rest) (List.length pre + 1) = y).
    { replace (pre ++ x :: y :: rest) with ((pre ++ [x]) ++ y :: rest)
        by (rewrite <- app_assoc; reflexivity).
      replace (List.length pre + 1)%nat with (List.length (pre ++ [x]))
        by (rewrite length_app; reflexivity).
      apply array_get_middle. }
    rewrite Hnext, array_set_middle.
    replace (pre ++ y :: y :: rest) with ((pre ++ [y]) ++ y :: rest)
      by (rewrite <- app_assoc; reflexivity).
    replace (S (List.length pre)) with (List.length (pre ++ [y]))
      by (rewrite length_app; cbn [List.length]; lia).
    rewrite IH by (cbn [List.length] in Hfuel; lia).
    rewrite <- app_assoc. cbn [app]. do 3 f_equal.
    destruct rest as [|z rest]; [reflexivity|].
    change (last (y :: z :: rest) x) with (last (z :: rest) x).
    f_equal. apply last_default.
Qed.

Lemma shift_items_removes (pre rest : list Item) (x : Item) :
  removelast (shift_items (List.length (pre ++ x :: rest)) (List.length pre)
                (pre ++ x :: rest))
  = pre ++ rest.
Proof.
  rewrite shift_items_spec by (rewrite length_app; cbn [List.length]; lia).
  rewrite app_assoc. apply removelast_last.
Qed.

Lemma find_item_from_found (slots : list Item) (name : string) :
  forall i index, find_item_from i slots name = Some index ->
    exists pre x rest,
      slots = pre ++ x :: rest /\ index = (i + List.length pre)%nat
      /\ item_name x = name.
Proof.
  induction slots as [|slot slots IH]; intros i index H; cbn [find_item_from] in H.
  - discriminate.
  - destruct (String.eqb_spec (item_name slot) name) as [E|E].
    + injection H as <-. exists [], slot, slots. cbn [List.length app].
      repeat split; [lia | exact E].
    + destruct (IH _ _ H) as (pre & x & rest & -> & -> & Hx).
      exists (slot :: pre), x, rest. cbn [List.length app].
      repeat split; [lia | exact Hx].
Qed.

(** Retrieving all that is stored of an item removes its slot; the slots
    before and after it keep their order.  Retrieving less leaves the slot in
    place with the remainder. *)
Lemma service_retrieve_item_slots (now : time_t) (item : string) (quantity : size_t)
    (a : Account) :
  fst (service_retrieve_item now (Some item) quantity a) = OK ->
  exists pre x rest,
    items a = pre ++ x :: rest /\ item_name x = item
    /\ (quantity <= item_quantity x)%N
    /\ items (snd (service_retrieve_item now (Some item) quantity a))
       = if (size_sub (item_quantity x) quantity =? 0)%N then pre ++ rest
         else pre ++ mkItem (item_name x) (size_sub (item_quantity x) quantity) :: rest.
Proof.
  unfold service_retrieve_item, account_find_item.
  destruct (quantity =? 0)%N; [discriminate|].
  destruct (find_item_from 0 (items a) item) as [index|] eqn:Hfind; [|discriminate].
  destruct (find_item_from_found _ _ _ _ Hfind) as (pre & x & rest & Hitems & -> & Hname).
  cbn [Nat.add]. rewrite Hitems, array_get_middle.
  destruct (item_quantity x <? quantity)%N eqn:Hq; [discriminate|].
  intros _. exists pre, x, rest.
  split; [reflexivity|]. split; [exact Hname|].
  split; [apply N.ltb_ge; exact Hq|].
  frame. rewrite array_set_middle, array_get_middle. cbn [item_quantity].
  destruct (size_sub (item_quantity x) quantity =? 0)%N; cbn [snd]; frame; [|reflexivity].
  unfold item_count. frame.
  apply shift_items_removes.
Qed.

(** * Heaps *)

Lemma heap_set_same (h : Heap) (p : Ptr) (a : Account) : heap_set h p a p = a.
Proof. unfold heap_set. rewrite Nat.eqb_refl. reflexivity. Qed.

Lemma heap_set_other (h : Heap) (p q : Ptr) (a : Account) :
  q <> p -> heap_set h p a q = h q.
Proof.
  intros H. unfold heap_set. destruct (Nat.eqb_spec q p); [contradiction | reflexivity].
Qed.

Lemma heap_set_pointwise (P : Account -> Prop) (h : Heap) (p : Ptr) (a : Account) :
  (forall q, P (h q)) -> P a -> forall q, P (heap_set h p a q).
Proof.
  intros Hh Ha q. unfold heap_set. destruct (Nat.eqb q p); auto.
Qed.

Lemma on_account_pointwise (P : Account -> Prop) (f : Account -> Result * Account)
    (h : Heap) (p : Ptr) :
  (forall a, P a -> P (snd (f a))) ->
  (forall q, P (h q)) -> forall q, P (snd (on_account p f h) q).
Proof.
  intros Hf Hh. unfold on_account.
  destruct (f (h p)) as [r a'] eqn:E. cbn [snd].
  apply heap_set_pointwise; [exact Hh|].
  specialize (Hf (h p) (Hh p)). rewrite E in Hf. exact Hf.
Qed.

(** A property of single accounts that the five writes of a successful
    transfer preserve is preserved by [service_transfer], also when the two
    pointers are equal. *)
Lemma service_transfer_pointwise (P : Account -> Prop)
    (service : BankingService) (now_from now_to : time_t) (from to : Ptr)
    (amount : double) (h : Heap) :
  (forall a v, P a -> P (set_daily_total a v)) ->
  (forall now a description x, P a -> P (account_add_history now a description x)) ->
  (forall a, P a ->
     (amount <? 1.0) = false -> (10000.0 <? amount) = false ->
     (balance a <? amount) = false ->
     P (set_balance a (balance a - amount))) ->
  (forall a credited, P a ->
     (amount <? 1.0) = false -> (10000.0 <? amount) = false ->
     (credited <? 1.0) = false ->
     credited = amount
     \/ ((0 <? transfer_fee service) = true /\ credited = amount - transfer_fee service) ->
     P (set_balance a (balance a + credited))) ->
  (forall q, P (h q)) ->
  forall q, P (snd (service_transfer service now_from now_to from to amount h) q).
Proof.
  intros Hdaily Hhistory Hdebit Hcredit Hh. unfold service_transfer. unfold_gates.
  destruct (amount <? 1) eqn:Emin; [exact Hh|].
  destruct (10000 <? amount) eqn:Emax; [exact Hh|].
  destruct (_ <? daily_total (h from) + amount) eqn:Eday; [exact Hh|].
  destruct (balance (h from) <? amount) eqn:Efunds; [exact Hh|].
  assert (Hcommit : forall credited,
            (credited <? 1) = false ->
            credited = amount
            \/ ((0 <? transfer_fee service) = true
                /\ credited = amount - transfer_fee service) ->
            forall q, P
              (snd (match Some credited with
                    | None => (Err (ErrTransferFee amount), h)
                    | Some credited =>
                      let h := heap_set h from
                                 (set_balance (h from) (balance (h from) - amount)) in
                      let h := heap_set h to
                                 (set_balance (h to) (balance (h to) + credited)) in
                      let h := heap_set h from
                                 (set_daily_total (h from)
                                    (daily_total (h from) + amount)) in
                      let h := heap_set h from
                                 (account_add_history now_from (h from)
                                    "Transfer Sent" (- amount)) in
                      let h := heap_set h to
                                 (account_add_history now_to (h to)
                                    "Transfer Received" credited) in
                      (OK, h)
                    end) q)).
  { intros credited Hc Hwhich. cbv zeta. cbn [snd].
    set (h1 := heap_set h from _).
    assert (H1 : forall q, P (h1 q)).
    { apply heap_set_pointwise; [exact Hh|]. apply Hdebit; auto. }
    set (h2 := heap_set h1 to _).
    assert (H2 : forall q, P (h2 q)).
    { apply heap_set_pointwise; [exact H1|]. apply Hcredit; auto. }
    set (h3 := heap_set h2 from _).
    assert (H3 : forall q, P (h3 q)).
    { apply heap_set_pointwise; [exact H2|]. apply Hdaily, H2. }
    set (h4 := heap_set h3 from _).
    assert (H4 : forall q, P (h4 q)).
    { apply heap_set_pointwise; [exact H3|]. apply Hhistory, H3. }
    apply heap_set_pointwise; [exact H4|]. apply Hhistory, H4. }
  destruct (0 <? transfer_fee service) eqn:Efee.
  - destruct (amount - transfer_fee service <? 1) eqn:Eafter; [exact Hh|].
    apply Hcommit; [exact Eafter | right; split; reflexivity].
  - apply Hcommit; [exact Emin | left; reflexivity].
Qed.

Section TransferInvariants.
Import IEEE.

Lemma set_daily_total_never_negative a v :
  balances_never_negative a -> balances_never_negative (set_daily_total a v).
Proof. intros H. exact H. Qed.

Lemma add_history_never_negative now a description amount :
  balances_never_negative a ->
  balances_never_negative (account_add_history now a description amount).
Proof. unfold balances_never_negative. frame. auto. Qed.

Lemma service_transfer_never_negative service now_from now_to from to amount h :
  (forall q, balances_never_negative (h q)) ->
  forall q, balances_never_negative
              (snd (service_transfer service now_from now_to from to amount h) q).
Proof.
  apply service_transfer_pointwise.
  - exact set_daily_total_never_negative.
  - exact add_history_never_negative.
  - intros a [Hb Hi] _ _ Hfunds. split; [|exact Hi].
    apply sub_never_negative. exact Hfunds.
  - intros a credited [Hb Hi] _ _ Hc _. split; [|exact Hi].
    apply add_never_negative; [exact Hb | apply ge_one_never_negative; exact Hc].
Qed.

Lemma set_daily_total_at_least_zero a v :
  balances_at_least_zero a -> balances_at_least_zero (set_daily_total a v).
Proof. intros H. exact H. Qed.

Lemma add_history_at_least_zero now a description amount :
  balances_at_least_zero a ->
  balances_at_least_zero (account_add_history now a description amount).
Proof. unfold balances_at_least_zero. frame. auto. Qed.

Lemma service_transfer_at_least_zero service now_from now_to from to amount h :
  is_nan amount = false ->
  (forall q, balances_at_least_zero (h q)) ->
  forall q, balances_at_least_zero
              (snd (service_transfer service now_from now_to from to amount h) q).
Proof.
  intros Na. apply service_transfer_pointwise.
  - exact set_daily_total_at_least_zero.
  - exact add_history_at_least_zero.
  - intros a [Hb Hi] Hmin Hmax Hfunds. split; [|exact Hi].
    cbn [balance set_balance].
    apply sub_at_least_zero; [exact Hb | | exact Hfunds].
    apply in_range_is_finite; assumption.
  - intros a credited [Hb Hi] Hmin Hmax Hc Hwhich. split; [|exact Hi].
    cbn [balance set_balance].
    apply add_at_least_zero; [exact Hb|].
    apply at_least_one_at_least_zero; [|exact Hc].
    destruct Hwhich as [->|[Hfee ->]]; [exact Na|].
    apply sub_fee_not_nan; [apply in_range_is_finite; assumption|].
    exact (ltb_true_not_nan _ _ Hfee).
Qed.
End TransferInvariants.

Lemma exec_never_negative (op : Operation) (h : Heap) :
  (forall q, balances_never_negative (h q)) ->
  forall q, balances_never_negative (snd (exec op h) q).
Proof.
  intros Hh. destruct op; cbn [exec snd].
  - apply on_account_pointwise; [|exact Hh].
    intros a. apply service_deposit_never_negative.
  - apply on_account_pointwise; [|exact Hh].
    intros a. apply service_withdraw_never_negative.
  - apply service_transfer_never_negative; exact Hh.
  - apply on_account_pointwise; [|exact Hh].
    intros a. apply service_invest_never_negative.
  - apply heap_set_pointwise; [exact Hh|].
    apply service_apply_investment_yield_never_negative, Hh.
  - apply on_account_pointwise; [|exact Hh].
    intros a. apply service_withdraw_investment_never_negative.
  - apply on_account_pointwise; [|exact Hh].
    intros a [Hb Hi].
    destruct (service_store_item_currency now name quantity a) as (Eb & Ei & _).
    split; unfold never_negative; [rewrite Eb | rewrite Ei]; assumption.
  - apply on_account_pointwise; [|exact Hh].
    intros a [Hb Hi].
    destruct (service_retrieve_item_currency now name quantity a) as (Eb & Ei & _).
    split; unfold never_negative; [rewrite Eb | rewrite Ei]; assumption.
  - apply heap_set_pointwise; [exact Hh|].
    apply set_daily_total_never_negative, Hh.
Qed.

Lemma run_app (ops1 ops2 : list Operation) (h : Heap) :
  run (ops1 ++ ops2) h
  = match run ops1 h with
    | Some h1 => run ops2 h1
    | None => None
    end.
Proof.
  revert h. induction ops1 as [|op ops1 IH]; intros h; cbn [run app]; [reflexivity|].
  destruct (exec op h) as [[|e] h1]; [apply IH | reflexivity].
Qed.

Lemma run_never_negative (ops : list Operation) :
  forall h h', (forall q, balances_never_negative (h q)) ->
               run ops h = Some h' ->
               forall q, balances_never_negative (h' q).
Proof.
  induction ops as [|op ops IH]; intros h h' Hh Hrun; cbn [run] in Hrun.
  - injection Hrun as <-. exact Hh.
  - pose proof (exec_never_negative op h Hh) as Hstep.
    destruct (exec op h) as [[|e] h1]; [|discriminate].
    exact (IH h1 h' Hstep Hrun).
Qed.

Lemma fresh_heap_never_negative (h : Heap) :
  fresh_heap h -> forall q, balances_never_negative (h q).
Proof.
  intros Hfresh q. destruct (Hfresh q) as (o & b & ->).
  apply account_reset_never_negative.
Qed.

Lemma never_negative_iff (x : double) :
  never_negative x <-> at_least_zero x \/ is_nan x = true.
Proof.
  unfold never_negative, at_least_zero.
  destruct (is_nan x) eqn:En.
  - split; [auto|intros _].
    rewrite FloatAxioms.ltb_spec. unfold SFltb.
    assert (Prim2SF x = S754_nan) as ->.
    { destruct (Prim2SF x) eqn:E; try reflexivity; exfalso;
        assert (is_nan x = false) by (apply IEEE.is_nan_spec; rewrite E; discriminate);
        congruence. }
    reflexivity.
  - rewrite (IEEE.ltb_negb_leb x 0 En eq_refl).
    destruct (0 <=? x); cbn [negb]; split; auto; intros [H|H]; discriminate.
Qed.

(** What holds of the balances for every input.  Start from accounts that
    [account_reset] created and apply any finite sequence of calls that all
    succeed ([service_deposit],
    [service_withdraw], [service_transfer], [service_invest],
    [service_apply_investment_yield], [service_withdraw_investment],
    [service_store_item], [service_retrieve_item], [service_reset_daily], with
    any arguments).  After each step, that is after every prefix [calls] of
    the sequence, the balance and the investment balance of every account are
    never negative: each is [>= 0] or is NaN. *)
Theorem balances_stay_non_negative_or_nan
    (h h' : Heap) (calls rest : list Operation) :
  fresh_heap h ->
  run (calls ++ rest) h = Some h' ->
  exists h1, run calls h = Some h1 /\
    forall p,
      (at_least_zero (balance (h1 p)) \/ is_nan (balance (h1 p)) = true) /\
      (at_least_zero (investment_balance (h1 p))
       \/ is_nan (investment_balance (h1 p)) = true).
Proof.
  intros Hfresh Hrun. rewrite run_app in Hrun.
  destruct (run calls h) as [h1|] eqn:E1; [|discriminate].
  exists h1. split; [reflexivity|]. intros p.
  destruct (run_never_negative calls h h1 (fresh_heap_never_negative h Hfresh) E1 p)
    as [Hb Hi].
  split; apply never_negative_iff; assumption.
Qed.

Lemma heroes_fresh : fresh_heap heroes.
Proof. intros p. exists (Some "Hero"), 500.0. reflexivity. Qed.

(** The same on the calls of the demonstration [main]. *)
Lemma balances_stay_non_negative_or_nan_witness :
  exists h1, run demo_calls heroes = Some h1 /\
    forall p,
      (at_least_zero (balance (h1 p)) \/ is_nan (balance (h1 p)) = true) /\
      (at_least_zero (investment_balance (h1 p))
       \/ is_nan (investment_balance (h1 p)) = true).
Proof.
  apply (balances_stay_non_negative_or_nan heroes demo_final demo_calls []).
  - exact heroes_fresh.
  - vm_compute. reflexivity.
Defined.

(** C1 as stated fails.  A fresh account accepts a deposit of NaN: neither
    [NaN < 1.0] nor [NaN > 10000.0] holds, so [enforce_amount] lets it
    through, [NaN > limit] is false as well, and a fee of 0 is not applied.
    The call succeeds and the balance is NaN afterwards, for which
    [balance >= 0] is false. *)
Lemma nan_deposit_breaks_balance_at_least_zero :
  fresh_heap heroes /\
  exists h', run [Deposit free_service 0%nat nan 1%Z] heroes = Some h' /\
             ~ at_least_zero (balance (h' 0%nat)).
Proof.
  split; [exact heroes_fresh|].
  exists after_nan_deposit. split; [vm_compute; reflexivity|].
  unfold at_least_zero. vm_compute. discriminate.
Qed.

Lemma exec_at_least_zero (op : Operation) (h : Heap) :
  numeric_call op ->
  (forall q, balances_at_least_zero (h q)) ->
  forall q, balances_at_least_zero (snd (exec op h) q).
Proof.
  intros Hop Hh.
  destruct op as [service p amount now | service p amount now
                 | service from to amount now_from now_to
                 | service p amount now | service p now | service p amount now
                 | p name quantity now | p name quantity now | p];
    cbn [exec snd numeric_call] in *.
  - destruct Hop as [Na Nf]. apply on_account_pointwise; [|exact Hh].
    intros a. apply service_deposit_at_least_zero; assumption.
  - destruct Hop as [Na Nf]. apply on_account_pointwise; [|exact Hh].
    intros a. apply service_withdraw_at_least_zero; assumption.
  - apply service_transfer_at_least_zero; assumption.
  - apply on_account_pointwise; [|exact Hh].
    intros a. apply service_invest_at_least_zero; assumption.
  - apply heap_set_pointwise; [exact Hh|].
    apply service_apply_investment_yield_at_least_zero; [exact Hop | apply Hh].
  - apply on_account_pointwise; [|exact Hh].
    intros a. apply service_withdraw_investment_at_least_zero; assumption.
  - apply on_account_pointwise; [|exact Hh].
    intros a [Hb Hi].
    destruct (service_store_item_currency now name quantity a) as (Eb & Ei & _).
    split; unfold at_least_zero; [rewrite Eb | rewrite Ei]; assumption.
  - apply on_account_pointwise; [|exact Hh].
    intros a [Hb Hi].
    destruct (service_retrieve_item_currency now name quantity a) as (Eb & Ei & _).
    split; unfold at_least_zero; [rewrite Eb | rewrite Ei]; assumption.
  - apply heap_set_pointwise; [exact Hh|].
    apply set_daily_total_at_least_zero, Hh.
Qed.

Lemma run_at_least_zero (ops : list Operation) :
  forall h h', Forall numeric_call ops ->
               (forall q, balances_at_least_zero (h q)) ->
               run ops h = Some h' ->
               forall q, balances_at_least_zero (h' q).
Proof.
  induction ops as [|op ops IH]; intros h h' Hops Hh Hrun; cbn [run] in Hrun.
  - injection Hrun as <-. exact Hh.
  - inversion Hops as [|? ? Hop Hrest]; subst.
    pose proof (exec_at_least_zero op h Hop Hh) as Hstep.
    destruct (exec op h) as [[|e] h1]; [|discriminate].
    exact (IH h1 h' Hrest Hstep Hrun).
Qed.

(** C1 (as amended).  Start from accounts that [account_reset] created with
    initial balances that are not NaN, and apply any finite sequence of
    successful calls ([service_deposit], [service_withdraw],
    [service_transfer], [service_invest], [service_apply_investment_yield],
    [service_withdraw_investment], [service_store_item],
    [service_retrieve_item], [service_reset_daily]) whose arguments are
    numbers: no amount, fee or rate that a call reads is NaN, and the amounts
    invested or withdrawn from the investment are finite ([numeric_call]).
    After each step, that is after every prefix [calls] of the sequence, the
    balance and the investment balance of every account are [>= 0]. *)
Theorem balances_stay_at_least_zero_on_numbers
    (h h' : Heap) (calls rest : list Operation) :
  numeric_fresh_heap h ->
  Forall numeric_call (calls ++ rest) ->
  run (calls ++ rest) h = Some h' ->
  exists h1, run calls h = Some h1 /\
    forall p, at_least_zero (balance (h1 p))
              /\ at_least_zero (investment_balance (h1 p)).
Proof.
  intros Hfresh Hops Hrun. rewrite run_app in Hrun.
  destruct (run calls h) as [h1|] eqn:E1; [|discriminate].
  exists h1. split; [reflexivity|].
  apply (run_at_least_zero calls h h1).
  - apply Forall_app in Hops. apply Hops.
  - intros q. destruct (Hfresh q) as (o & b & Hb & ->).
    apply account_reset_at_least_zero. exact Hb.
  - exact E1.
Qed.

Lemma heroes_numeric_fresh : numeric_fresh_heap heroes.
Proof. intros p. exists (Some "Hero"), 500.0. split; reflexivity. Qed.

(** The amended C1 on the calls of the demonstration [main]. *)
Lemma balances_stay_at_least_zero_on_numbers_witness :
  exists h1, run demo_calls heroes = Some h1 /\
    forall p, at_least_zero (balance (h1 p))
              /\ at_least_zero (investment_balance (h1 p)).
Proof.
  apply (balances_stay_at_least_zero_on_numbers heroes demo_final demo_calls []).
  - exact heroes_numeric_fresh.
  - rewrite app_nil_r. unfold demo_calls.
    repeat (apply Forall_cons; [vm_compute; auto|]). apply Forall_nil.
  - vm_compute. reflexivity.
Defined.

(** Each condition of [numeric_call] and of [numeric_fresh_heap] is needed:
    an initial balance, a fee, a rate or an amount that is NaN, or an infinite
    amount invested from an infinite balance, leaves a balance that is NaN
    behind a call that succeeds. *)
Lemma non_numeric_arguments_reach_the_balances :
  is_nan (balance (account_reset None nan)) = true
  /\ (let r := service_deposit (service_init None nan 0 0 0 0) 1%Z 100 hero in
      fst r = OK /\ is_nan (balance (snd r)) = true)
  /\ (let r := service_withdraw free_service 1%Z nan hero in
      fst r = OK /\ is_nan (balance (snd r)) = true)
  /\ (let r := service_withdraw (service_init None 0 nan 0 0 0) 1%Z 100 hero in
      fst r = OK /\ is_nan (balance (snd r)) = true)
  /\ (let r := service_transfer free_service 1%Z 2%Z 0%nat 1%nat nan heroes in
      fst r = OK /\ is_nan (balance (snd r 0%nat)) = true
      /\ is_nan (balance (snd r 1%nat)) = true)
  /\ (let r := service_invest free_service 1%Z infinity (account_reset None infinity) in
      fst r = OK /\ is_nan (balance (snd r)) = true)
  /\ (let a := snd (service_invest free_service 1%Z 100 hero) in
      is_nan (investment_balance
                (service_apply_investment_yield (service_init None 0 0 0 nan 0) 2%Z a))
      = true)
  /\ (let r := service_withdraw_investment free_service 1%Z nan hero in
      fst r = OK /\ is_nan (investment_balance (snd r)) = true).
Proof. cbv zeta. repeat split; vm_compute; reflexivity. Qed.

(** * A call that fails changes nothing *)

Lemma array_get_last (slots : list Item) (slot : Item) :
  array_get (slots ++ [slot]) (List.length slots) = slot.
Proof. unfold array_get. apply nth_middle. Qed.

Lemma array_set_last {A : Type} (arr : list A) (x y : A) :
  array_set (arr ++ [x]) (List.length arr) y = arr ++ [y].
Proof.
  induction arr as [|z arr IH]; cbn [array_set app List.length]; [reflexivity|].
  rewrite IH. reflexivity.
Qed.

Lemma size_add_zero (q : size_t) :
  (q <= BANK_MAX_ITEM_QUANTITY)%N -> size_add 0%N q = q.
Proof.
  unfold size_add, SIZE_MODULUS, BANK_MAX_ITEM_QUANTITY. intros H.
  rewrite N.add_0_l. apply N.mod_small.
  apply N.le_lt_trans with (1 := H). reflexivity.
Qed.

(** The slot a brand-new item gets holds 0, so the total-quantity test that
    follows the allocation compares the requested quantity alone. *)
Lemma new_slot_total (a : Account) (item : string) (quantity : size_t) :
  (BANK_MAX_ITEM_QUANTITY <? quantity)%N = false ->
  size_add
    (item_quantity
       (array_get (items a ++ [mkItem (snprintf_s MAX_ITEM_NAME item) 0%N])
          (item_count a)))
    quantity = quantity.
Proof.
  intros H. unfold item_count. rewrite array_get_last. cbn [item_quantity].
  apply size_add_zero. apply N.ltb_ge. exact H.
Qed.

Section FailureIsAtomic.
Variables (service : BankingService) (now : time_t).

Lemma service_deposit_failure amount a e :
  fst (service_deposit service now amount a) = Err e ->
  snd (service_deposit service now amount a) = a.
Proof.
  unfold service_deposit.
  destruct (enforce_amount amount); [|reflexivity].
  destruct (enforce_daily service a amount); [|reflexivity].
  destruct (apply_fee service amount (deposit_fee service)); [|reflexivity].
  cbn [fst]. discriminate.
Qed.

Lemma service_withdraw_failure amount a e :
  fst (service_withdraw service now amount a) = Err e ->
  snd (service_withdraw service now amount a) = a.
Proof.
  unfold service_withdraw.
  destruct (enforce_amount amount); [|reflexivity].
  destruct (enforce_daily service a amount); [|reflexivity].
  destruct (apply_fee service amount (withdrawal_fee service)); [|reflexivity].
  destruct (balance a <? _); [reflexivity|].
  cbn [fst]. discriminate.
Qed.

Lemma service_invest_failure amount a e :
  fst (service_invest service now amount a) = Err e ->
  snd (service_invest service now amount a) = a.
Proof.
  unfold service_invest. guards; cbn [fst snd]; [reflexivity | reflexivity | discriminate].
Qed.

Lemma service_withdraw_investment_failure amount a e :
  fst (service_withdraw_investment service now amount a) = Err e ->
  snd (service_withdraw_investment service now amount a) = a.
Proof.
  unfold service_withdraw_investment.
  guards; cbn [fst snd]; [reflexivity | reflexivity | discriminate].
Qed.

Lemma service_store_item_failure name quantity a e :
  fst (service_store_item now name quantity a) = Err e ->
  snd (service_store_item now name quantity a) = a.
Proof.
  unfold service_store_item.
  destruct name as [item|]; [|reflexivity].
  destruct (quantity =? 0)%N; [reflexivity|].
  destruct (BANK_MAX_ITEM_QUANTITY <? quantity)%N eqn:Hq; [reflexivity|].
  destruct (account_find_item a (Some item)) as [index|].
  - destruct (BANK_MAX_ITEM_QUANTITY <? size_add _ _)%N; [reflexivity|].
    cbn [fst]. discriminate.
  - destruct (MAX_ITEMS <=? item_count a)%nat; [reflexivity|].
    cbn [items set_items].
    rewrite (new_slot_total a item quantity Hq), Hq.
    cbn [fst]. discriminate.
Qed.

Lemma service_retrieve_item_failure name quantity a e :
  fst (service_retrieve_item now name quantity a) = Err e ->
  snd (service_retrieve_item now name quantity a) = a.
Proof.
  unfold service_retrieve_item.
  destruct name as [item|]; [|reflexivity].
  destruct (quantity =? 0)%N; [reflexivity|].
  destruct (account_find_item a (Some item)) as [index|]; [|reflexivity].
  destruct (_ <? quantity)%N; [reflexivity|].
  destruct (_ =? 0)%N; cbn [fst]; discriminate.
Qed.

Lemma service_transfer_failure now_to from to amount h e :
  fst (service_transfer service now now_to from to amount h) = Err e ->
  snd (service_transfer service now now_to from to amount h) = h.
Proof.
  unfold service_transfer.
  destruct (enforce_amount amount); [|reflexivity].
  destruct (enforce_daily service (h from) amount); [|reflexivity].
  destruct (balance (h from) <? amount); [reflexivity|].
  destruct (0 <? transfer_fee service); [destruct (_ <? BANK_MIN_TRANSACTION)|];
    cbn [fst snd]; try reflexivity; discriminate.
Qed.
End FailureIsAtomic.

Lemma on_account_failure (p : Ptr) (f : Account -> Result * Account) (h : Heap) :
  (forall a e, fst (f a) = Err e -> snd (f a) = a) ->
  forall e h', on_account p f h = (Err e, h') -> forall q, h' q = h q.
Proof.
  intros Hf e h' H q. unfold on_account in H.
  specialize (Hf (h p) e).
  destruct (f (h p)) as [r a']. injection H as -> <-.
  cbn [fst snd] in Hf. rewrite (Hf eq_refl).
  unfold heap_set. destruct (Nat.eqb_spec q p) as [->|]; reflexivity.
Qed.

Lemma vault_full_store (now : time_t) (item : string) (quantity : size_t) (a : Account) :
  account_find_item a (Some item) = None ->
  (MAX_ITEMS <= item_count a)%nat ->
  (exists e, service_store_item now (Some item) quantity a = (Err e, a)) /\
  (quantity <> 0%N -> (quantity <= BANK_MAX_ITEM_QUANTITY)%N ->
   service_store_item now (Some item) quantity a = (Err ErrVaultFull, a)).
Proof.
  intros Hnew Hfull. unfold service_store_item. rewrite Hnew.
  apply Nat.leb_le in Hfull. rewrite Hfull.
  split.
  - destruct (quantity =? 0)%N; [eauto|]. destruct (_ <? quantity)%N; eauto.
  - intros H0 H999. apply N.eqb_neq in H0. apply N.ltb_ge in H999.
    rewrite H0, H999. reflexivity.
Qed.

(** C3. Every call of [service_deposit], [service_withdraw],
    [service_transfer] (also with [from == to]), [service_invest],
    [service_withdraw_investment], [service_store_item] and
    [service_retrieve_item] that returns failure leaves every account exactly
    as it was: owner, balance, investment balance, daily total, items (so
    [item_count]) and history.  In particular storing a new item into a vault
    that already holds [MAX_ITEMS] items fails and leaves the vault as it was
    (with the "storage vault is full" message for a quantity in 1..999), and
    no failed [service_store_item], whatever path it took, changes the
    account. *)
Theorem failed_call_changes_nothing :
  (forall op h e h', exec op h = (Err e, h') -> forall p, h' p = h p)
  /\ (forall now item quantity a,
        account_find_item a (Some item) = None ->
        (MAX_ITEMS <= item_count a)%nat ->
        (exists e, service_store_item now (Some item) quantity a = (Err e, a)) /\
        (quantity <> 0%N -> (quantity <= BANK_MAX_ITEM_QUANTITY)%N ->
         service_store_item now (Some item) quantity a = (Err ErrVaultFull, a)))
  /\ (forall now name quantity a e,
        fst (service_store_item now name quantity a) = Err e ->
        snd (service_store_item now name quantity a) = a).
Proof.
  split; [|split].
  - intros op h e h' H.
    destruct op as [service p amount now | service p amount now
                   | service from to amount now_from now_to
                   | service p amount now | service p now | service p amount now
                   | p name quantity now | p name quantity now | p];
      cbn [exec] in H; try discriminate;
      try (revert e h' H; apply on_account_failure; intros a e).
    + apply service_deposit_failure.
    + apply service_withdraw_failure.
    + pose proof (service_transfer_failure service now_from now_to from to amount h e) as Ht.
      rewrite H in Ht. cbn [fst snd] in Ht. rewrite (Ht eq_refl). reflexivity.
    + apply service_invest_failure.
    + apply service_withdraw_investment_failure.
    + apply service_store_item_failure.
    + apply service_retrieve_item_failure.
  - exact vault_full_store.
  - intros now. exact (service_store_item_failure now).
Qed.

(** C3 on a full vault: the 33rd item is refused and the 32 stay; and on
    the heap of heroes a withdrawal of more than the balance is refused. *)
Lemma failed_call_changes_nothing_witness :
  service_store_item 1%Z (Some "Relic") 5%N full_vault = (Err ErrVaultFull, full_vault)
  /\ item_count full_vault = 32%nat
  /\ forall p, snd (exec (Withdraw free_service 0%nat 600.0 1%Z) heroes) p = heroes p.
Proof.
  destruct failed_call_changes_nothing as (Hexec & Hvault & _).
  split; [|split].
  - apply (Hvault 1%Z "Relic" 5%N full_vault).
    + reflexivity.
    + vm_compute. lia.
    + discriminate.
    + vm_compute. discriminate.
  - reflexivity.
  - apply (Hexec (Withdraw free_service 0%nat 600.0 1%Z) heroes
             (ErrInsufficientBalance 500.0 600.0)).
    vm_compute. reflexivity.
Defined.

(** * Storing a brand-new item *)

Lemma store_new_item (now : time_t) (item : string) (quantity : size_t) (a : Account) :
  account_find_item a (Some item) = None ->
  (item_count a < MAX_ITEMS)%nat ->
  quantity <> 0%N -> (quantity <= BANK_MAX_ITEM_QUANTITY)%N ->
  service_store_item now (Some item) quantity a
  = (OK, account_add_history now
           (set_items a (items a ++ [mkItem (snprintf_s MAX_ITEM_NAME item) quantity]))
           "Item Stored" (double_of_size_t quantity)).
Proof.
  intros Hnew Hroom H0 H999. unfold service_store_item. rewrite Hnew.
  apply N.eqb_neq in H0. apply N.ltb_ge in H999. rewrite H0, H999.
  assert (Hlt : (MAX_ITEMS <=? item_count a)%nat = false) by (apply Nat.leb_gt; exact Hroom).
  rewrite Hlt. cbn [items set_items].
  rewrite (new_slot_total a item quantity H999), H999.
  unfold item_count. rewrite array_get_last, array_set_last. reflexivity.
Qed.

(** C4 (as amended). Storing a brand-new item with a quantity in 1..999 into
    an account that holds fewer than [MAX_ITEMS] items always succeeds: the
    new slot holds 0, so the total-quantity test compares the requested
    quantity alone.  The slot is appended with the requested quantity,
    [item_count] grows by one and the other slots are untouched.  And a store
    that fails, for whatever reason, leaves [item_count] as it was. *)
Theorem store_new_item_never_fails
    (now : time_t) (item : string) (quantity : size_t) (a : Account) :
  account_find_item a (Some item) = None ->
  (item_count a < MAX_ITEMS)%nat ->
  (1 <= quantity <= BANK_MAX_ITEM_QUANTITY)%N ->
  let r := service_store_item now (Some item) quantity a in
  fst r = OK
  /\ items (snd r) = items a ++ [mkItem (snprintf_s MAX_ITEM_NAME item) quantity]
  /\ item_count (snd r) = S (item_count a)
  /\ forall now' name' quantity' e,
       fst (service_store_item now' name' quantity' a) = Err e ->
       item_count (snd (service_store_item now' name' quantity' a)) = item_count a.
Proof.
  intros Hnew Hroom [H1 H999]. cbv zeta.
  rewrite (store_new_item now item quantity a Hnew Hroom) by (try exact H999; lia).
  cbn [fst snd]. frame. unfold item_count. frame.
  repeat split.
  - rewrite length_app. cbn [List.length]. lia.
  - intros now' name' quantity' e He.
    rewrite (service_store_item_failure now' name' quantity' a e He). reflexivity.
Qed.

(** The amended C4 on the demonstration's item. *)
Lemma store_new_item_never_fails_witness :
  let r := service_store_item 3%Z (Some "Ancient Relic") 2%N hero in
  fst r = OK
  /\ items (snd r) = [mkItem "Ancient Relic" 2%N]
  /\ item_count (snd r) = 1%nat.
Proof.
  destruct (store_new_item_never_fails 3%Z "Ancient Relic" 2%N hero)
    as (Hok & Hitems & Hcount & _).
  - reflexivity.
  - vm_compute. lia.
  - vm_compute. split; discriminate.
  - cbv zeta. split; [exact Hok | split; [exact Hitems | exact Hcount]].
Defined.

(** C4 as stated fails: there is no account, no brand-new item name (empty
    or not) and no quantity in 1..999 for which the store, with room left in
    the vault, returns failure at all. *)
Lemma no_failed_store_of_a_new_item :
  ~ exists (now : time_t) (a : Account) (item : string) (quantity : size_t) (e : Error),
      item <> ""
      /\ account_find_item a (Some item) = None
      /\ (1 <= quantity <= BANK_MAX_ITEM_QUANTITY)%N
      /\ (item_count a < MAX_ITEMS)%nat
      /\ fst (service_store_item now (Some item) quantity a) = Err e.
Proof.
  intros (now & a & item & quantity & e & _ & Hnew & [H1 H999] & Hroom & Hfail).
  rewrite (store_new_item now item quantity a Hnew Hroom) in Hfail by (try exact H999; lia).
  discriminate Hfail.
Qed.

(** * Transfers between two different accounts *)

Lemma service_transfer_distinct
    (service : BankingService) (now_from now_to : time_t) (from to : Ptr)
    (amount : double) (h : Heap) :
  from <> to ->
  fst (service_transfer service now_from now_to from to amount h) = OK ->
  let h' := snd (service_transfer service now_from now_to from to amount h) in
  let credited := if 0 <? transfer_fee service
                  then amount - transfer_fee service else amount in
  h' from = account_add_history now_from
              (set_daily_total
                 (set_balance (h from) (balance (h from) - amount))
                 (daily_total (h from) + amount))
              "Transfer Sent" (- amount)
  /\ h' to = account_add_history now_to
               (set_balance (h to) (balance (h to) + credited))
               "Transfer Received" credited
  /\ forall q, q <> from -> q <> to -> h' q = h q.
Proof.
  intros Hne. unfold service_transfer.
  assert (Hft : Nat.eqb from to = false) by (apply Nat.eqb_neq; exact Hne).
  assert (Htf : Nat.eqb to from = false) by (apply Nat.eqb_neq; congruence).
  destruct (enforce_amount amount); [|discriminate].
  destruct (enforce_daily service (h from) amount); [|discriminate].
  destruct (balance (h from) <? amount); [discriminate|].
  destruct (0 <? transfer_fee service);
    [destruct (amount - transfer_fee service <? BANK_MIN_TRANSACTION);
       [discriminate|]|];
    intros _; cbv zeta; cbn [snd]; unfold heap_set;
    rewrite ?Nat.eqb_refl, ?Hft, ?Htf; cbn [balance daily_total set_balance];
    (split; [reflexivity|split; [reflexivity|]]);
    intros q Hqf Hqt;
    apply Nat.eqb_neq in Hqf; apply Nat.eqb_neq in Hqt;
    rewrite ?Hqf, ?Hqt; reflexivity.
Qed.

Lemma stands_for_inj (x : double) (p q : Q) :
  stands_for x p -> stands_for x q -> (p == q)%Q.
Proof.
  intros (v & Hv & Ep) (w & Hw & Eq). rewrite Hv in Hw. injection Hw as <-.
  rewrite <- Ep, <- Eq. reflexivity.
Qed.

(** C2 (as amended). For every successful [service_transfer] between two
    different accounts: the sender's balance becomes the double
    [from.balance - amount] (the full requested amount), the receiver's
    becomes the double [to.balance + credited] with
    [credited = amount - fee] when [fee > 0] and [credited = amount]
    otherwise, the sender's daily total becomes [daily_total + amount] and
    the receiver's daily total is unchanged.  Each of these is a rounded
    binary64 operation; whenever the three of them are exact, the sum of the
    two balances has decreased by exactly the fee (when [fee > 0]) or is
    exactly conserved (otherwise). *)
Theorem transfer_moves_the_amount_less_fee
    (service : BankingService) (now_from now_to : time_t) (from to : Ptr)
    (amount : double) (h : Heap) :
  from <> to ->
  fst (service_transfer service now_from now_to from to amount h) = OK ->
  let h' := snd (service_transfer service now_from now_to from to amount h) in
  let fee := transfer_fee service in
  let credited := if 0 <? fee then amount - fee else amount in
  balance (h' from) = balance (h from) - amount
  /\ balance (h' to) = balance (h to) + credited
  /\ daily_total (h' from) = daily_total (h from) + amount
  /\ daily_total (h' to) = daily_total (h to)
  /\ forall vfrom vto vamount vfee : Q,
       stands_for (balance (h from)) vfrom ->
       stands_for (balance (h to)) vto ->
       stands_for amount vamount ->
       ((0 <? fee) = true -> stands_for fee vfee) ->
       ((0 <? fee) = true -> stands_for (amount - fee) (vamount - vfee)) ->
       stands_for (balance (h from) - amount) (vfrom - vamount) ->
       (forall vcredited, stands_for credited vcredited ->
                          stands_for (balance (h to) + credited) (vto + vcredited)) ->
       exists vfrom' vto',
         stands_for (balance (h' from)) vfrom' /\
         stands_for (balance (h' to)) vto' /\
         (vfrom' + vto' ==
          vfrom + vto - (if 0 <? fee then vfee else 0))%Q.
Proof.
  intros Hne Hok.
  destruct (service_transfer_distinct service now_from now_to from to amount h Hne Hok)
    as (Hfrom & Hto & _).
  cbv zeta in *. rewrite Hfrom, Hto. frame.
  repeat (split; [reflexivity|]).
  intros vfrom vto vamount vfee Sfrom Sto Samount Sfee Ssub Sdebit Scredit.
  destruct (0 <? transfer_fee service) eqn:Efee.
  - exists (vfrom - vamount)%Q, (vto + (vamount - vfee))%Q.
    split; [exact Sdebit|]. split; [apply Scredit, Ssub; reflexivity|]. ring.
  - exists (vfrom - vamount)%Q, (vto + vamount)%Q.
    split; [exact Sdebit|]. split; [apply Scredit, Samount|]. ring.
Qed.

(** The amended C2 on a transfer of 100 with a fee of 10, from an account
    holding 500 to one holding 50: every operation is exact. *)
Lemma transfer_moves_the_amount_less_fee_witness :
  let h' := snd (service_transfer (transfer_fee_service 10) 1%Z 2%Z 0%nat 1%nat 100
                   (two_accounts 500 50)) in
  balance (h' 0%nat) = 400 /\ balance (h' 1%nat) = 140
  /\ daily_total (h' 0%nat) = 100 /\ daily_total (h' 1%nat) = 0
  /\ exists vfrom' vto',
       stands_for (balance (h' 0%nat)) vfrom' /\
       stands_for (balance (h' 1%nat)) vto' /\
       (vfrom' + vto' == 500 + 50 - 10)%Q.
Proof.
  assert (Hne : 0%nat <> 1%nat) by discriminate.
  assert (Hok : fst (service_transfer (transfer_fee_service 10) 1%Z 2%Z 0%nat 1%nat 100
                       (two_accounts 500 50)) = OK) by (vm_compute; reflexivity).
  destruct (transfer_moves_the_amount_less_fee
              (transfer_fee_service 10) 1%Z 2%Z 0%nat 1%nat 100 (two_accounts 500 50)
              Hne Hok) as (Hb0 & Hb1 & Hd0 & Hd1 & Hsum).
  cbv zeta in *.
  split; [rewrite Hb0; vm_compute; reflexivity|].
  split; [rewrite Hb1; vm_compute; reflexivity|].
  split; [rewrite Hd0; vm_compute; reflexivity|].
  split; [rewrite Hd1; vm_compute; reflexivity|].
  apply (Hsum 500%Q 50%Q 100%Q 10%Q).
  - eexists; split; [vm_compute; reflexivity | vm_compute; reflexivity].
  - eexists; split; [vm_compute; reflexivity | vm_compute; reflexivity].
  - eexists; split; [vm_compute; reflexivity | vm_compute; reflexivity].
  - intros _. eexists; split; [vm_compute; reflexivity | vm_compute; reflexivity].
  - intros _. eexists; split; [vm_compute; reflexivity | vm_compute; reflexivity].
  - eexists; split; [vm_compute; reflexivity | vm_compute; reflexivity].
  - intros vcredited Hc.
    assert (H90 : stands_for (if 0 <? transfer_fee (transfer_fee_service 10)
                              then 100 - transfer_fee (transfer_fee_service 10)
                              else 100) 90%Q)
      by (eexists; split; [vm_compute; reflexivity | vm_compute; reflexivity]).
    pose proof (stands_for_inj _ _ _ Hc H90) as E.
    eexists; split; [vm_compute; reflexivity|].
    rewrite E. vm_compute. reflexivity.
Defined.

(** C2 as stated fails, by rounding.  With no fee, moving 1 out of a balance
    of 2^53 + 2 leaves 2^53 (the sender loses 2, the receiver gains 1), so the
    sum of the two balances is not conserved; with a fee of 0.1, moving 50.3
    from 100.1 to 0.2 leaves balances whose sum is not the former sum less
    the fee.  And when [from] and [to] are the same account, which the code
    accepts, a transfer of 100 without fee leaves the balance at 500: the
    sender's balance has not decreased by the amount. *)
Lemma transfer_rounding_breaks_conservation :
  (let h := two_accounts 9007199254740994 0 in
   let r := service_transfer (transfer_fee_service 0) 1%Z 2%Z 0%nat 1%nat 1 h in
   fst r = OK
   /\ (transfer_fee (transfer_fee_service 0) <=? 0) = true
   /\ balance (snd r 0%nat) = 9007199254740992
   /\ balance (snd r 1%nat) = 1
   /\ (balance (snd r 0%nat) + balance (snd r 1%nat)
       =? balance (h 0%nat) + balance (h 1%nat)) = false)
  /\
  (let h := two_accounts 100.1 0.2 in
   let r := service_transfer (transfer_fee_service 0.1) 1%Z 2%Z 0%nat 1%nat 50.3 h in
   fst r = OK
   /\ (0 <? transfer_fee (transfer_fee_service 0.1)) = true
   /\ (balance (snd r 0%nat) + balance (snd r 1%nat)
       =? balance (h 0%nat) + balance (h 1%nat) - transfer_fee (transfer_fee_service 0.1))
      = false)
  /\
  (let r := service_transfer free_service 1%Z 2%Z 0%nat 0%nat 100 heroes in
   fst r = OK
   /\ balance (heroes 0%nat) = 500
   /\ balance (snd r 0%nat) = 500).
Proof.
  cbv zeta. repeat split; vm_compute; reflexivity.
Qed.

(** * The daily limit *)

Lemma enforce_daily_spec (service : BankingService) (a : Account) (amount : double) :
  enforce_daily service a amount
  = if effective_daily_limit service <? daily_total a + amount
    then Err (ErrDailyLimit (daily_total a + amount) (effective_daily_limit service))
    else OK.
Proof. reflexivity. Qed.

Section DailyGate.
Variables (service : BankingService) (now : time_t) (amount : double) (a : Account).

Let limit := effective_daily_limit service.
Let projected := daily_total a + amount.

Lemma service_deposit_daily :
  (enforce_amount amount = OK -> (limit <? projected) = true ->
   service_deposit service now amount a = (Err (ErrDailyLimit projected limit), a))
  /\ (fst (service_deposit service now amount a) = OK ->
      (limit <? projected) = false
      /\ daily_total (snd (service_deposit service now amount a)) = projected)
  /\ (forall x y, fst (service_deposit service now amount a) = Err (ErrDailyLimit x y) ->
      (limit <? projected) = true).
Proof.
  unfold service_deposit. rewrite enforce_daily_spec. fold limit projected.
  split; [|split].
  - intros -> ->. reflexivity.
  - destruct (enforce_amount amount); [|discriminate].
    destruct (limit <? projected); [discriminate|].
    destruct (apply_fee service amount (deposit_fee service)); [|discriminate].
    intros _. frame. auto.
  - intros x y. unfold enforce_amount.
    destruct (amount <? BANK_MIN_TRANSACTION); [discriminate|].
    destruct (BANK_MAX_TRANSACTION <? amount); [discriminate|].
    destruct (limit <? projected); [reflexivity|].
    destruct (apply_fee service amount (deposit_fee service)); discriminate.
Qed.

Lemma service_withdraw_daily :
  (enforce_amount amount = OK -> (limit <? projected) = true ->
   service_withdraw service now amount a = (Err (ErrDailyLimit projected limit), a))
  /\ (fst (service_withdraw service now amount a) = OK ->
      (limit <? projected) = false
      /\ daily_total (snd (service_withdraw service now amount a)) = projected)
  /\ (forall x y, fst (service_withdraw service now amount a) = Err (ErrDailyLimit x y) ->
      (limit <? projected) = true).
Proof.
  unfold service_withdraw. rewrite enforce_daily_spec. fold limit projected.
  split; [|split].
  - intros -> ->. reflexivity.
  - destruct (enforce_amount amount); [|discriminate].
    destruct (limit <? projected); [discriminate|].
    destruct (apply_fee service amount (withdrawal_fee service)) as [paid|]; [|discriminate].
    destruct (balance a <? paid); [discriminate|].
    intros _. frame. auto.
  - intros x y. unfold enforce_amount.
    destruct (amount <? BANK_MIN_TRANSACTION); [discriminate|].
    destruct (BANK_MAX_TRANSACTION <? amount); [discriminate|].
    destruct (limit <? projected); [reflexivity|].
    destruct (apply_fee service amount (withdrawal_fee service)) as [paid|]; [|discriminate].
    destruct (balance a <? paid); discriminate.
Qed.
End DailyGate.

Section DailyGateTransfer.
Variables (service : BankingService) (now_from now_to : time_t) (from to : Ptr)
          (amount : double) (h : Heap).

Let limit := effective_daily_limit service.
Let projected := daily_total (h from) + amount.

Lemma service_transfer_daily :
  (enforce_amount amount = OK -> (limit <? projected) = true ->
   service_transfer service now_from now_to from to amount h
   = (Err (ErrDailyLimit projected limit), h))
  /\ (fst (service_transfer service now_from now_to from to amount h) = OK ->
      (limit <? projected) = false
      /\ daily_total (snd (service_transfer service now_from now_to from to amount h) from)
         = projected
      /\ (to <> from ->
          daily_total (snd (service_transfer service now_from now_to from to amount h) to)
          = daily_total (h to)))
  /\ (forall x y,
        fst (service_transfer service now_from now_to from to amount h)
        = Err (ErrDailyLimit x y) -> (limit <? projected) = true).
Proof.
  unfold service_transfer. rewrite enforce_daily_spec. fold limit projected.
  split; [|split].
  - intros -> ->. reflexivity.
  - destruct (enforce_amount amount); [|discriminate].
    destruct (limit <? projected); [discriminate|].
    destruct (balance (h from) <? amount); [discriminate|].
    destruct (0 <? transfer_fee service);
      [destruct (amount - transfer_fee service <? BANK_MIN_TRANSACTION);
         [discriminate|]|];
      intros _; (split; [reflexivity|]); cbv zeta; cbn [snd]; unfold heap_set;
      rewrite ?Nat.eqb_refl;
      (destruct (Nat.eqb_spec from to) as [E|E];
       [ destruct (Nat.eqb_spec to from) as [_|E']; [|congruence]
       | destruct (Nat.eqb_spec to from) as [E'|_]; [congruence|] ]);
      frame; (split; [reflexivity|]); intros Hne; try reflexivity; congruence.
  - intros x y. unfold enforce_amount.
    destruct (amount <? BANK_MIN_TRANSACTION); [discriminate|].
    destruct (BANK_MAX_TRANSACTION <? amount); [discriminate|].
    destruct (limit <? projected); [reflexivity|].
    destruct (balance (h from) <? amount); [discriminate|].
    destruct (0 <? transfer_fee service);
      [destruct (amount - transfer_fee service <? BANK_MIN_TRANSACTION)|];
      discriminate.
Qed.
End DailyGateTransfer.

Lemma two_deposits_of_60 (service : BankingService) (now1 now2 : time_t) (a : Account) :
  daily_limit service = 100 ->
  daily_total a = 0 ->
  apply_fee service 60 (deposit_fee service) <> None ->
  let r1 := service_deposit service now1 60 a in
  let r2 := service_deposit service now2 60 (snd r1) in
  fst r1 = OK /\ daily_total (snd r1) = 60
  /\ r2 = (Err (ErrDailyLimit 120 100), snd r1)
  /\ error_kind (ErrDailyLimit 120 100) = LimitExceeded
  /\ daily_total (snd r2) = 60.
Proof.
  intros Hlimit Hdaily Hfee. cbv zeta.
  assert (Hcap : effective_daily_limit service = 100)
    by (unfold effective_daily_limit; rewrite Hlimit; reflexivity).
  assert (H1 : fst (service_deposit service now1 60 a) = OK).
  { unfold service_deposit. rewrite enforce_daily_spec, Hcap, Hdaily.
    change (enforce_amount 60) with OK. change (100 <? 0 + 60) with false. cbv iota.
    destruct (apply_fee service 60 (deposit_fee service)); [reflexivity | congruence]. }
  destruct (service_deposit_daily service now1 60 a) as (_ & Hok & _).
  destruct (Hok H1) as [_ Hd1]. rewrite Hdaily in Hd1.
  change (0 + 60) with 60 in Hd1.
  destruct (service_deposit_daily service now2 60 (snd (service_deposit service now1 60 a)))
    as (Hfail & _ & _).
  rewrite Hcap, Hd1 in Hfail. change (60 + 60) with 120 in Hfail.
  rewrite (Hfail eq_refl eq_refl). cbn [snd].
  repeat split; assumption.
Qed.

(** C5. The daily gate of [service_deposit], [service_withdraw] and
    [service_transfer] uses the limit [service.daily_limit] when that is above
    0 and 25000.0 otherwise, and fails exactly when
    [daily_total + requested > limit], [requested] being the amount the caller
    passed, before any fee: a call whose amount is in range and whose total
    would exceed the limit fails with the daily-limit message and changes
    nothing, no call fails with that message otherwise, and a call that
    succeeds has passed the gate and leaves [daily_total + requested] in
    [daily_total] (of the sender, for a transfer; the receiver's is not
    touched).  With a limit of 100 and an empty daily total, two deposits of
    60: the first succeeds and leaves 60, the second fails ([LimitExceeded],
    120 against 100) and 60 remains. *)
Theorem daily_limit_gate :
  (forall service a amount,
      enforce_daily service a amount = OK
      <-> (effective_daily_limit service <? daily_total a + amount) = false)
  /\ (forall service now amount a,
        let limit := effective_daily_limit service in
        let projected := daily_total a + amount in
        (enforce_amount amount = OK -> (limit <? projected) = true ->
         service_deposit service now amount a = (Err (ErrDailyLimit projected limit), a))
        /\ (fst (service_deposit service now amount a) = OK ->
            (limit <? projected) = false
            /\ daily_total (snd (service_deposit service now amount a)) = projected)
        /\ (forall x y,
              fst (service_deposit service now amount a) = Err (ErrDailyLimit x y) ->
              (limit <? projected) = true))
  /\ (forall service now amount a,
        let limit := effective_daily_limit service in
        let projected := daily_total a + amount in
        (enforce_amount amount = OK -> (limit <? projected) = true ->
         service_withdraw service now amount a = (Err (ErrDailyLimit projected limit), a))
        /\ (fst (service_withdraw service now amount a) = OK ->
            (limit <? projected) = false
            /\ daily_total (snd (service_withdraw service now amount a)) = projected)
        /\ (forall x y,
              fst (service_withdraw service now amount a) = Err (ErrDailyLimit x y) ->
              (limit <? projected) = true))
  /\ (forall service now_from now_to from to amount h,
        let limit := effective_daily_limit service in
        let projected := daily_total (h from) + amount in
        let r := service_transfer service now_from now_to from to amount h in
        (enforce_amount amount = OK -> (limit <? projected) = true ->
         r = (Err (ErrDailyLimit projected limit), h))
        /\ (fst r = OK ->
            (limit <? projected) = false
            /\ daily_total (snd r from) = projected
            /\ (to <> from -> daily_total (snd r to) = daily_total (h to)))
        /\ (forall x y, fst r = Err (ErrDailyLimit x y) -> (limit <? projected) = true))
  /\ (forall service now1 now2 a,
        daily_limit service = 100 ->
        daily_total a = 0 ->
        apply_fee service 60 (deposit_fee service) <> None ->
        let r1 := service_deposit service now1 60 a in
        let r2 := service_deposit service now2 60 (snd r1) in
        fst r1 = OK /\ daily_total (snd r1) = 60
        /\ r2 = (Err (ErrDailyLimit 120 100), snd r1)
        /\ error_kind (ErrDailyLimit 120 100) = LimitExceeded
        /\ daily_total (snd r2) = 60).
Proof.
  split; [|split; [|split; [|split]]].
  - intros service a amount. rewrite enforce_daily_spec.
    destruct (_ <? _); split; congruence.
  - exact service_deposit_daily.
  - exact service_withdraw_daily.
  - exact service_transfer_daily.
  - exact two_deposits_of_60.
Qed.

(** C5 on the service with a daily limit of 100 and a fresh account. *)
Lemma daily_limit_gate_witness :
  let r1 := service_deposit daily_limit_100 1%Z 60 hero in
  let r2 := service_deposit daily_limit_100 2%Z 60 (snd r1) in
  fst r1 = OK /\ daily_total (snd r1) = 60
  /\ r2 = (Err (ErrDailyLimit 120 100), snd r1)
  /\ error_kind (ErrDailyLimit 120 100) = LimitExceeded
  /\ daily_total (snd r2) = 60.
Proof.
  destruct daily_limit_gate as (_ & _ & _ & _ & H).
  apply (H daily_limit_100 1%Z 2%Z hero).
  - reflexivity.
  - reflexivity.
  - vm_compute. discriminate.
Defined.

(** * The fee gate *)

Lemma apply_fee_rejects (service : BankingService) (amount fee : double) :
  (0 <? fee) = true -> (amount - fee <? 1.0) = true ->
  apply_fee service amount fee = None.
Proof.
  intros Hpos Hsmall. unfold apply_fee, BANK_MIN_TRANSACTION.
  rewrite (IEEE.ltb_leb_antisym 0 fee Hpos), Hsmall. reflexivity.
Qed.

Lemma apply_fee_passes_through (service : BankingService) (amount fee : double) :
  (fee <=? 0) = true -> apply_fee service amount fee = Some amount.
Proof. intros H. unfold apply_fee. rewrite H. reflexivity. Qed.

Lemma service_deposit_fee_gate (service : BankingService) (now : time_t)
    (amount : double) (a : Account) :
  (0 <? deposit_fee service) = true ->
  (amount - deposit_fee service <? 1.0) = true ->
  let r := service_deposit service now amount a in
  snd r = a
  /\ (exists e, fst r = Err e)
  /\ (enforce_amount amount = OK -> enforce_daily service a amount = OK ->
      fst r = Err ErrDepositFee).
Proof.
  intros Hpos Hsmall. cbv zeta. unfold service_deposit.
  rewrite (apply_fee_rejects service amount _ Hpos Hsmall).
  destruct (enforce_amount amount) as [|e1]; [|cbn; split; [reflexivity|split; [eauto|discriminate]]].
  destruct (enforce_daily service a amount) as [|e2];
    cbn; (split; [reflexivity|split; [eauto|]]); [reflexivity | discriminate].
Qed.

Lemma service_withdraw_fee_gate (service : BankingService) (now : time_t)
    (amount : double) (a : Account) :
  (0 <? withdrawal_fee service) = true ->
  (amount - withdrawal_fee service <? 1.0) = true ->
  let r := service_withdraw service now amount a in
  snd r = a
  /\ (exists e, fst r = Err e)
  /\ (enforce_amount amount = OK -> enforce_daily service a amount = OK ->
      fst r = Err ErrWithdrawalFee).
Proof.
  intros Hpos Hsmall. cbv zeta. unfold service_withdraw.
  rewrite (apply_fee_rejects service amount _ Hpos Hsmall).
  destruct (enforce_amount amount) as [|e1]; [|cbn; split; [reflexivity|split; [eauto|discriminate]]].
  destruct (enforce_daily service a amount) as [|e2];
    cbn; (split; [reflexivity|split; [eauto|]]); [reflexivity | discriminate].
Qed.

(** C6 (as amended). For [service_deposit] and [service_withdraw] with a fee
    above 0: if [amount - fee < 1.0] the call fails and the account is
    unchanged; the failure is the fee rejection whenever the amount-range and
    daily-limit gates, which come first, let the call through (otherwise it
    is the error of the gate that stopped it).  With a fee [<= 0] the amount
    passes the fee gate unchanged.  With a withdrawal fee of 5, withdrawing
    5.0 fails and leaves the account (so the balance) unchanged, with the fee
    rejection when the daily gate lets it through. *)
Theorem fee_below_minimum_rejects :
  (forall service now amount a,
      (0 <? deposit_fee service) = true ->
      (amount - deposit_fee service <? 1.0) = true ->
      let r := service_deposit service now amount a in
      snd r = a /\ (exists e, fst r = Err e)
      /\ (enforce_amount amount = OK -> enforce_daily service a amount = OK ->
          fst r = Err ErrDepositFee))
  /\ (forall service now amount a,
        (0 <? withdrawal_fee service) = true ->
        (amount - withdrawal_fee service <? 1.0) = true ->
        let r := service_withdraw service now amount a in
        snd r = a /\ (exists e, fst r = Err e)
        /\ (enforce_amount amount = OK -> enforce_daily service a amount = OK ->
            fst r = Err ErrWithdrawalFee))
  /\ error_kind ErrDepositFee = FeeRejected
  /\ error_kind ErrWithdrawalFee = FeeRejected
  /\ (forall service amount fee,
        (fee <=? 0) = true -> apply_fee service amount fee = Some amount)
  /\ (forall service now a,
        withdrawal_fee service = 5 ->
        let r := service_withdraw service now 5.0 a in
        snd r = a /\ balance (snd r) = balance a /\ (exists e, fst r = Err e)
        /\ (enforce_daily service a 5.0 = OK -> fst r = Err ErrWithdrawalFee)).
Proof.
  split; [exact service_deposit_fee_gate|].
  split; [exact service_withdraw_fee_gate|].
  split; [reflexivity|]. split; [reflexivity|].
  split; [exact apply_fee_passes_through|].
  intros service now a Hfee. cbv zeta.
  destruct (service_withdraw_fee_gate service now 5.0 a) as (Hsame & Hfail & Hkind).
  - rewrite Hfee. reflexivity.
  - rewrite Hfee. reflexivity.
  - rewrite Hsame. split; [reflexivity|]. split; [reflexivity|].
    split; [exact Hfail|]. intros Hday. apply Hkind; [reflexivity | exact Hday].
Qed.

(** The amended C6 on a fresh account and a withdrawal fee of 5. *)
Lemma fee_below_minimum_rejects_witness :
  service_withdraw withdrawal_fee_5 1%Z 5.0 hero = (Err ErrWithdrawalFee, hero)
  /\ balance (snd (service_withdraw withdrawal_fee_5 1%Z 5.0 hero)) = 500.
Proof.
  destruct fee_below_minimum_rejects as (_ & _ & _ & _ & _ & H).
  destruct (H withdrawal_fee_5 1%Z hero eq_refl) as (Hsame & Hbal & _ & Hkind).
  split.
  - rewrite (surjective_pairing (service_withdraw withdrawal_fee_5 1%Z 5.0 hero)).
    rewrite Hsame, (Hkind eq_refl). reflexivity.
  - rewrite Hbal. reflexivity.
Defined.

(** C6 as stated fails: with a deposit fee of 5, a deposit of 0.5 has
    [amount - fee < 1.0] and fails, but with the below-minimum error of the
    amount-range gate, not with a fee rejection. *)
Lemma small_deposit_is_not_a_fee_rejection :
  let service := deposit_fee_service 5 in
  (0 <? deposit_fee service) = true
  /\ (0.5 - deposit_fee service <? 1.0) = true
  /\ service_deposit service 1%Z 0.5 hero = (Err (ErrBelowMinimum 0.5), hero)
  /\ error_kind (ErrBelowMinimum 0.5) <> FeeRejected.
Proof.
  cbv zeta. repeat split; try (vm_compute; reflexivity). discriminate.
Qed.

(** * Investments *)

Lemma service_invest_ok_iff (service : BankingService) (now : time_t)
    (amount : double) (a : Account) :
  fst (service_invest service now amount a) = OK
  <-> (amount <=? 0) = false /\ (balance a <? amount) = false.
Proof.
  unfold service_invest.
  destruct (amount <=? 0); [cbn; split; [discriminate | intros [H _]; discriminate]|].
  destruct (balance a <? amount); cbn; split; auto; try discriminate.
  intros [_ H]; discriminate.
Qed.

Lemma service_invest_effect (service : BankingService) (now : time_t)
    (amount : double) (a : Account) :
  fst (service_invest service now amount a) = OK ->
  service_invest service now amount a
  = (OK, account_add_history now
           (set_investment_balance (set_balance a (balance a - amount))
              (investment_balance a + amount))
           "Investment Deposit" (- amount)).
Proof.
  unfold service_invest.
  destruct (amount <=? 0); [discriminate|].
  destruct (balance a <? amount); [discriminate|]. reflexivity.
Qed.

Lemma service_withdraw_investment_effect (service : BankingService) (now : time_t)
    (amount : double) (a : Account) :
  (amount <=? 0) = false -> (investment_balance a <? amount) = false ->
  service_withdraw_investment service now amount a
  = (OK, account_add_history now
           (set_balance (set_investment_balance a (investment_balance a - amount))
              (balance a + amount))
           "Investment Withdrawal" amount).
Proof.
  intros H1 H2. unfold service_withdraw_investment. rewrite H1, H2. reflexivity.
Qed.

Lemma service_apply_investment_yield_effect (service : BankingService) (now : time_t)
    (a : Account) :
  (0 <? investment_balance a) = true -> (0 <? investment_rate service) = true ->
  service_apply_investment_yield service now a
  = account_add_history now
      (set_investment_balance a
         (investment_balance a + investment_balance a * investment_rate service))
      "Investment Yield" (investment_balance a * investment_rate service).
Proof.
  intros H1 H2. unfold service_apply_investment_yield.
  rewrite (IEEE.ltb_leb_antisym _ _ H1), (IEEE.ltb_leb_antisym _ _ H2). reflexivity.
Qed.

(** C8 (as amended).  [service_invest] succeeds if and only if neither
    [amount <= 0] nor [balance < amount] holds; for an amount and a balance
    that are not NaN this is: if and only if [amount > 0] and
    [balance >= amount].  Neither the service nor the daily total plays a
    part: the per-transaction bounds and the daily limit are not applied, and
    0.5 or 50000.0, which [enforce_amount] refuses, are invested when the
    balance suffices.  On success the balance becomes [balance - amount] and
    the investment balance [investment_balance + amount]. *)
Theorem invest_succeeds_iff
    (service : BankingService) (now : time_t) (amount : double) (a : Account) :
  (fst (service_invest service now amount a) = OK
   <-> (amount <=? 0) = false /\ (balance a <? amount) = false)
  /\ (is_nan amount = false -> is_nan (balance a) = false ->
      (fst (service_invest service now amount a) = OK
       <-> (0 <? amount) = true /\ (amount <=? balance a) = true))
  /\ (forall service' daily,
        fst (service_invest service' now amount (set_daily_total a daily))
        = fst (service_invest service now amount a))
  /\ (enforce_amount 0.5 <> OK /\ enforce_amount 50000.0 <> OK)
  /\ ((balance a <? 0.5) = false -> fst (service_invest service now 0.5 a) = OK)
  /\ ((balance a <? 50000.0) = false -> fst (service_invest service now 50000.0 a) = OK)
  /\ (fst (service_invest service now amount a) = OK ->
      balance (snd (service_invest service now amount a)) = balance a - amount
      /\ investment_balance (snd (service_invest service now amount a))
         = investment_balance a + amount).
Proof.
  split; [apply service_invest_ok_iff|].
  split.
  { intros Hn Hb. rewrite service_invest_ok_iff.
    rewrite (IEEE.leb_negb_ltb amount 0 Hn eq_refl).
    rewrite (IEEE.ltb_negb_leb (balance a) amount Hb Hn).
    destruct (0 <? amount), (amount <=? balance a); cbn [negb]; split; intros [? ?];
      split; congruence. }
  split.
  { intros service' daily. unfold service_invest. cbn [balance set_daily_total].
    destruct (amount <=? 0); [reflexivity|].
    destruct (balance a <? amount); reflexivity. }
  split; [split; discriminate|].
  split; [intros H; apply service_invest_ok_iff; split; [reflexivity | exact H]|].
  split; [intros H; apply service_invest_ok_iff; split; [reflexivity | exact H]|].
  intros Hok. rewrite (service_invest_effect service now amount a Hok).
  cbn [snd]. frame. split; reflexivity.
Qed.

(** The amended C8 on a fresh account holding 500: 100 is invested, 600 is
    not. *)
Lemma invest_succeeds_iff_witness :
  fst (service_invest free_service 1%Z 100 hero) = OK
  /\ fst (service_invest free_service 1%Z 600 hero) <> OK
  /\ balance (snd (service_invest free_service 1%Z 100 hero)) = 400
  /\ investment_balance (snd (service_invest free_service 1%Z 100 hero)) = 100.
Proof.
  destruct (invest_succeeds_iff free_service 1%Z 100 hero)
    as (_ & Hiff & _ & _ & _ & _ & Heffect).
  destruct (invest_succeeds_iff free_service 1%Z 600 hero)
    as (_ & Hiff' & _).
  assert (Hok : fst (service_invest free_service 1%Z 100 hero) = OK).
  { apply (Hiff eq_refl eq_refl). split; reflexivity. }
  split; [exact Hok|]. split.
  - intros H. apply (Hiff' eq_refl eq_refl) in H. destruct H as [_ H].
    vm_compute in H. discriminate H.
  - destruct (Heffect Hok) as [Hb Hi]. rewrite Hb, Hi. split; reflexivity.
Defined.

(** C8 as stated fails: a NaN amount is invested.  The guards are the
    rejections [amount <= 0] and [balance < amount], both false on NaN, so the
    call succeeds although neither [amount > 0] nor [balance >= amount]
    holds; balance and investment balance are NaN afterwards. *)
Lemma nan_is_invested :
  fst (service_invest free_service 1%Z nan hero) = OK
  /\ (0 <? nan) = false
  /\ (nan <=? balance hero) = false
  /\ is_nan (balance (snd (service_invest free_service 1%Z nan hero))) = true
  /\ is_nan (investment_balance (snd (service_invest free_service 1%Z nan hero))) = true.
Proof. repeat split; vm_compute; reflexivity. Qed.

(** C9. From a balance of 500 and an investment balance of 0: investing 100
    leaves 400 and 100; applying the yield at a rate of 0.1 leaves an
    investment balance of 110 (in general the yield
    [investment_balance * investment_rate] is added when both are above 0);
    withdrawing the investment of 110 leaves an investment balance of 0 and a
    balance of 510. *)
Theorem investment_round_trip
    (service : BankingService) (now1 now2 now3 : time_t) (a : Account) :
  investment_rate service = 0.1 ->
  balance a = 500 ->
  investment_balance a = 0 ->
  let r1 := service_invest service now1 100 a in
  let a2 := service_apply_investment_yield service now2 (snd r1) in
  let r3 := service_withdraw_investment service now3 110 a2 in
  fst r1 = OK /\ balance (snd r1) = 400 /\ investment_balance (snd r1) = 100
  /\ balance a2 = 400 /\ investment_balance a2 = 110
  /\ fst r3 = OK /\ investment_balance (snd r3) = 0 /\ balance (snd r3) = 510
  /\ (forall service' now' a',
        (0 <? investment_balance a') = true ->
        (0 <? investment_rate service') = true ->
        investment_balance (service_apply_investment_yield service' now' a')
        = investment_balance a' + investment_balance a' * investment_rate service').
Proof.
  intros Hrate Hbal Hinv. cbv zeta.
  assert (H1 : fst (service_invest service now1 100 a) = OK).
  { apply service_invest_ok_iff. rewrite Hbal. split; reflexivity. }
  rewrite (service_invest_effect service now1 100 a H1). cbn [fst snd].
  rewrite service_apply_investment_yield_effect;
    [| frame; rewrite Hinv; reflexivity | rewrite Hrate; reflexivity].
  rewrite service_withdraw_investment_effect;
    [| reflexivity | frame; rewrite Hinv, Hrate; reflexivity].
  frame. rewrite Hbal, Hinv, Hrate.
  repeat (split; [reflexivity|]).
  intros service' now' a' Hi Hr.
  rewrite service_apply_investment_yield_effect by assumption.
  frame. reflexivity.
Qed.

(** C9 on a fresh account holding 500. *)
Lemma investment_round_trip_witness :
  let r1 := service_invest rate_one_tenth 1%Z 100 hero in
  let a2 := service_apply_investment_yield rate_one_tenth 2%Z (snd r1) in
  let r3 := service_withdraw_investment rate_one_tenth 3%Z 110 a2 in
  balance (snd r1) = 400 /\ investment_balance (snd r1) = 100
  /\ investment_balance a2 = 110
  /\ investment_balance (snd r3) = 0 /\ balance (snd r3) = 510.
Proof.
  destruct (investment_round_trip rate_one_tenth 1%Z 2%Z 3%Z hero eq_refl eq_refl eq_refl)
    as (_ & Hb1 & Hi1 & _ & Hi2 & _ & Hi3 & Hb3 & _).
  cbv zeta. repeat split; assumption.
Defined.

(** * What leaves the daily total and the balance alone *)

(** C10. [service_invest], [service_withdraw_investment],
    [service_apply_investment_yield], [service_store_item] and
    [service_retrieve_item] leave [daily_total] unchanged, whether they
    succeed or fail; a transfer leaves the receiver's unchanged; deposit,
    withdrawal and transfer (for the sender) are the calls that add the
    requested amount to it.  [service_reset_daily] sets [daily_total] to 0
    and changes no other field.  The two item calls leave the balance (and the
    investment balance) unchanged. *)
Theorem daily_total_and_balance_frame :
  (forall service now amount a,
      daily_total (snd (service_invest service now amount a)) = daily_total a)
  /\ (forall service now amount a,
        daily_total (snd (service_withdraw_investment service now amount a))
        = daily_total a)
  /\ (forall service now a,
        daily_total (service_apply_investment_yield service now a) = daily_total a)
  /\ (forall now name quantity a,
        let a' := snd (service_store_item now name quantity a) in
        daily_total a' = daily_total a /\ balance a' = balance a
        /\ investment_balance a' = investment_balance a)
  /\ (forall now name quantity a,
        let a' := snd (service_retrieve_item now name quantity a) in
        daily_total a' = daily_total a /\ balance a' = balance a
        /\ investment_balance a' = investment_balance a)
  /\ (forall a,
        service_reset_daily a
        = mkAccount (owner a) (balance a) (investment_balance a) 0 (items a) (history a))
  /\ (forall a,
        item_count (service_reset_daily a) = item_count a
        /\ history_count (service_reset_daily a) = history_count a)
  /\ (forall service now amount a,
        fst (service_deposit service now amount a) = OK ->
        daily_total (snd (service_deposit service now amount a)) = daily_total a + amount)
  /\ (forall service now amount a,
        fst (service_withdraw service now amount a) = OK ->
        daily_total (snd (service_withdraw service now amount a)) = daily_total a + amount)
  /\ (forall service now_from now_to from to amount h,
        let r := service_transfer service now_from now_to from to amount h in
        fst r = OK ->
        daily_total (snd r from) = daily_total (h from) + amount
        /\ (to <> from -> daily_total (snd r to) = daily_total (h to))).
Proof.
  repeat match goal with |- _ /\ _ => split end.
  - intros. unfold service_invest. guards; frame; reflexivity.
  - intros. unfold service_withdraw_investment. guards; frame; reflexivity.
  - intros. unfold service_apply_investment_yield. guards; frame; reflexivity.
  - intros now name quantity a.
    destruct (service_store_item_currency now name quantity a) as (Hb & Hi & Hd & _).
    cbv zeta. auto.
  - intros now name quantity a.
    destruct (service_retrieve_item_currency now name quantity a) as (Hb & Hi & Hd & _).
    cbv zeta. auto.
  - intros a. reflexivity.
  - intros a. split; reflexivity.
  - intros service now amount a H.
    destruct (service_deposit_daily service now amount a) as (_ & Hok & _).
    apply (Hok H).
  - intros service now amount a H.
    destruct (service_withdraw_daily service now amount a) as (_ & Hok & _).
    apply (Hok H).
  - intros service now_from now_to from to amount h r H.
    destruct (service_transfer_daily service now_from now_to from to amount h)
      as (_ & Hok & _).
    destruct (Hok H) as (_ & Hf & Ht). split; assumption.
Qed.

(** C10 on the demonstration's account and a second one. *)
Lemma daily_total_and_balance_frame_witness :
  daily_total (snd (service_deposit guild_treasurer 1%Z 200.0 hero)) = 200.0
  /\ daily_total (snd (service_invest guild_treasurer 4%Z 100.0 hero)) = 0
  /\ balance (snd (service_store_item 3%Z (Some "Ancient Relic") 2%N hero)) = 500.0
  /\ (let r := service_transfer guild_treasurer 6%Z 7%Z 0%nat 1%nat 25.0 heroes in
      daily_total (snd r 0%nat) = 25.0 /\ daily_total (snd r 1%nat) = 0).
Proof.
  destruct daily_total_and_balance_frame
    as (Hinvest & _ & _ & Hstore & _ & _ & _ & Hdeposit & _ & Htransfer).
  split; [|split; [|split]].
  - rewrite Hdeposit; [reflexivity | vm_compute; reflexivity].
  - rewrite Hinvest. reflexivity.
  - destruct (Hstore 3%Z (Some "Ancient Relic") 2%N hero) as (_ & Hb & _).
    rewrite Hb. reflexivity.
  - cbv zeta.
    destruct (Htransfer guild_treasurer 6%Z 7%Z 0%nat 1%nat 25.0 heroes) as [Hf Ht].
    + vm_compute. reflexivity.
    + rewrite Hf, Ht by discriminate. split; reflexivity.
Defined.

(** * The history is a bounded queue *)

Lemma last_n_all {A : Type} (n : nat) (l : list A) :
  (List.length l <= n)%nat -> last_n n l = l.
Proof.
  intros H. unfold last_n. replace (List.length l - n)%nat with 0%nat by lia.
  reflexivity.
Qed.

Lemma last_n_length {A : Type} (n : nat) (l : list A) :
  (List.length (last_n n l) <= n)%nat.
Proof. unfold last_n. rewrite length_skipn. lia. Qed.

Lemma last_n_app {A : Type} (n : nat) (l r : list A) :
  last_n n (last_n n l ++ r) = last_n n (l ++ r).
Proof.
  destruct (Nat.le_gt_cases (List.length l) n) as [H|H].
  - rewrite (last_n_all n l H). reflexivity.
  - unfold last_n. rewrite !length_app, length_skipn.
    replace (List.length l - (List.length l - n) + List.length r - n)%nat
      with (List.length r) by lia.
    replace (List.length l + List.length r - n)%nat
      with (List.length r + (List.length l - n))%nat by lia.
    rewrite <- skipn_skipn. f_equal.
    rewrite skipn_app.
    replace (List.length l - n - List.length l)%nat with 0%nat by lia.
    reflexivity.
Qed.

Lemma add_history_history (now : time_t) (a : Account) (description : string)
    (amount : double) :
  history (account_add_history now a description amount)
  = if (history_count a <? MAX_TRANSACTION_HISTORY)%nat
    then history a ++ [history_entry a (now, description, amount)]
    else firstn (MAX_TRANSACTION_HISTORY - 1) (skipn 1 (history a))
         ++ [history_entry a (now, description, amount)].
Proof. unfold account_add_history. guards; reflexivity. Qed.

Lemma add_history_last_n (now : time_t) (a : Account) (description : string)
    (amount : double) :
  history_within_capacity a ->
  history (account_add_history now a description amount)
  = last_n MAX_TRANSACTION_HISTORY
      (history a ++ [history_entry a (now, description, amount)]).
Proof.
  unfold history_within_capacity, history_count, MAX_TRANSACTION_HISTORY. intros Hcap.
  rewrite add_history_history. unfold history_count, MAX_TRANSACTION_HISTORY.
  destruct (Nat.ltb_spec (List.length (history a)) 64) as [Hlt|Hge].
  - rewrite last_n_all; [reflexivity|]. rewrite length_app. cbn [List.length]. lia.
  - unfold last_n. rewrite length_app. cbn [List.length].
    replace (List.length (history a) + 1 - 64)%nat with 1%nat by lia.
    rewrite skipn_app.
    replace (1 - List.length (history a))%nat with 0%nat by lia.
    rewrite skipn_O. f_equal.
    apply firstn_all2. rewrite length_skipn. lia.
Qed.

Lemma history_entry_add_history (now : time_t) (a : Account) (description : string)
    (amount : double) (e : time_t * string * double) :
  history_entry (account_add_history now a description amount) e = history_entry a e.
Proof.
  destruct e as [[now' description'] amount']. unfold history_entry.
  rewrite add_history_balance. reflexivity.
Qed.

Lemma add_entries_history (entries : list (time_t * string * double)) :
  forall a, history_within_capacity a ->
    history_within_capacity (add_entries a entries)
    /\ history (add_entries a entries)
       = last_n MAX_TRANSACTION_HISTORY (history a ++ map (history_entry a) entries).
Proof.
  induction entries as [|[[now description] amount] entries IH]; intros a Hcap.
  - cbn [add_entries map]. rewrite app_nil_r. split; [exact Hcap|].
    symmetry. apply last_n_all. exact Hcap.
  - cbn [add_entries map].
    assert (Hcap' : history_within_capacity (account_add_history now a description amount)).
    { unfold history_within_capacity, history_count.
      rewrite (add_history_last_n now a description amount Hcap). apply last_n_length. }
    destruct (IH _ Hcap') as [Hc Hh]. split; [exact Hc|].
    rewrite Hh, (add_history_last_n now a description amount Hcap), last_n_app.
    rewrite <- app_assoc. cbn [app]. do 3 f_equal.
    apply map_ext. intros e. apply history_entry_add_history.
Qed.

Lemma add_history_capacity (now : time_t) (a : Account) (description : string)
    (amount : double) :
  history_within_capacity a ->
  history_within_capacity (account_add_history now a description amount).
Proof.
  intros Hcap. unfold history_within_capacity, history_count.
  rewrite (add_history_last_n now a description amount Hcap). apply last_n_length.
Qed.

(** Whatever else a call writes, its history entries go through
    [account_add_history]. *)
Ltac capacity :=
  repeat first
    [ assumption
    | apply add_history_capacity
    | match goal with
      | |- history_within_capacity (set_balance ?a _) =>
          change (history_within_capacity a)
      | |- history_within_capacity (set_investment_balance ?a _) =>
          change (history_within_capacity a)
      | |- history_within_capacity (set_daily_total ?a _) =>
          change (history_within_capacity a)
      | |- history_within_capacity (set_items ?a _) =>
          change (history_within_capacity a)
      end ].

Lemma exec_history_capacity (op : Operation) (h : Heap) :
  (forall q, history_within_capacity (h q)) ->
  forall q, history_within_capacity (snd (exec op h) q).
Proof.
  intros Hh.
  destruct op as [service p amount now | service p amount now
                 | service from to amount now_from now_to
                 | service p amount now | service p now | service p amount now
                 | p name quantity now | p name quantity now | p];
    cbn [exec snd];
    try (apply on_account_pointwise; [|exact Hh]; intros a Ha);
    try (apply heap_set_pointwise; [exact Hh|]; pose proof (Hh p) as Ha).
  - unfold service_deposit.
    destruct (enforce_amount amount); [|exact Ha].
    destruct (enforce_daily service a amount); [|exact Ha].
    destruct (apply_fee service amount (deposit_fee service)); [|exact Ha].
    cbn [snd]. capacity.
  - unfold service_withdraw.
    destruct (enforce_amount amount); [|exact Ha].
    destruct (enforce_daily service a amount); [|exact Ha].
    destruct (apply_fee service amount (withdrawal_fee service)); [|exact Ha].
    destruct (balance a <? _); cbn [snd]; capacity.
  - apply service_transfer_pointwise; intros; capacity. apply Hh.
  - unfold service_invest. guards; cbn [snd]; capacity.
  - unfold service_apply_investment_yield. guards; capacity.
  - unfold service_withdraw_investment. guards; cbn [snd]; capacity.
  - unfold service_store_item.
    destruct name as [item|]; [|exact Ha].
    destruct (account_find_item a (Some item)); guards; cbn [snd]; capacity.
  - unfold service_retrieve_item.
    destruct name as [item|]; [|exact Ha].
    destruct (account_find_item a (Some item)); guards; cbn [snd]; capacity.
  - unfold service_reset_daily. capacity.
Qed.

(** C7. The history of an account never holds more than 64 entries:
    [account_reset] empties it and every call keeps it within 64.  On such
    an account, below 64 entries an append adds the new entry at the end; at
    64 entries exactly the oldest one is dropped, the other 63 keep their
    order and the new entry comes last.  After any sequence of appends the
    history is the last 64 of all the entries, in order: entry 65 evicts
    entry 1. *)
Theorem history_is_a_bounded_queue :
  (forall owner initial_balance,
      history_count (account_reset owner initial_balance) = 0%nat)
  /\ (forall op h,
        (forall q, (history_count (h q) <= 64)%nat) ->
        forall q, (history_count (snd (exec op h) q) <= 64)%nat)
  /\ (forall a now description amount,
        (history_count a <= 64)%nat ->
        let a' := account_add_history now a description amount in
        let entry := history_entry a (now, description, amount) in
        (history_count a' <= 64)%nat
        /\ ((history_count a < 64)%nat -> history a' = history a ++ [entry])
        /\ (history_count a = 64%nat -> history a' = tl (history a) ++ [entry]))
  /\ (forall a entries,
        (history_count a <= 64)%nat ->
        (history_count (add_entries a entries) <= 64)%nat
        /\ history (add_entries a entries)
           = last_n 64 (history a ++ map (history_entry a) entries)).
Proof.
  split; [reflexivity|]. split; [exact exec_history_capacity|]. split.
  - intros a now description amount Hcap. cbv zeta.
    split; [|split].
    + exact (add_history_capacity now a description amount Hcap).
    + intros Hlt. rewrite add_history_history.
      apply Nat.ltb_lt in Hlt. unfold MAX_TRANSACTION_HISTORY. rewrite Hlt. reflexivity.
    + intros Heq. rewrite add_history_history. unfold MAX_TRANSACTION_HISTORY.
      rewrite Heq. cbn [Nat.ltb Nat.leb Nat.sub]. f_equal.
      assert (Hs : skipn 1 (history a) = tl (history a)) by (destruct (history a); reflexivity).
      rewrite Hs. apply firstn_all2.
      unfold history_count in Heq. destruct (history a); cbn [tl List.length] in *; lia.
  - intros a entries Hcap. exact (add_entries_history entries a Hcap).
Qed.

(** C7 from a fresh account: after 65 appends stamped 1 to 65 the history
    holds the 64 entries stamped 2 to 65. *)
Lemma history_is_a_bounded_queue_witness :
  (history_count (add_entries hero (numbered_entries 65)) <= 64)%nat
  /\ map entry_timestamp (history (add_entries hero (numbered_entries 65)))
     = map Z.of_nat (seq 2 64).
Proof.
  destruct history_is_a_bounded_queue as (_ & _ & _ & H).
  assert (Hcap : (history_count hero <= 64)%nat) by (vm_compute; lia).
  destruct (H hero (numbered_entries 65) Hcap) as [Hc Hh].
  split; [exact Hc|]. rewrite Hh. vm_compute. reflexivity.
Defined.

(** * Item storage: the lookup *)

Lemma find_item_from_spec (slots : list Item) (name : string) :
  forall i,
    match find_item_from i slots name with
    | Some index =>
        exists pre x rest,
          slots = pre ++ x :: rest /\ index = (i + List.length pre)%nat
          /\ item_name x = name
          /\ Forall (fun slot => item_name slot <> name) pre
    | None => Forall (fun slot => item_name slot <> name) slots
    end.
Proof.
  induction slots as [|slot slots IH]; intros i; cbn [find_item_from].
  - constructor.
  - destruct (String.eqb_spec (item_name slot) name) as [E|E].
    + exists [], slot, slots. cbn [List.length app].
      repeat split; [lia | exact E | constructor].
    + specialize (IH (S i)). destruct (find_item_from (S i) slots name).
      * destruct IH as (pre & x & rest & -> & -> & Hx & Hpre).
        exists (slot :: pre), x, rest. cbn [List.length app].
        repeat split; [lia | exact Hx | constructor; assumption].
      * constructor; assumption.
Qed.

Lemma find_item_from_first (pre rest : list Item) (x : Item) (name : string) (i : nat) :
  Forall (fun slot => item_name slot <> name) pre -> item_name x = name ->
  find_item_from i (pre ++ x :: rest) name = Some (i + List.length pre)%nat.
Proof.
  intros Hpre Hx. revert i.
  induction Hpre as [|slot pre Hslot Hpre IH]; intros i; cbn [find_item_from app List.length].
  - rewrite Hx, String.eqb_refl. f_equal. lia.
  - destruct (String.eqb_spec (item_name slot) name) as [E|E]; [contradiction|].
    rewrite IH. f_equal. lia.
Qed.

Lemma find_item_from_absent (slots : list Item) (name : string) (i : nat) :
  Forall (fun slot => item_name slot <> name) slots ->
  find_item_from i slots name = None.
Proof.
  intros H. revert i.
  induction H as [|slot slots Hslot H IH]; intros i; cbn [find_item_from]; [reflexivity|].
  destruct (String.eqb_spec (item_name slot) name) as [E|E]; [contradiction|]. apply IH.
Qed.

(** X1. [account_find_item] returns the index of the first slot whose name
    equals the name asked for: an index below [item_count], with that name,
    and no slot before it has the name.  It returns [SIZE_MAX] ([None])
    exactly when no slot has the name, and always for a NULL name. *)
Theorem account_find_item_first_match (a : Account) :
  account_find_item a None = None
  /\ (forall name index,
        account_find_item a (Some name) = Some index
        <-> (index < item_count a)%nat
            /\ item_name (array_get (items a) index) = name
            /\ forall j, (j < index)%nat -> item_name (array_get (items a) j) <> name)
  /\ (forall name,
        account_find_item a (Some name) = None
        <-> forall slot, In slot (items a) -> item_name slot <> name).
Proof.
  split; [reflexivity|]. unfold account_find_item, item_count. split.
  - intros name index. split.
    + intros H. pose proof (find_item_from_spec (items a) name 0) as S.
      rewrite H in S. destruct S as (pre & x & rest & -> & -> & Hx & Hpre).
      cbn [Nat.add]. rewrite array_get_middle, length_app. cbn [List.length].
      split; [lia|]. split; [exact Hx|].
      intros j Hj. unfold array_get. rewrite app_nth1 by exact Hj.
      rewrite Forall_forall in Hpre. apply Hpre, nth_In, Hj.
    + intros (Hlt & Hname & Hfirst).
      pose proof (find_item_from_spec (items a) name 0) as S.
      destruct (find_item_from 0 (items a) name) as [i|].
      * destruct S as (pre & x & rest & E & -> & Hx & Hpre). cbn [Nat.add].
        f_equal. rewrite E in Hname, Hfirst.
        destruct (Nat.lt_trichotomy (List.length pre) index) as [L|[L|L]]; [|exact L|].
        -- exfalso. apply (Hfirst _ L). rewrite array_get_middle. exact Hx.
        -- exfalso. rewrite Forall_forall in Hpre.
           apply (Hpre (array_get (pre ++ x :: rest) index)); [|exact Hname].
           unfold array_get. rewrite app_nth1 by exact L. apply nth_In, L.
      * exfalso. rewrite Forall_forall in S.
        apply (S (array_get (items a) index)); [|exact Hname].
        apply nth_In, Hlt.
  - intros name. split.
    + intros H. pose proof (find_item_from_spec (items a) name 0) as S.
      rewrite H in S. rewrite Forall_forall in S. exact S.
    + intros H. apply find_item_from_absent. apply Forall_forall. exact H.
Qed.

(** * Item storage: what each call does to the slots *)

Lemma add_history_set_items (now : time_t) (a : Account) (slots : list Item)
    (description : string) (amount : double) :
  account_add_history now (set_items a slots) description amount
  = set_items (account_add_history now a description amount) slots.
Proof. unfold account_add_history, history_count. cbn [history set_items]. guards; reflexivity. Qed.

Lemma service_store_item_cases (now : time_t) (item : string) (quantity : size_t)
    (a : Account) :
  let r := service_store_item now (Some item) quantity a in
  match account_find_item a (Some item) with
  | Some index =>
      exists pre x rest,
        items a = pre ++ x :: rest /\ index = List.length pre /\ item_name x = item
        /\ Forall (fun slot => item_name slot <> item) pre
        /\ r = if (quantity =? 0)%N then (Err ErrInvalidStorage, a)
               else if (BANK_MAX_ITEM_QUANTITY <? quantity)%N
               then (Err (ErrQuantityLimit quantity), a)
               else if (BANK_MAX_ITEM_QUANTITY <? size_add (item_quantity x) quantity)%N
               then (Err ErrTotalQuantity, a)
               else (OK, item_call_result now a "Item Stored" (double_of_size_t quantity)
                           (pre ++ mkItem item (size_add (item_quantity x) quantity) :: rest))
  | None =>
      Forall (fun slot => item_name slot <> item) (items a)
      /\ r = if (quantity =? 0)%N then (Err ErrInvalidStorage, a)
             else if (BANK_MAX_ITEM_QUANTITY <? quantity)%N
             then (Err (ErrQuantityLimit quantity), a)
             else if (MAX_ITEMS <=? item_count a)%nat then (Err ErrVaultFull, a)
             else (OK, item_call_result now a "Item Stored" (double_of_size_t quantity)
                         (items a ++ [mkItem (snprintf_s MAX_ITEM_NAME item) quantity]))
  end.
Proof.
  cbv zeta. unfold service_store_item, item_call_result.
  pose proof (find_item_from_spec (items a) item 0) as S.
  unfold account_find_item.
  destruct (find_item_from 0 (items a) item) as [index|] eqn:Hfind.
  - destruct S as (pre & x & rest & Hitems & -> & Hx & Hpre). cbn [Nat.add].
    exists pre, x, rest. repeat split; try assumption.
    destruct (quantity =? 0)%N; [reflexivity|].
    destruct (BANK_MAX_ITEM_QUANTITY <? quantity)%N; [reflexivity|].
    rewrite Hitems, array_get_middle.
    destruct (BANK_MAX_ITEM_QUANTITY <? size_add _ _)%N; [reflexivity|].
    rewrite array_set_middle, Hx, add_history_set_items. reflexivity.
  - split; [exact S|].
    destruct (quantity =? 0)%N; [reflexivity|].
    destruct (BANK_MAX_ITEM_QUANTITY <? quantity)%N eqn:H999; [reflexivity|].
    destruct (MAX_ITEMS <=? item_count a)%nat; [reflexivity|].
    cbn [items set_items].
    rewrite (new_slot_total a item quantity H999), H999.
    unfold item_count. rewrite array_get_last, array_set_last. cbn [item_name].
    rewrite !add_history_set_items. reflexivity.
Qed.

Lemma service_retrieve_item_cases (now : time_t) (item : string) (quantity : size_t)
    (a : Account) :
  let r := service_retrieve_item now (Some item) quantity a in
  match account_find_item a (Some item) with
  | Some index =>
      exists pre x rest,
        items a = pre ++ x :: rest /\ index = List.length pre /\ item_name x = item
        /\ Forall (fun slot => item_name slot <> item) pre
        /\ r = if (quantity =? 0)%N then (Err ErrInvalidRetrieval, a)
               else if (item_quantity x <? quantity)%N
               then (Err (ErrOnlyStored (item_quantity x) item), a)
               else (OK, item_call_result now a "Item Retrieved"
                           (- double_of_size_t quantity)
                           (if (size_sub (item_quantity x) quantity =? 0)%N
                            then pre ++ rest
                            else pre ++ mkItem item (size_sub (item_quantity x) quantity)
                                        :: rest))
  | None =>
      Forall (fun slot => item_name slot <> item) (items a)
      /\ r = if (quantity =? 0)%N then (Err ErrInvalidRetrieval, a)
             else (Err (ErrItemNotFound item), a)
  end.
Proof.
  cbv zeta. unfold service_retrieve_item, item_call_result.
  pose proof (find_item_from_spec (items a) item 0) as S.
  unfold account_find_item.
  destruct (find_item_from 0 (items a) item) as [index|] eqn:Hfind.
  - destruct S as (pre & x & rest & Hitems & -> & Hx & Hpre). cbn [Nat.add].
    exists pre, x, rest. repeat split; try assumption.
    destruct (quantity =? 0)%N; [reflexivity|].
    rewrite Hitems, array_get_middle.
    destruct (item_quantity x <? quantity)%N; [reflexivity|].
    frame. rewrite array_set_middle, array_get_middle. cbn [item_quantity].
    rewrite Hx, add_history_set_items.
    destruct (size_sub (item_quantity x) quantity =? 0)%N; [|reflexivity].
    unfold item_count. frame. rewrite shift_items_removes.
    f_equal.
  - split; [exact S|].
    destruct (quantity =? 0)%N; reflexivity.
Qed.

(** * The vault stays within its bounds *)

Lemma substring_0_length (n : nat) :
  forall s, String.length (substring 0 n s) = Nat.min n (String.length s).
Proof.
  induction n as [|n IH]; intros s.
  - destruct s; reflexivity.
  - destruct s as [|c s]; [reflexivity|].
    cbn [substring String.length]. rewrite IH. reflexivity.
Qed.

Lemma substring_0_all (n : nat) :
  forall s, (String.length s <= n)%nat -> substring 0 n s = s.
Proof.
  induction n as [|n IH]; intros s H.
  - destruct s; [reflexivity | cbn [String.length] in H; lia].
  - destruct s as [|c s]; [reflexivity|].
    cbn [substring]. rewrite IH; [reflexivity | cbn [String.length] in H; lia].
Qed.

Lemma substring_0_prefix (n : nat) :
  forall s, prefix (substring 0 n s) s = true.
Proof.
  induction n as [|n IH]; intros s.
  - destruct s; reflexivity.
  - destruct s as [|c s]; [reflexivity|].
    cbn [substring prefix]. destruct (Ascii.ascii_dec c c); [apply IH | congruence].
Qed.

Lemma snprintf_s_length (size : nat) (s : string) :
  String.length (snprintf_s size s) = Nat.min (size - 1) (String.length s).
Proof. apply substring_0_length. Qed.

Lemma snprintf_s_fits (size : nat) (s : string) :
  (String.length s < size)%nat -> snprintf_s size s = s.
Proof. intros H. apply substring_0_all. lia. Qed.

Lemma size_add_small (s q : size_t) :
  (s <= BANK_MAX_ITEM_QUANTITY)%N -> (q <= BANK_MAX_ITEM_QUANTITY)%N ->
  size_add s q = (s + q)%N.
Proof.
  unfold size_add, SIZE_MODULUS, BANK_MAX_ITEM_QUANTITY. intros Hs Hq.
  apply N.mod_small.
  apply N.le_lt_trans with (999 + 999)%N; [lia | reflexivity].
Qed.

Lemma size_sub_small (s q : size_t) :
  (q <= s)%N -> (s <= BANK_MAX_ITEM_QUANTITY)%N -> size_sub s q = (s - q)%N.
Proof.
  unfold size_sub, SIZE_MODULUS, BANK_MAX_ITEM_QUANTITY. intros Hq Hs.
  assert (H64 : (999 < 2 ^ 64)%N) by reflexivity.
  rewrite (N.mod_small q) by lia.
  replace (s + 2 ^ 64 - q)%N with (s - q + 1 * 2 ^ 64)%N by lia.
  rewrite N.Div0.mod_add. apply N.mod_small. lia.
Qed.

(** A property of accounts that depends on the items alone. *)
Lemma exec_items_pointwise (P : list Item -> Prop) (op : Operation) (h : Heap) :
  (forall p now name quantity a,
     op = StoreItem p name quantity now ->
     P (items a) -> P (items (snd (service_store_item now name quantity a)))) ->
  (forall now name quantity a,
     P (items a) -> P (items (snd (service_retrieve_item now name quantity a)))) ->
  (forall q, P (items (h q))) -> forall q, P (items (snd (exec op h) q)).
Proof.
  intros Hstore Hretrieve Hh.
  destruct op as [service p amount now | service p amount now
                 | service from to amount now_from now_to
                 | service p amount now | service p now | service p amount now
                 | p name quantity now | p name quantity now | p];
    cbn [exec snd];
    try (apply (on_account_pointwise (fun a => P (items a))); [|exact Hh]; intros a Ha);
    try (apply (heap_set_pointwise (fun a => P (items a))); [exact Hh|];
         pose proof (Hh p) as Ha).
  - unfold service_deposit.
    destruct (enforce_amount amount); [|exact Ha].
    destruct (enforce_daily service a amount); [|exact Ha].
    destruct (apply_fee service amount (deposit_fee service)); [|exact Ha].
    cbn [snd]. frame. exact Ha.
  - unfold service_withdraw.
    destruct (enforce_amount amount); [|exact Ha].
    destruct (enforce_daily service a amount); [|exact Ha].
    destruct (apply_fee service amount (withdrawal_fee service)); [|exact Ha].
    destruct (balance a <? _); cbn [snd]; frame; exact Ha.
  - apply (service_transfer_pointwise (fun a => P (items a))); intros; frame; auto.
  - unfold service_invest. guards; cbn [snd]; frame; exact Ha.
  - unfold service_apply_investment_yield. guards; frame; exact Ha.
  - unfold service_withdraw_investment. guards; cbn [snd]; frame; exact Ha.
  - apply (Hstore p now name quantity a eq_refl), Ha.
  - apply Hretrieve, Ha.
  - exact Ha.
Qed.

Lemma drive_pointwise (P : Account -> Prop) :
  (forall op h, (forall q, P (h q)) -> forall q, P (snd (exec op h) q)) ->
  forall ops h, (forall q, P (h q)) -> forall q, P (drive ops h q).
Proof.
  intros Hexec ops. unfold drive.
  induction ops as [|op ops IH]; intros h Hh; cbn [fold_left]; [exact Hh|].
  apply IH. apply Hexec. exact Hh.
Qed.

Lemma item_call_result_items now a description amount slots :
  items (item_call_result now a description amount slots) = slots.
Proof. reflexivity. Qed.

Lemma service_store_item_vault_ok now name quantity a :
  vault_slots_ok (items a) ->
  vault_slots_ok (items (snd (service_store_item now name quantity a))).
Proof.
  intros Hok. destruct name as [item|]; [|exact Hok].
  pose proof (service_store_item_cases now item quantity a) as C. cbv zeta in C.
  destruct Hok as (Hcount & Hq & Hn).
  destruct (account_find_item a (Some item)).
  - destruct C as (pre & x & rest & Hitems & _ & Hx & _ & ->).
    destruct (N.eqb_spec quantity 0); [repeat split; assumption|].
    destruct (N.ltb_spec BANK_MAX_ITEM_QUANTITY quantity); [repeat split; assumption|].
    rewrite Hitems in Hcount, Hq, Hn.
    apply Forall_app in Hq as [Hq1 Hq2]. apply Forall_app in Hn as [Hn1 Hn2].
    inversion Hq2 as [|? ? Hqx Hqr]; subst. inversion Hn2 as [|? ? Hnx Hnr]; subst.
    unfold quantity_in_range in Hqx.
    rewrite (size_add_small (item_quantity x) quantity) by lia.
    destruct (N.ltb_spec BANK_MAX_ITEM_QUANTITY (item_quantity x + quantity));
      cbn [snd]; [rewrite Hitems; repeat split; try assumption;
                  apply Forall_app; split; try assumption; constructor; assumption|].
    rewrite item_call_result_items. repeat split.
    + rewrite length_app in *. exact Hcount.
    + apply Forall_app; split; [assumption|]. constructor; [|assumption].
      unfold quantity_in_range. cbn [item_quantity]. lia.
    + apply Forall_app; split; [assumption|]. constructor; assumption.
  - destruct C as (_ & ->).
    destruct (N.eqb_spec quantity 0); [repeat split; assumption|].
    destruct (N.ltb_spec BANK_MAX_ITEM_QUANTITY quantity); [repeat split; assumption|].
    unfold item_count in *.
    destruct (Nat.leb_spec MAX_ITEMS (List.length (items a))); [repeat split; assumption|].
    cbn [snd]. rewrite item_call_result_items. repeat split.
    + rewrite length_app. cbn [List.length]. lia.
    + apply Forall_app; split; [assumption|]. constructor; [|constructor].
      unfold quantity_in_range. cbn [item_quantity]. lia.
    + apply Forall_app; split; [assumption|]. constructor; [|constructor].
      unfold name_fits. cbn [item_name]. rewrite snprintf_s_length.
      unfold MAX_ITEM_NAME. lia.
Qed.

Lemma service_retrieve_item_vault_ok now name quantity a :
  vault_slots_ok (items a) ->
  vault_slots_ok (items (snd (service_retrieve_item now name quantity a))).
Proof.
  intros Hok. destruct name as [item|]; [|exact Hok].
  pose proof (service_retrieve_item_cases now item quantity a) as C. cbv zeta in C.
  destruct Hok as (Hcount & Hq & Hn).
  destruct (account_find_item a (Some item)).
  - destruct C as (pre & x & rest & Hitems & _ & Hx & _ & ->).
    destruct (N.eqb_spec quantity 0); [repeat split; assumption|].
    destruct (N.ltb_spec (item_quantity x) quantity); [repeat split; assumption|].
    cbn [snd]. rewrite item_call_result_items.
    rewrite Hitems in Hcount, Hq, Hn.
    apply Forall_app in Hq as [Hq1 Hq2]. apply Forall_app in Hn as [Hn1 Hn2].
    inversion Hq2 as [|? ? Hqx Hqr]; subst. inversion Hn2 as [|? ? Hnx Hnr]; subst.
    unfold quantity_in_range in Hqx.
    rewrite (size_sub_small (item_quantity x) quantity) by lia.
    rewrite length_app in Hcount. cbn [List.length] in Hcount.
    destruct (N.eqb_spec (item_quantity x - quantity) 0); repeat split.
    + rewrite length_app. lia.
    + apply Forall_app; split; assumption.
    + apply Forall_app; split; assumption.
    + rewrite length_app. cbn [List.length]. lia.
    + apply Forall_app; split; [assumption|]. constructor; [|assumption].
      unfold quantity_in_range. cbn [item_quantity]. lia.
    + apply Forall_app; split; [assumption|]. constructor; assumption.
  - destruct C as (_ & ->). destruct (quantity =? 0)%N; repeat split; assumption.
Qed.

Lemma exec_vault_ok (op : Operation) (h : Heap) :
  (forall q, vault_ok (h q)) -> forall q, vault_ok (snd (exec op h) q).
Proof.
  apply (exec_items_pointwise vault_slots_ok).
  - intros; apply service_store_item_vault_ok; assumption.
  - apply service_retrieve_item_vault_ok.
Qed.

Lemma account_reset_vault_ok (o : option string) (b : double) :
  vault_ok (account_reset o b).
Proof.
  unfold vault_ok, item_count, account_reset, MAX_ITEMS. cbn [items List.length].
  repeat split; [lia | constructor | constructor].
Qed.

Lemma fresh_heap_vault_ok (h : Heap) : fresh_heap h -> forall q, vault_ok (h q).
Proof. intros H q. destruct (H q) as (o & b & ->). apply account_reset_vault_ok. Qed.

(** X2. Whatever calls are made on accounts that [account_reset] created,
    failing ones included, every account holds at most [MAX_ITEMS] (32)
    slots, every slot holds between 1 and 999 units, and every slot name is
    shorter than [MAX_ITEM_NAME] (at most 47 characters): no call writes past
    the [items] array, leaves an empty slot behind or overfills one. *)
Theorem vault_stays_within_bounds (h : Heap) (calls : list Operation) (p : Ptr) :
  fresh_heap h ->
  (item_count (drive calls h p) <= MAX_ITEMS)%nat
  /\ (forall slot, In slot (items (drive calls h p)) ->
        (1 <= item_quantity slot <= BANK_MAX_ITEM_QUANTITY)%N
        /\ (String.length (item_name slot) < MAX_ITEM_NAME)%nat).
Proof.
  intros Hfresh.
  destruct (drive_pointwise vault_ok exec_vault_ok calls h
              (fresh_heap_vault_ok h Hfresh) p) as (Hc & Hq & Hn).
  split; [exact Hc|]. intros slot Hin.
  rewrite Forall_forall in Hq, Hn. split; [apply Hq | apply Hn]; exact Hin.
Qed.

Lemma vault_stays_within_bounds_witness :
  (item_count (drive demo_calls heroes 0%nat) <= MAX_ITEMS)%nat
  /\ (forall slot, In slot (items (drive demo_calls heroes 0%nat)) ->
        (1 <= item_quantity slot <= BANK_MAX_ITEM_QUANTITY)%N
        /\ (String.length (item_name slot) < MAX_ITEM_NAME)%nat).
Proof. exact (vault_stays_within_bounds heroes demo_calls 0%nat heroes_fresh). Defined.

(** X3. [service_store_item] succeeds exactly when the name is not NULL,
    the quantity is between 1 and 999 and either a slot has the name and its
    quantity plus the request (a [size_t] sum) is at most 999, or no slot has
    it and fewer than [MAX_ITEMS] slots are in use.  On success the slot of
    that name holds the sum, in place, or a new last slot holds the name cut
    to 47 characters with the requested quantity; the history gets one
    "Item Stored" entry whose amount is the quantity. *)
Theorem store_item_succeeds_iff
    (now : time_t) (name : option string) (quantity : size_t) (a : Account) :
  let r := service_store_item now name quantity a in
  (fst r = OK
   <-> exists item,
         name = Some item
         /\ (1 <= quantity <= BANK_MAX_ITEM_QUANTITY)%N
         /\ match account_find_item a (Some item) with
            | Some index =>
                (size_add (item_quantity (array_get (items a) index)) quantity
                 <= BANK_MAX_ITEM_QUANTITY)%N
            | None => (item_count a < MAX_ITEMS)%nat
            end)
  /\ (forall item, name = Some item -> fst r = OK ->
        items (snd r)
        = match account_find_item a (Some item) with
          | Some index =>
              array_set (items a) index
                (mkItem item
                   (size_add (item_quantity (array_get (items a) index)) quantity))
          | None => items a ++ [mkItem (snprintf_s MAX_ITEM_NAME item) quantity]
          end
        /\ history (snd r)
           = history (account_add_history now a "Item Stored"
                        (double_of_size_t quantity))).
Proof.
  cbv zeta. destruct name as [item|].
  2:{ split; [|discriminate]. cbn. split; [discriminate|]. intros (item & H & _). discriminate. }
  pose proof (service_store_item_cases now item quantity a) as C. cbv zeta in C.
  destruct (account_find_item a (Some item)) as [index|] eqn:Hfind.
  - destruct C as (pre & x & rest & Hitems & -> & Hx & _ & ->).
    rewrite Hitems.
    split.
    + split.
      * intros H. exists item. split; [reflexivity|]. rewrite Hfind, array_get_middle.
        destruct (N.eqb_spec quantity 0); [discriminate|].
        destruct (N.ltb_spec BANK_MAX_ITEM_QUANTITY quantity); [discriminate|].
        destruct (N.ltb_spec BANK_MAX_ITEM_QUANTITY (size_add (item_quantity x) quantity));
          [discriminate|]. lia.
      * intros (item' & [= <-] & Hq & H). rewrite Hfind, array_get_middle in H.
        destruct (N.eqb_spec quantity 0); [lia|].
        destruct (N.ltb_spec BANK_MAX_ITEM_QUANTITY quantity); [lia|].
        destruct (N.ltb_spec BANK_MAX_ITEM_QUANTITY (size_add (item_quantity x) quantity));
          [lia|]. reflexivity.
    + intros item' [= <-]. rewrite Hfind, array_get_middle, array_set_middle.
      destruct (quantity =? 0)%N; [discriminate|].
      destruct (BANK_MAX_ITEM_QUANTITY <? quantity)%N; [discriminate|].
      destruct (BANK_MAX_ITEM_QUANTITY <? size_add (item_quantity x) quantity)%N;
        [discriminate|].
      intros _. cbn [snd]. split; reflexivity.
  - destruct C as (_ & ->). unfold item_count. split.
    + split.
      * intros H. exists item. split; [reflexivity|]. rewrite Hfind.
        destruct (N.eqb_spec quantity 0); [discriminate|].
        destruct (N.ltb_spec BANK_MAX_ITEM_QUANTITY quantity); [discriminate|].
        destruct (Nat.leb_spec MAX_ITEMS (List.length (items a))); [discriminate|]. lia.
      * intros (item' & [= <-] & Hq & H). rewrite Hfind in H.
        destruct (N.eqb_spec quantity 0); [lia|].
        destruct (N.ltb_spec BANK_MAX_ITEM_QUANTITY quantity); [lia|].
        destruct (Nat.leb_spec MAX_ITEMS (List.length (items a))); [lia|]. reflexivity.
    + intros item' [= <-]. rewrite Hfind.
      destruct (quantity =? 0)%N; [discriminate|].
      destruct (BANK_MAX_ITEM_QUANTITY <? quantity)%N; [discriminate|].
      destruct (MAX_ITEMS <=? List.length (items a))%nat; [discriminate|].
      intros _. cbn [snd]. split; reflexivity.
Qed.

(** X4. [service_retrieve_item] succeeds exactly when the name is not
    NULL, the quantity is not 0, a slot has the name and the first such slot
    holds at least the quantity.  On success that slot holds the difference,
    or, when the difference is 0, the slot is removed and the slots after it
    move down by one, in order; the history gets one "Item Retrieved" entry
    whose amount is minus the quantity.  A name that no slot has fails with
    the "not found" message and changes nothing. *)
Theorem retrieve_item_succeeds_iff
    (now : time_t) (name : option string) (quantity : size_t) (a : Account) :
  let r := service_retrieve_item now name quantity a in
  (fst r = OK
   <-> exists item index,
         name = Some item /\ quantity <> 0%N
         /\ account_find_item a (Some item) = Some index
         /\ (quantity <= item_quantity (array_get (items a) index))%N)
  /\ (forall item index,
        name = Some item -> account_find_item a (Some item) = Some index ->
        fst r = OK ->
        let left := size_sub (item_quantity (array_get (items a) index)) quantity in
        items (snd r)
        = (if (left =? 0)%N
           then firstn index (items a) ++ skipn (S index) (items a)
           else array_set (items a) index (mkItem item left))
        /\ history (snd r)
           = history (account_add_history now a "Item Retrieved"
                        (- double_of_size_t quantity)))
  /\ (forall item,
        name = Some item -> quantity <> 0%N -> account_find_item a (Some item) = None ->
        r = (Err (ErrItemNotFound item), a)).
Proof.
  cbv zeta. destruct name as [item|].
  2:{ split; [|split; discriminate]. cbn. split; [discriminate|].
      intros (item & index & H & _). discriminate. }
  pose proof (service_retrieve_item_cases now item quantity a) as C. cbv zeta in C.
  destruct (account_find_item a (Some item)) as [index|] eqn:Hfind.
  - destruct C as (pre & x & rest & Hitems & -> & Hx & _ & ->).
    split; [|split; [|intros item' [= <-] _ Hf; rewrite Hfind in Hf; discriminate]].
    + split.
      * intros H. exists item, (List.length pre). rewrite Hfind, Hitems, array_get_middle.
        destruct (N.eqb_spec quantity 0); [discriminate|].
        destruct (N.ltb_spec (item_quantity x) quantity); [discriminate|].
        repeat split; assumption.
      * intros (item' & index' & [= <-] & H0 & Hf & Hq).
        rewrite Hfind in Hf. injection Hf as <-.
        rewrite Hitems, array_get_middle in Hq.
        destruct (N.eqb_spec quantity 0); [contradiction|].
        destruct (N.ltb_spec (item_quantity x) quantity); [lia|]. reflexivity.
    + intros item' index' [= <-]. rewrite Hfind. intros [= <-].
      rewrite Hitems, array_get_middle, array_set_middle.
      destruct (quantity =? 0)%N; [discriminate|].
      destruct (item_quantity x <? quantity)%N; [discriminate|].
      intros _. cbn [snd]. split; [|reflexivity].
      rewrite item_call_result_items.
      destruct (size_sub (item_quantity x) quantity =? 0)%N; [|reflexivity].
      rewrite firstn_app, firstn_all, Nat.sub_diag. cbn [firstn].
      rewrite app_nil_r. f_equal.
      change (S (List.length pre)) with (1 + List.length pre)%nat.
      rewrite <- skipn_skipn, skipn_app, skipn_all, Nat.sub_diag. reflexivity.
  - destruct C as (_ & ->).
    split; [|split; [intros item' index [= <-] Hf; rewrite Hfind in Hf; discriminate|]].
    + split.
      * destruct (quantity =? 0)%N; discriminate.
      * intros (item' & index & [= <-] & _ & Hf & _). rewrite Hfind in Hf. discriminate.
    + intros item' [= <-] H0 _. apply N.eqb_neq in H0. rewrite H0. reflexivity.
Qed.

(** * Storing, then looking up or retrieving *)

Lemma first_match_unique (name : string) (pre : list Item) :
  forall x rest pre' x' rest',
    pre ++ x :: rest = pre' ++ x' :: rest' ->
    Forall (fun slot => item_name slot <> name) pre -> item_name x = name ->
    Forall (fun slot => item_name slot <> name) pre' -> item_name x' = name ->
    pre = pre' /\ x = x' /\ rest = rest'.
Proof.
  induction pre as [|y pre IH]; intros x rest pre' x' rest' E Hpre Hx Hpre' Hx'.
  - destruct pre' as [|y' pre']; cbn [app] in E.
    + injection E as -> ->. auto.
    + injection E as -> _. inversion Hpre'; subst. contradiction.
  - destruct pre' as [|y' pre']; cbn [app] in E.
    + injection E as -> _. inversion Hpre; subst. contradiction.
    + injection E as -> E. inversion Hpre; subst. inversion Hpre'; subst.
      destruct (IH _ _ _ _ _ E) as (-> & -> & ->); auto.
Qed.

Lemma account_find_item_at (a : Account) (item : string) (pre rest : list Item) (x : Item) :
  items a = pre ++ x :: rest ->
  Forall (fun slot => item_name slot <> item) pre -> item_name x = item ->
  account_find_item a (Some item) = Some (List.length pre).
Proof.
  intros Hitems Hpre Hx. unfold account_find_item. rewrite Hitems.
  apply (find_item_from_first pre rest x item 0 Hpre Hx).
Qed.

Lemma account_find_item_absent (a : Account) (item : string) :
  Forall (fun slot => item_name slot <> item) (items a) ->
  account_find_item a (Some item) = None.
Proof. intros H. apply find_item_from_absent. exact H. Qed.

Lemma service_store_item_at now item quantity a pre x rest :
  items a = pre ++ x :: rest ->
  Forall (fun slot => item_name slot <> item) pre -> item_name x = item ->
  service_store_item now (Some item) quantity a
  = if (quantity =? 0)%N then (Err ErrInvalidStorage, a)
    else if (BANK_MAX_ITEM_QUANTITY <? quantity)%N
    then (Err (ErrQuantityLimit quantity), a)
    else if (BANK_MAX_ITEM_QUANTITY <? size_add (item_quantity x) quantity)%N
    then (Err ErrTotalQuantity, a)
    else (OK, item_call_result now a "Item Stored" (double_of_size_t quantity)
                (pre ++ mkItem item (size_add (item_quantity x) quantity) :: rest)).
Proof.
  intros Hitems Hpre Hx.
  pose proof (service_store_item_cases now item quantity a) as C. cbv zeta in C.
  rewrite (account_find_item_at a item pre rest x Hitems Hpre Hx) in C.
  destruct C as (pre' & x' & rest' & Hitems' & _ & Hx' & Hpre' & ->).
  rewrite Hitems in Hitems'.
  destruct (first_match_unique item pre x rest pre' x' rest' Hitems' Hpre Hx Hpre' Hx')
    as (-> & -> & ->).
  reflexivity.
Qed.

Lemma service_retrieve_item_at now item quantity a pre x rest :
  items a = pre ++ x :: rest ->
  Forall (fun slot => item_name slot <> item) pre -> item_name x = item ->
  service_retrieve_item now (Some item) quantity a
  = if (quantity =? 0)%N then (Err ErrInvalidRetrieval, a)
    else if (item_quantity x <? quantity)%N
    then (Err (ErrOnlyStored (item_quantity x) item), a)
    else (OK, item_call_result now a "Item Retrieved" (- double_of_size_t quantity)
                (if (size_sub (item_quantity x) quantity =? 0)%N
                 then pre ++ rest
                 else pre ++ mkItem item (size_sub (item_quantity x) quantity) :: rest)).
Proof.
  intros Hitems Hpre Hx.
  pose proof (service_retrieve_item_cases now item quantity a) as C. cbv zeta in C.
  rewrite (account_find_item_at a item pre rest x Hitems Hpre Hx) in C.
  destruct C as (pre' & x' & rest' & Hitems' & _ & Hx' & Hpre' & ->).
  rewrite Hitems in Hitems'.
  destruct (first_match_unique item pre x rest pre' x' rest' Hitems' Hpre Hx Hpre' Hx')
    as (-> & -> & ->).
  reflexivity.
Qed.

Lemma service_store_item_absent now item quantity a :
  Forall (fun slot => item_name slot <> item) (items a) ->
  service_store_item now (Some item) quantity a
  = if (quantity =? 0)%N then (Err ErrInvalidStorage, a)
    else if (BANK_MAX_ITEM_QUANTITY <? quantity)%N
    then (Err (ErrQuantityLimit quantity), a)
    else if (MAX_ITEMS <=? item_count a)%nat then (Err ErrVaultFull, a)
    else (OK, item_call_result now a "Item Stored" (double_of_size_t quantity)
                (items a ++ [mkItem (snprintf_s MAX_ITEM_NAME item) quantity])).
Proof.
  intros H.
  pose proof (service_store_item_cases now item quantity a) as C. cbv zeta in C.
  rewrite (account_find_item_absent a item H) in C. apply C.
Qed.

Lemma stored_quantity_at (a : Account) (item : string) (pre rest : list Item) (x : Item) :
  items a = pre ++ x :: rest ->
  Forall (fun slot => item_name slot <> item) pre -> item_name x = item ->
  stored_quantity a item = item_quantity x.
Proof.
  intros Hitems Hpre Hx. unfold stored_quantity.
  rewrite (account_find_item_at a item pre rest x Hitems Hpre Hx), Hitems, array_get_middle.
  reflexivity.
Qed.

Lemma stored_quantity_absent (a : Account) (item : string) :
  Forall (fun slot => item_name slot <> item) (items a) ->
  stored_quantity a item = 0%N.
Proof.
  intros H. unfold stored_quantity. rewrite (account_find_item_absent a item H). reflexivity.
Qed.

(** The first slot named [name], if any, splits the slots. *)
Lemma first_match_split (name : string) (slots : list Item) :
  Forall (fun slot => item_name slot <> name) slots
  \/ exists pre x rest,
       slots = pre ++ x :: rest
       /\ Forall (fun slot => item_name slot <> name) pre /\ item_name x = name.
Proof.
  pose proof (find_item_from_spec slots name 0) as S.
  destruct (find_item_from 0 slots name).
  - right. destruct S as (pre & x & rest & E & _ & Hx & Hpre). exists pre, x, rest. auto.
  - left. exact S.
Qed.

(** The quantity stored under [other] is read from the first slot of that
    name; it does not depend on the quantity of a slot of another name. *)
Lemma stored_quantity_update (a a' : Account) (pre rest : list Item) (x x' : Item)
    (other : string) :
  items a = pre ++ x :: rest -> items a' = pre ++ x' :: rest ->
  item_name x' = item_name x -> item_name x <> other ->
  stored_quantity a' other = stored_quantity a other.
Proof.
  intros Hitems Hitems' Hname Hother.
  destruct (first_match_split other pre) as [Hpre|(p1 & y & p2 & -> & Hp1 & Hy)].
  - destruct (first_match_split other rest) as [Hrest|(r1 & y & r2 & -> & Hr1 & Hy)].
    + rewrite !stored_quantity_absent; [reflexivity| |].
      * rewrite Hitems. apply Forall_app; split; [assumption|]. constructor; assumption.
      * rewrite Hitems'. apply Forall_app; split; [assumption|].
        constructor; [congruence | assumption].
    + rewrite (stored_quantity_at a other (pre ++ x :: r1) r2 y),
        (stored_quantity_at a' other (pre ++ x' :: r1) r2 y); try assumption; try reflexivity.
      * rewrite Hitems', <- app_assoc. reflexivity.
      * apply Forall_app; split; [assumption|]. constructor; [congruence | assumption].
      * rewrite Hitems, <- app_assoc. reflexivity.
      * apply Forall_app; split; [assumption|]. constructor; assumption.
  - rewrite (stored_quantity_at a other p1 (p2 ++ x :: rest) y),
      (stored_quantity_at a' other p1 (p2 ++ x' :: rest) y); try assumption; try reflexivity.
    + rewrite Hitems', <- app_assoc. reflexivity.
    + rewrite Hitems, <- app_assoc. reflexivity.
Qed.

Lemma stored_quantity_append (a a' : Account) (x : Item) (other : string) :
  items a' = items a ++ [x] -> item_name x <> other ->
  stored_quantity a' other = stored_quantity a other.
Proof.
  intros Hitems' Hother.
  destruct (first_match_split other (items a)) as [Habs|(p1 & y & p2 & E & Hp1 & Hy)].
  - rewrite !stored_quantity_absent; [reflexivity | exact Habs |].
    rewrite Hitems'. apply Forall_app; split; [assumption|]. constructor; [assumption|constructor].
  - rewrite (stored_quantity_at a other p1 p2 y E Hp1 Hy),
      (stored_quantity_at a' other p1 (p2 ++ [x]) y); try assumption; try reflexivity.
    rewrite Hitems', E, <- app_assoc. reflexivity.
Qed.

(** X5. After a successful [service_store_item] under a name of at most
    47 characters, on a vault within its bounds, [account_find_item] finds
    the name and the quantity stored under it is the former quantity (0 for a
    new name) plus the request; the quantity stored under every other name is
    what it was. *)
Theorem stored_item_is_found
    (now : time_t) (item : string) (quantity : size_t) (a : Account) :
  vault_ok a ->
  (String.length item < MAX_ITEM_NAME)%nat ->
  fst (service_store_item now (Some item) quantity a) = OK ->
  let a' := snd (service_store_item now (Some item) quantity a) in
  (exists index, account_find_item a' (Some item) = Some index)
  /\ stored_quantity a' item = (stored_quantity a item + quantity)%N
  /\ forall other, other <> item -> stored_quantity a' other = stored_quantity a other.
Proof.
  intros (Hcount & Hq & Hn) Hfits. cbv zeta.
  destruct (first_match_split item (items a)) as [Habs|(pre & x & rest & E & Hpre & Hx)].
  - rewrite (service_store_item_absent now item quantity a Habs).
    destruct (N.eqb_spec quantity 0); [discriminate|].
    destruct (N.ltb_spec BANK_MAX_ITEM_QUANTITY quantity); [discriminate|].
    destruct (MAX_ITEMS <=? item_count a)%nat; [discriminate|].
    intros _. cbn [snd]. rewrite (snprintf_s_fits _ _ Hfits).
    set (a' := item_call_result _ _ _ _ _).
    assert (Hitems' : items a' = items a ++ [mkItem item quantity]) by reflexivity.
    rewrite (account_find_item_at a' item (items a) [] (mkItem item quantity) Hitems' Habs eq_refl).
    rewrite (stored_quantity_at a' item (items a) [] (mkItem item quantity) Hitems' Habs eq_refl).
    rewrite (stored_quantity_absent a item Habs).
    split; [eauto|]. split; [reflexivity|].
    intros other Hother. apply (stored_quantity_append a a' (mkItem item quantity)); auto.
  - rewrite (service_store_item_at now item quantity a pre x rest E Hpre Hx).
    destruct (N.eqb_spec quantity 0); [discriminate|].
    destruct (N.ltb_spec BANK_MAX_ITEM_QUANTITY quantity); [discriminate|].
    rewrite E in Hq. apply Forall_app in Hq as [_ Hq]. inversion Hq as [|? ? Hqx _]; subst.
    unfold quantity_in_range in Hqx.
    rewrite (size_add_small (item_quantity x) quantity) by lia.
    destruct (_ <? _)%N; [discriminate|].
    intros _. cbn [snd].
    set (x' := mkItem (item_name x) (item_quantity x + quantity)%N).
    set (a' := item_call_result _ _ _ _ _).
    assert (Hitems' : items a' = pre ++ x' :: rest) by reflexivity.
    rewrite (account_find_item_at a' _ pre rest x' Hitems' Hpre eq_refl).
    rewrite (stored_quantity_at a' _ pre rest x' Hitems' Hpre eq_refl).
    rewrite (stored_quantity_at a _ pre rest x E Hpre eq_refl).
    split; [eauto|]. split; [reflexivity|].
    intros other Hother. apply (stored_quantity_update a a' pre rest x x'); auto.
Qed.

Lemma stored_item_is_found_witness :
  let a' := snd (service_store_item 3%Z (Some "Ancient Relic") 2%N hero) in
  (exists index, account_find_item a' (Some "Ancient Relic") = Some index)
  /\ stored_quantity a' "Ancient Relic" = (stored_quantity hero "Ancient Relic" + 2)%N
  /\ forall other, other <> "Ancient Relic" ->
       stored_quantity a' other = stored_quantity hero other.
Proof.
  apply (stored_item_is_found 3%Z "Ancient Relic" 2%N hero).
  - apply account_reset_vault_ok.
  - vm_compute. lia.
  - vm_compute. reflexivity.
Defined.

(** X6. Storing a quantity under a name of at most 47 characters and
    then retrieving the same quantity under that name succeeds and leaves the
    slots exactly as they were before the store: a slot made for a new name
    is removed again, an existing slot has its former quantity, and no other
    slot moves. *)
Theorem store_then_retrieve_restores_the_vault
    (now now' : time_t) (item : string) (quantity : size_t) (a : Account) :
  vault_ok a ->
  (String.length item < MAX_ITEM_NAME)%nat ->
  fst (service_store_item now (Some item) quantity a) = OK ->
  let a' := snd (service_store_item now (Some item) quantity a) in
  let r := service_retrieve_item now' (Some item) quantity a' in
  fst r = OK /\ items (snd r) = items a.
Proof.
  intros (Hcount & Hq & Hn) Hfits. cbv zeta.
  destruct (first_match_split item (items a)) as [Habs|(pre & x & rest & E & Hpre & Hx)].
  - rewrite (service_store_item_absent now item quantity a Habs).
    destruct (N.eqb_spec quantity 0) as [|H0]; [discriminate|].
    destruct (N.ltb_spec BANK_MAX_ITEM_QUANTITY quantity) as [|H999]; [discriminate|].
    destruct (MAX_ITEMS <=? item_count a)%nat; [discriminate|].
    intros _. cbn [snd]. rewrite (snprintf_s_fits _ _ Hfits).
    set (a' := item_call_result _ _ _ _ _).
    assert (Hitems' : items a' = items a ++ [mkItem item quantity]) by reflexivity.
    rewrite (service_retrieve_item_at now' item quantity a' (items a) (mkItem item quantity) []
               Hitems' Habs eq_refl).
    cbn [item_quantity].
    apply N.eqb_neq in H0. rewrite H0, N.ltb_irrefl.
    rewrite (size_sub_small quantity quantity) by lia.
    rewrite N.sub_diag. cbn [N.eqb fst snd].
    rewrite item_call_result_items, app_nil_r. auto.
  - rewrite (service_store_item_at now item quantity a pre x rest E Hpre Hx).
    destruct (N.eqb_spec quantity 0) as [|H0]; [discriminate|].
    destruct (N.ltb_spec BANK_MAX_ITEM_QUANTITY quantity) as [|H999]; [discriminate|].
    rewrite E in Hq. apply Forall_app in Hq as [_ Hq]. inversion Hq as [|? ? Hqx _]; subst.
    unfold quantity_in_range in Hqx.
    rewrite (size_add_small (item_quantity x) quantity) by lia.
    destruct (N.ltb_spec BANK_MAX_ITEM_QUANTITY (item_quantity x + quantity)) as [|Hsum];
      [discriminate|].
    intros _. cbn [snd].
    set (x' := mkItem (item_name x) (item_quantity x + quantity)%N).
    set (a' := item_call_result _ _ _ _ _).
    assert (Hitems' : items a' = pre ++ x' :: rest) by reflexivity.
    rewrite (service_retrieve_item_at now' _ quantity a' pre x' rest Hitems' Hpre eq_refl).
    cbn [item_quantity x'].
    apply N.eqb_neq in H0. rewrite H0.
    destruct (N.ltb_spec (item_quantity x + quantity) quantity); [lia|].
    rewrite (size_sub_small (item_quantity x + quantity)%N quantity) by lia.
    replace (item_quantity x + quantity - quantity)%N with (item_quantity x) by lia.
    destruct (N.eqb_spec (item_quantity x) 0); [lia|].
    cbn [fst snd]. rewrite item_call_result_items, E.
    split; [reflexivity|]. destruct x; reflexivity.
Qed.

Lemma store_then_retrieve_restores_the_vault_witness :
  let a' := snd (service_store_item 3%Z (Some "Ancient Relic") 2%N hero) in
  let r := service_retrieve_item 4%Z (Some "Ancient Relic") 2%N a' in
  fst r = OK /\ items (snd r) = items hero.
Proof.
  apply (store_then_retrieve_restores_the_vault 3%Z 4%Z "Ancient Relic" 2%N hero).
  - apply account_reset_vault_ok.
  - vm_compute. lia.
  - vm_compute. reflexivity.
Defined.

Lemma long_name_is_absent (item : string) (slots : list Item) :
  Forall name_fits slots -> (MAX_ITEM_NAME <= String.length item)%nat ->
  Forall (fun slot => item_name slot <> item) slots.
Proof.
  intros Hn Hlong. apply Forall_impl with (2 := Hn).
  intros slot Hfit E. unfold name_fits in Hfit. rewrite E in Hfit. lia.
Qed.

Lemma retrieve_absent_item now item quantity a :
  Forall (fun slot => item_name slot <> item) (items a) -> quantity <> 0%N ->
  service_retrieve_item now (Some item) quantity a = (Err (ErrItemNotFound item), a).
Proof.
  intros Habs H0.
  pose proof (service_retrieve_item_cases now item quantity a) as C. cbv zeta in C.
  rewrite (account_find_item_absent a item Habs) in C. destruct C as (_ & ->).
  apply N.eqb_neq in H0. rewrite H0. reflexivity.
Qed.

(** X7. A slot keeps only the first 47 characters of a name, and the
    lookup compares the stored name with the whole name asked for.  So on a
    vault within its bounds a name of 48 characters or more is never found:
    retrieving under it fails with "not found", and storing under it (a
    quantity in 1..999, a free slot left) always takes a new slot, which the
    lookup still does not find afterwards. *)
Theorem long_item_names_are_never_found
    (now : time_t) (item : string) (quantity : size_t) (a : Account) :
  vault_ok a ->
  (MAX_ITEM_NAME <= String.length item)%nat ->
  account_find_item a (Some item) = None
  /\ (quantity <> 0%N ->
      service_retrieve_item now (Some item) quantity a = (Err (ErrItemNotFound item), a))
  /\ ((1 <= quantity <= BANK_MAX_ITEM_QUANTITY)%N -> (item_count a < MAX_ITEMS)%nat ->
      let r := service_store_item now (Some item) quantity a in
      fst r = OK
      /\ items (snd r) = items a ++ [mkItem (snprintf_s MAX_ITEM_NAME item) quantity]
      /\ vault_ok (snd r)
      /\ account_find_item (snd r) (Some item) = None).
Proof.
  intros Hok Hlong.
  assert (Habs : Forall (fun slot => item_name slot <> item) (items a)).
  { apply long_name_is_absent; [apply Hok | exact Hlong]. }
  split; [apply account_find_item_absent; exact Habs|]. split.
  - intros H0.
    apply retrieve_absent_item; assumption.
  - intros [H1 H999] Hroom. cbv zeta.
    assert (Hok' : vault_ok (snd (service_store_item now (Some item) quantity a))).
    { apply service_store_item_vault_ok. exact Hok. }
    revert Hok'.
    rewrite (service_store_item_absent now item quantity a Habs).
    destruct (N.eqb_spec quantity 0); [lia|].
    destruct (N.ltb_spec BANK_MAX_ITEM_QUANTITY quantity); [lia|].
    destruct (Nat.leb_spec MAX_ITEMS (item_count a)); [lia|].
    cbn [fst snd]. intros Hok'. repeat split; try apply Hok'.
    apply account_find_item_absent. apply long_name_is_absent; [apply Hok' | exact Hlong].
Qed.

Lemma long_item_names_are_never_found_witness :
  let item := "A name that is longer than the forty-seven characters a slot holds" in
  let r := service_store_item 1%Z (Some item) 2%N hero in
  account_find_item hero (Some item) = None
  /\ service_retrieve_item 1%Z (Some item) 2%N hero = (Err (ErrItemNotFound item), hero)
  /\ fst r = OK
  /\ items (snd r) = items hero ++ [mkItem (snprintf_s MAX_ITEM_NAME item) 2%N]
  /\ vault_ok (snd r)
  /\ account_find_item (snd r) (Some item) = None.
Proof.
  cbv zeta.
  destruct (long_item_names_are_never_found 1%Z
              "A name that is longer than the forty-seven characters a slot holds" 2%N hero)
    as (Hfind & Hretrieve & Hstore).
  - apply account_reset_vault_ok.
  - vm_compute. lia.
  - split; [exact Hfind|]. split; [apply Hretrieve; discriminate|].
    apply Hstore; [unfold BANK_MAX_ITEM_QUANTITY; lia | vm_compute; lia].
Defined.

(** * The names of the slots *)

(** The names of the slots. *)
Lemma names_app (l r : list Item) :
  map item_name (l ++ r) = map item_name l ++ map item_name r.
Proof. apply map_app. Qed.

Lemma absent_not_in (item : string) (slots : list Item) :
  Forall (fun slot => item_name slot <> item) slots -> ~ In item (map item_name slots).
Proof.
  intros H Hin. apply in_map_iff in Hin as (slot & E & Hslot).
  rewrite Forall_forall in H. exact (H slot Hslot E).
Qed.

Lemma service_store_item_names_distinct now item quantity a :
  (String.length item < MAX_ITEM_NAME)%nat ->
  NoDup (map item_name (items a)) ->
  NoDup (map item_name (items (snd (service_store_item now (Some item) quantity a)))).
Proof.
  intros Hfits Hnd.
  destruct (first_match_split item (items a)) as [Habs|(pre & x & rest & E & Hpre & Hx)].
  - rewrite (service_store_item_absent now item quantity a Habs).
    destruct (quantity =? 0)%N; [exact Hnd|].
    destruct (BANK_MAX_ITEM_QUANTITY <? quantity)%N; [exact Hnd|].
    destruct (MAX_ITEMS <=? item_count a)%nat; [exact Hnd|].
    cbn [snd]. rewrite item_call_result_items, names_app, (snprintf_s_fits _ _ Hfits).
    cbn [map item_name].
    apply NoDup_app; [exact Hnd | constructor; [intros []|constructor] |].
    intros name Hin [<-|[]]. exact (absent_not_in _ _ Habs Hin).
  - rewrite (service_store_item_at now item quantity a pre x rest E Hpre Hx).
    destruct (quantity =? 0)%N; [exact Hnd|].
    destruct (BANK_MAX_ITEM_QUANTITY <? quantity)%N; [exact Hnd|].
    destruct (_ <? _)%N; [exact Hnd|].
    cbn [snd]. rewrite item_call_result_items.
    rewrite E, names_app in Hnd. rewrite names_app.
    cbn [map item_name] in *. rewrite Hx in Hnd. exact Hnd.
Qed.

Lemma service_retrieve_item_names_distinct now name quantity a :
  NoDup (map item_name (items a)) ->
  NoDup (map item_name (items (snd (service_retrieve_item now name quantity a)))).
Proof.
  intros Hnd. destruct name as [item|]; [|exact Hnd].
  destruct (first_match_split item (items a)) as [Habs|(pre & x & rest & E & Hpre & Hx)].
  - pose proof (service_retrieve_item_cases now item quantity a) as C. cbv zeta in C.
    rewrite (account_find_item_absent a item Habs) in C. destruct C as (_ & ->).
    destruct (quantity =? 0)%N; exact Hnd.
  - rewrite (service_retrieve_item_at now item quantity a pre x rest E Hpre Hx).
    destruct (quantity =? 0)%N; [exact Hnd|].
    destruct (_ <? _)%N; [exact Hnd|].
    cbn [snd]. rewrite item_call_result_items.
    rewrite E, names_app in Hnd. cbn [map] in Hnd.
    destruct (_ =? 0)%N; rewrite names_app.
    + apply NoDup_remove_1 in Hnd. exact Hnd.
    + cbn [map item_name]. rewrite Hx in Hnd. exact Hnd.
Qed.

Lemma exec_names_distinct (op : Operation) (h : Heap) :
  store_name_fits op ->
  (forall q, names_distinct (h q)) -> forall q, names_distinct (snd (exec op h) q).
Proof.
  intros Hfit Hh.
  destruct op as [service p amount now | service p amount now
                 | service from to amount now_from now_to
                 | service p amount now | service p now | service p amount now
                 | p name quantity now | p name quantity now | p];
    try (apply (exec_items_pointwise (fun slots => NoDup (map item_name slots)));
         [ intros ? ? ? ? ? E; discriminate E
         | intros ? ? ? ?; apply service_retrieve_item_names_distinct
         | exact Hh ]).
  cbn [exec]. apply (on_account_pointwise names_distinct); [|exact Hh].
  intros a Ha. destruct name as [item|]; [|exact Ha].
  apply service_store_item_names_distinct; [exact Hfit | exact Ha].
Qed.

Lemma drive_names_distinct (calls : list Operation) :
  forall h, Forall store_name_fits calls ->
    (forall q, names_distinct (h q)) -> forall q, names_distinct (drive calls h q).
Proof.
  unfold drive. induction calls as [|op calls IH]; intros h Hfit Hh; cbn [fold_left];
    [exact Hh|].
  inversion Hfit as [|? ? Hop Hrest]; subst.
  apply IH; [exact Hrest|]. apply exec_names_distinct; assumption.
Qed.

(** Storing under a name of [MAX_ITEM_NAME] characters or more always takes
    a new slot. *)
Lemma store_long_name now item quantity a :
  vault_ok a -> (MAX_ITEM_NAME <= String.length item)%nat ->
  (1 <= quantity <= BANK_MAX_ITEM_QUANTITY)%N -> (item_count a < MAX_ITEMS)%nat ->
  service_store_item now (Some item) quantity a
  = (OK, item_call_result now a "Item Stored" (double_of_size_t quantity)
           (items a ++ [mkItem (snprintf_s MAX_ITEM_NAME item) quantity])).
Proof.
  intros Hok Hlong [H1 H999] Hroom.
  rewrite (service_store_item_absent now item quantity a)
    by (apply long_name_is_absent; [apply Hok | exact Hlong]).
  destruct (N.eqb_spec quantity 0); [lia|].
  destruct (N.ltb_spec BANK_MAX_ITEM_QUANTITY quantity); [lia|].
  destruct (Nat.leb_spec MAX_ITEMS (item_count a)); [lia|]. reflexivity.
Qed.

(** X8. As long as items are stored under names of at most 47
    characters, no two slots of an account ever have the same name, whatever
    calls are made on accounts that [account_reset] created.  The condition is
    needed: storing twice under one name of 48 characters or more leaves two
    slots with the same (cut) name. *)
Theorem item_names_stay_distinct :
  (forall (h : Heap) (calls : list Operation),
     fresh_heap h -> Forall store_name_fits calls ->
     forall p, NoDup (map item_name (items (drive calls h p))))
  /\ (forall now now' owner initial_balance item quantity quantity',
        (MAX_ITEM_NAME <= String.length item)%nat ->
        (1 <= quantity <= BANK_MAX_ITEM_QUANTITY)%N ->
        (1 <= quantity' <= BANK_MAX_ITEM_QUANTITY)%N ->
        let a1 := snd (service_store_item now (Some item) quantity
                         (account_reset owner initial_balance)) in
        let a2 := snd (service_store_item now' (Some item) quantity' a1) in
        items a2 = [mkItem (snprintf_s MAX_ITEM_NAME item) quantity;
                    mkItem (snprintf_s MAX_ITEM_NAME item) quantity']
        /\ ~ NoDup (map item_name (items a2))).
Proof.
  split.
  - intros h calls Hfresh Hfit. apply drive_names_distinct; [exact Hfit|].
    intros q. destruct (Hfresh q) as (o & b & ->). constructor.
  - intros now now' o b item quantity quantity' Hlong Hq Hq'. cbv zeta.
    rewrite (store_long_name now item quantity (account_reset o b))
      by (try apply account_reset_vault_ok; try assumption;
          unfold item_count, MAX_ITEMS; cbn; lia).
    cbn [snd].
    set (a1 := item_call_result _ _ _ _ _).
    assert (Hok1 : vault_ok a1).
    { unfold vault_ok, item_count, a1. rewrite item_call_result_items.
      cbn [items account_reset app List.length]. unfold MAX_ITEMS.
      split; [lia|]. split; (constructor; [|constructor]).
      - exact Hq.
      - unfold name_fits. cbn [item_name]. rewrite snprintf_s_length.
        unfold MAX_ITEM_NAME. lia. }
    rewrite (store_long_name now' item quantity' a1 Hok1 Hlong Hq')
      by (unfold item_count, MAX_ITEMS; cbn; lia).
    cbn [snd]. rewrite item_call_result_items.
    split; [reflexivity|].
    cbn [items a1 item_call_result set_items account_reset app map item_name].
    intros Hnd. inversion Hnd as [|? ? Hnotin _]; subst. apply Hnotin. left. reflexivity.
Qed.

Lemma item_names_stay_distinct_witness :
  NoDup (map item_name (items (drive demo_calls heroes 0%nat)))
  /\ (let item := "A name that is longer than the forty-seven characters a slot holds" in
      let a1 := snd (service_store_item 1%Z (Some item) 2%N hero) in
      let a2 := snd (service_store_item 2%Z (Some item) 3%N a1) in
      ~ NoDup (map item_name (items a2))).
Proof.
  destruct item_names_stay_distinct as [Hdistinct Hlong]. split.
  - apply Hdistinct; [exact heroes_fresh|].
    unfold demo_calls. repeat (apply Forall_cons; [vm_compute; auto; lia|]). apply Forall_nil.
  - cbv zeta.
    apply (Hlong 1%Z 2%Z (Some "Hero") 500.0
             "A name that is longer than the forty-seven characters a slot holds" 2%N 3%N);
      [vm_compute | unfold BANK_MAX_ITEM_QUANTITY | unfold BANK_MAX_ITEM_QUANTITY]; lia.
Defined.

(** * Units stored and retrieved *)

Lemma slots_units_app (l r : list Item) :
  slots_units (l ++ r) = (slots_units l + slots_units r)%N.
Proof.
  induction l as [|x l IH]; cbn [app slots_units fold_right]; [reflexivity|].
  fold (slots_units (l ++ r)). fold (slots_units l). rewrite IH. lia.
Qed.

(** X9. On a vault within its bounds, a successful
    [service_store_item] raises the number of units in the vault by exactly
    the quantity stored, and a successful [service_retrieve_item] lowers it by
    exactly the quantity retrieved (which is at most what the vault held). *)
Theorem stored_units_are_conserved
    (now : time_t) (name : option string) (quantity : size_t) (a : Account) :
  vault_ok a ->
  (fst (service_store_item now name quantity a) = OK ->
   total_units (snd (service_store_item now name quantity a))
   = (total_units a + quantity)%N)
  /\ (fst (service_retrieve_item now name quantity a) = OK ->
      (quantity <= total_units a)%N
      /\ total_units (snd (service_retrieve_item now name quantity a))
         = (total_units a - quantity)%N).
Proof.
  intros (Hcount & Hq & Hn). change total_units with (fun a => slots_units (items a)).
  cbv beta.
  destruct name as [item|]; [|split; discriminate].
  destruct (first_match_split item (items a)) as [Habs|(pre & x & rest & E & Hpre & Hx)].
  - split.
    + rewrite (service_store_item_absent now item quantity a Habs).
      destruct (quantity =? 0)%N; [discriminate|].
      destruct (BANK_MAX_ITEM_QUANTITY <? quantity)%N; [discriminate|].
      destruct (MAX_ITEMS <=? item_count a)%nat; [discriminate|].
      intros _. cbn [snd]. rewrite item_call_result_items, slots_units_app.
      cbn [slots_units fold_right item_quantity]. lia.
    + pose proof (service_retrieve_item_cases now item quantity a) as C. cbv zeta in C.
      rewrite (account_find_item_absent a item Habs) in C. destruct C as (_ & ->).
      destruct (quantity =? 0)%N; discriminate.
  - rewrite E in Hq. apply Forall_app in Hq as [_ Hq]. inversion Hq as [|? ? Hqx _]; subst.
    unfold quantity_in_range in Hqx. split.
    + rewrite (service_store_item_at now _ quantity a pre x rest E Hpre eq_refl).
      destruct (quantity =? 0)%N; [discriminate|].
      destruct (N.ltb_spec BANK_MAX_ITEM_QUANTITY quantity); [discriminate|].
      rewrite (size_add_small (item_quantity x) quantity) by lia.
      destruct (_ <? _)%N; [discriminate|].
      intros _. cbn [snd]. rewrite item_call_result_items, E, !slots_units_app.
      cbn [slots_units fold_right item_quantity]. lia.
    + rewrite (service_retrieve_item_at now _ quantity a pre x rest E Hpre eq_refl).
      destruct (quantity =? 0)%N; [discriminate|].
      destruct (N.ltb_spec (item_quantity x) quantity); [discriminate|].
      rewrite (size_sub_small (item_quantity x) quantity) by lia.
      intros _. cbn [snd]. rewrite item_call_result_items, E, !slots_units_app.
      cbn [slots_units fold_right]. fold (slots_units rest).
      split; [lia|].
      destruct (N.eqb_spec (item_quantity x - quantity) 0);
        rewrite slots_units_app; cbn [slots_units fold_right item_quantity];
        fold (slots_units rest); lia.
Qed.

Lemma stored_units_are_conserved_witness :
  let a := snd (service_store_item 3%Z (Some "Ancient Relic") 2%N hero) in
  total_units (snd (service_store_item 4%Z (Some "Ancient Relic") 5%N a))
  = (total_units a + 5)%N
  /\ (2 <= total_units a)%N
  /\ total_units (snd (service_retrieve_item 4%Z (Some "Ancient Relic") 2%N a))
     = (total_units a - 2)%N.
Proof.
  cbv zeta.
  pose proof (service_store_item_vault_ok 3%Z (Some "Ancient Relic") 2%N hero
                (account_reset_vault_ok (Some "Hero") 500.0)) as Hok.
  destruct (stored_units_are_conserved 4%Z (Some "Ancient Relic") 5%N _ Hok)
    as [Hstore _].
  destruct (stored_units_are_conserved 4%Z (Some "Ancient Relic") 2%N _ Hok)
    as [_ Hretrieve].
  split; [apply Hstore; vm_compute; reflexivity|].
  apply Hretrieve. vm_compute. reflexivity.
Defined.

(** * The last history entry shows the balance *)

Lemma add_history_shows_balance now a description amount :
  last_entry_shows_balance (account_add_history now a description amount).
Proof.
  right. unfold last_entry_shows_balance.
  rewrite add_history_history, add_history_balance.
  destruct (_ <? _)%nat; eexists _, _; (split; [reflexivity|]); reflexivity.
Qed.

Lemma item_call_result_shows_balance now a description amount slots :
  last_entry_shows_balance (item_call_result now a description amount slots).
Proof. exact (add_history_shows_balance now a description amount). Qed.

Lemma service_deposit_ok service now amount a :
  fst (service_deposit service now amount a) = OK ->
  service_deposit service now amount a
  = (OK, account_add_history now
           (set_daily_total
              (set_balance a (balance a + net_of_fee amount (deposit_fee service)))
              (daily_total a + amount))
           "Deposit" (net_of_fee amount (deposit_fee service))).
Proof.
  unfold service_deposit, apply_fee, net_of_fee.
  destruct (enforce_amount amount); [|discriminate].
  destruct (enforce_daily service a amount); [|discriminate].
  destruct (deposit_fee service <=? 0); [reflexivity|].
  destruct (_ <? BANK_MIN_TRANSACTION); [discriminate | reflexivity].
Qed.

Lemma service_withdraw_ok service now amount a :
  fst (service_withdraw service now amount a) = OK ->
  service_withdraw service now amount a
  = (OK, account_add_history now
           (set_daily_total
              (set_balance a (balance a - net_of_fee amount (withdrawal_fee service)))
              (daily_total a + amount))
           "Withdrawal" (- net_of_fee amount (withdrawal_fee service))).
Proof.
  unfold service_withdraw, apply_fee, net_of_fee.
  destruct (enforce_amount amount); [|discriminate].
  destruct (enforce_daily service a amount); [|discriminate].
  destruct (withdrawal_fee service <=? 0).
  - destruct (balance a <? amount); [discriminate | reflexivity].
  - destruct (_ <? BANK_MIN_TRANSACTION); [discriminate|].
    destruct (balance a <? _); [discriminate | reflexivity].
Qed.

(** A transfer from an account to itself: the five writes land on the one
    account. *)
Lemma service_transfer_self
    (service : BankingService) (now_from now_to : time_t) (p : Ptr)
    (amount : double) (h : Heap) :
  fst (service_transfer service now_from now_to p p amount h) = OK ->
  let h' := snd (service_transfer service now_from now_to p p amount h) in
  let credited := if 0 <? transfer_fee service
                  then amount - transfer_fee service else amount in
  h' p = account_add_history now_to
           (account_add_history now_from
              (set_daily_total
                 (set_balance (h p) (balance (h p) - amount + credited))
                 (daily_total (h p) + amount))
              "Transfer Sent" (- amount))
           "Transfer Received" credited
  /\ forall q, q <> p -> h' q = h q.
Proof.
  unfold service_transfer.
  destruct (enforce_amount amount); [|discriminate].
  destruct (enforce_daily service (h p) amount); [|discriminate].
  destruct (balance (h p) <? amount); [discriminate|].
  destruct (0 <? transfer_fee service);
    [destruct (amount - transfer_fee service <? BANK_MIN_TRANSACTION);
       [discriminate|]|];
    intros _; cbv zeta; cbn [snd]; unfold heap_set;
    rewrite ?Nat.eqb_refl; cbn [balance daily_total set_balance set_daily_total];
    (split; [reflexivity|]);
    intros q Hq; apply Nat.eqb_neq in Hq; rewrite ?Hq; reflexivity.
Qed.

Lemma result_cases (r : Result) : r = OK \/ exists e, r = Err e.
Proof. destruct r; eauto. Qed.

Lemma service_transfer_shows_balance service now_from now_to from to amount h :
  (forall q, last_entry_shows_balance (h q)) ->
  forall q, last_entry_shows_balance
              (snd (service_transfer service now_from now_to from to amount h) q).
Proof.
  intros Hh q.
  destruct (result_cases (fst (service_transfer service now_from now_to from to amount h)))
    as [Hok|[e He]].
  - destruct (Nat.eq_dec from to) as [<-|Hne].
    + destruct (service_transfer_self service now_from now_to from amount h Hok) as [Hp Hq].
      destruct (Nat.eq_dec q from) as [->|Hqne].
      * rewrite Hp. apply add_history_shows_balance.
      * rewrite (Hq q Hqne). apply Hh.
    + destruct (service_transfer_distinct service now_from now_to from to amount h Hne Hok)
        as (Hf & Ht & Hq).
      destruct (Nat.eq_dec q from) as [->|Hqf]; [rewrite Hf; apply add_history_shows_balance|].
      destruct (Nat.eq_dec q to) as [->|Hqt]; [rewrite Ht; apply add_history_shows_balance|].
      rewrite (Hq q Hqf Hqt). apply Hh.
  - rewrite (service_transfer_failure service now_from now_to from to amount h e He).
    apply Hh.
Qed.

Lemma exec_shows_balance (op : Operation) (h : Heap) :
  (forall q, last_entry_shows_balance (h q)) ->
  forall q, last_entry_shows_balance (snd (exec op h) q).
Proof.
  intros Hh.
  destruct op as [service p amount now | service p amount now
                 | service from to amount now_from now_to
                 | service p amount now | service p now | service p amount now
                 | p name quantity now | p name quantity now | p];
    cbn [exec snd];
    try (apply on_account_pointwise; [|exact Hh]; intros a Ha);
    try (apply heap_set_pointwise; [exact Hh|]; pose proof (Hh p) as Ha).
  - destruct (result_cases (fst (service_deposit service now amount a))) as [H|[e H]].
    + rewrite (service_deposit_ok _ _ _ _ H). apply add_history_shows_balance.
    + rewrite (service_deposit_failure _ _ _ _ _ H). exact Ha.
  - destruct (result_cases (fst (service_withdraw service now amount a))) as [H|[e H]].
    + rewrite (service_withdraw_ok _ _ _ _ H). apply add_history_shows_balance.
    + rewrite (service_withdraw_failure _ _ _ _ _ H). exact Ha.
  - apply service_transfer_shows_balance. exact Hh.
  - unfold service_invest. guards; cbn [snd]; try exact Ha. apply add_history_shows_balance.
  - unfold service_apply_investment_yield. guards; try exact Ha.
    apply add_history_shows_balance.
  - unfold service_withdraw_investment. guards; cbn [snd]; try exact Ha.
    apply add_history_shows_balance.
  - destruct (result_cases (fst (service_store_item now name quantity a))) as [H|[e H]].
    + destruct name as [item|]; [|discriminate].
      pose proof (service_store_item_cases now item quantity a) as C. cbv zeta in C.
      destruct (account_find_item a (Some item)).
      * destruct C as (pre & x & rest & _ & _ & _ & _ & C). rewrite C in H |- *.
        revert H. guards; try discriminate. intros _.
        apply item_call_result_shows_balance.
      * destruct C as (_ & C). rewrite C in H |- *.
        revert H. guards; try discriminate. intros _.
        apply item_call_result_shows_balance.
    + rewrite (service_store_item_failure _ _ _ _ _ H). exact Ha.
  - destruct (result_cases (fst (service_retrieve_item now name quantity a))) as [H|[e H]].
    + destruct name as [item|]; [|discriminate].
      pose proof (service_retrieve_item_cases now item quantity a) as C. cbv zeta in C.
      destruct (account_find_item a (Some item)).
      * destruct C as (pre & x & rest & _ & _ & _ & _ & C). rewrite C in H |- *.
        revert H.
        destruct (quantity =? 0)%N; [discriminate|].
        destruct (item_quantity x <? quantity)%N; [discriminate|]. intros _.
        apply item_call_result_shows_balance.
      * destruct C as (_ & C). rewrite C in H. revert H. guards; discriminate.
    + rewrite (service_retrieve_item_failure _ _ _ _ _ H). exact Ha.
  - exact Ha.
Qed.

(** X10. Whatever calls are made on accounts that [account_reset]
    created, failing ones included, the history of an account is empty or its
    most recent entry records, as resulting balance, the balance the account
    has now: every call that changes the balance appends an entry after the
    change, and the calls that append nothing leave the balance alone. *)
Theorem last_history_entry_shows_the_balance (h : Heap) (calls : list Operation) (p : Ptr) :
  fresh_heap h ->
  history (drive calls h p) = []
  \/ exists older e,
       history (drive calls h p) = older ++ [e]
       /\ entry_resulting_balance e = balance (drive calls h p).
Proof.
  intros Hfresh.
  apply (drive_pointwise last_entry_shows_balance exec_shows_balance calls h).
  intros q. left. destruct (Hfresh q) as (o & b & ->). reflexivity.
Qed.

Lemma last_history_entry_shows_the_balance_witness :
  history (drive demo_calls heroes 0%nat) = []
  \/ exists older e,
       history (drive demo_calls heroes 0%nat) = older ++ [e]
       /\ entry_resulting_balance e = balance (drive demo_calls heroes 0%nat).
Proof. exact (last_history_entry_shows_the_balance heroes demo_calls 0%nat heroes_fresh). Defined.

(** * Currency calls: when they succeed and what they do *)

Lemma above_maximum_not_below_minimum (x : float) :
  (10000 <? x) = true -> (x <? 1) = false.
Proof.
  rewrite !FloatAxioms.ltb_spec, IEEE.Prim2SF_one.
  change (Prim2SF 10000) with (S754_finite false 5497558138880000 (-39)).
  unfold SFltb.
  destruct (Prim2SF x) as [[|]|[|]| |[|] m e]; cbn [SFcompare]; intros H;
    try discriminate; try reflexivity.
  destruct (Z.compare_spec (-39) e); try discriminate;
    destruct (Z.compare_spec e (-52)); try reflexivity; lia.
Qed.

Lemma enforce_amount_below (amount : double) :
  (amount <? 1.0) = true -> enforce_amount amount = Err (ErrBelowMinimum amount).
Proof. intros H. unfold enforce_amount, BANK_MIN_TRANSACTION. rewrite H. reflexivity. Qed.

Lemma enforce_amount_above (amount : double) :
  (10000.0 <? amount) = true -> enforce_amount amount = Err (ErrAboveMaximum amount).
Proof.
  intros H. unfold enforce_amount, BANK_MIN_TRANSACTION, BANK_MAX_TRANSACTION.
  rewrite (above_maximum_not_below_minimum amount H), H. reflexivity.
Qed.

Lemma enforce_amount_ok (amount : double) :
  enforce_amount amount = OK <-> (amount <? 1.0) = false /\ (10000.0 <? amount) = false.
Proof.
  unfold enforce_amount, BANK_MIN_TRANSACTION, BANK_MAX_TRANSACTION.
  destruct (amount <? 1); [split; [discriminate | intros [H _]; discriminate]|].
  destruct (10000 <? amount); split; auto; try discriminate. intros [_ H]; discriminate.
Qed.

Lemma in_range_leb (amount : double) :
  is_nan amount = false -> (amount <? 1.0) = false -> (10000.0 <? amount) = false ->
  (1.0 <=? amount) = true /\ (amount <=? 10000.0) = true.
Proof.
  intros Hn H1 H2.
  rewrite (IEEE.leb_negb_ltb 1 amount eq_refl Hn), H1.
  rewrite (IEEE.leb_negb_ltb amount 10000 Hn eq_refl), H2. auto.
Qed.

(** X11. [service_deposit], [service_withdraw] and [service_transfer]
    test the amount against the per-transaction bounds before anything else:
    an amount below 1.0 fails with the "below minimum" message and an amount
    above 10000.0 with the "exceeds maximum" message, whatever the account,
    the fees and the daily total, and nothing changes.  A call that succeeds
    was given an amount that is NaN or a finite number from 1.0 to 10000.0. *)
Theorem amount_bounds_are_checked_first
    (service : BankingService) (now now_to : time_t) (amount : double)
    (a : Account) (from to : Ptr) (h : Heap) :
  ((amount <? 1.0) = true ->
   service_deposit service now amount a = (Err (ErrBelowMinimum amount), a)
   /\ service_withdraw service now amount a = (Err (ErrBelowMinimum amount), a)
   /\ service_transfer service now now_to from to amount h
      = (Err (ErrBelowMinimum amount), h))
  /\ ((10000.0 <? amount) = true ->
      service_deposit service now amount a = (Err (ErrAboveMaximum amount), a)
      /\ service_withdraw service now amount a = (Err (ErrAboveMaximum amount), a)
      /\ service_transfer service now now_to from to amount h
         = (Err (ErrAboveMaximum amount), h))
  /\ (fst (service_deposit service now amount a) = OK
      \/ fst (service_withdraw service now amount a) = OK
      \/ fst (service_transfer service now now_to from to amount h) = OK ->
      is_nan amount = true
      \/ ((1.0 <=? amount) = true /\ (amount <=? 10000.0) = true
          /\ is_finite amount = true)).
Proof.
  split; [|split].
  - intros H. unfold service_deposit, service_withdraw, service_transfer.
    rewrite (enforce_amount_below amount H). auto.
  - intros H. unfold service_deposit, service_withdraw, service_transfer.
    rewrite (enforce_amount_above amount H). auto.
  - intros H.
    assert (Hok : enforce_amount amount = OK).
    { unfold service_deposit, service_withdraw, service_transfer in H.
      destruct (enforce_amount amount); [reflexivity|].
      destruct H as [H|[H|H]]; discriminate. }
    apply enforce_amount_ok in Hok as [H1 H2].
    destruct (is_nan amount) eqn:Hn; [left; reflexivity | right].
    destruct (in_range_leb amount Hn H1 H2). repeat split; try assumption.
    apply IEEE.in_range_is_finite; assumption.
Qed.

Lemma add_history_last_entry now a description amount b :
  (String.length description < 96)%nat -> balance a = b ->
  last_entry_is (account_add_history now a description amount)
    (mkEntry now description amount b).
Proof.
  intros Hfit <-. unfold last_entry_is. rewrite add_history_history.
  unfold history_entry. rewrite (snprintf_s_fits 96 description Hfit).
  destruct (_ <? _)%nat; eexists; reflexivity.
Qed.

(** X12. [service_deposit] succeeds exactly when the amount is neither
    below 1.0 nor above 10000.0, the daily total plus the amount is not above
    the daily limit, and the deposit fee is [<= 0] or the amount less the fee
    is not below 1.0.  On success the balance grows by the amount less the
    fee (by the amount when the fee is [<= 0]), the daily total grows by the
    full amount, the investment balance, the items and the owner are
    unchanged, and the most recent history entry is "Deposit" with the
    credited amount and the new balance. *)
Theorem deposit_succeeds_iff
    (service : BankingService) (now : time_t) (amount : double) (a : Account) :
  let r := service_deposit service now amount a in
  let fee := deposit_fee service in
  let net := if fee <=? 0 then amount else amount - fee in
  (fst r = OK
   <-> (amount <? 1.0) = false /\ (10000.0 <? amount) = false
       /\ (effective_daily_limit service <? daily_total a + amount) = false
       /\ ((fee <=? 0) = true \/ (amount - fee <? 1.0) = false))
  /\ (fst r = OK ->
      balance (snd r) = balance a + net
      /\ daily_total (snd r) = daily_total a + amount
      /\ investment_balance (snd r) = investment_balance a
      /\ items (snd r) = items a
      /\ owner (snd r) = owner a
      /\ last_entry_is (snd r) (mkEntry now "Deposit" net (balance a + net))).
Proof.
  cbv zeta. split.
  - unfold service_deposit. rewrite enforce_daily_spec. unfold apply_fee.
    pose proof (enforce_amount_ok amount) as Hamt.
    destruct (enforce_amount amount).
    + destruct Hamt as [Hamt _]. destruct (Hamt eq_refl) as [H1 H2].
      destruct (_ <? daily_total a + amount);
        [cbn; split; [discriminate | intros (_ & _ & H & _); discriminate]|].
      destruct (deposit_fee service <=? 0); [cbn; split; auto 6|].
      unfold BANK_MIN_TRANSACTION.
      destruct (amount - deposit_fee service <? 1); cbn; split; auto 6; try discriminate.
      intros (_ & _ & _ & [H|H]); discriminate.
    + cbn. split; [discriminate|]. intros (H1 & H2 & _).
      destruct Hamt as [_ Hamt]. discriminate (Hamt (conj H1 H2)).
  - intros H. rewrite (service_deposit_ok service now amount a H). cbn [snd].
    unfold net_of_fee. frame. repeat split.
    apply add_history_last_entry; [cbn; lia | reflexivity].
Qed.

(** X13. [service_withdraw] succeeds exactly when the amount passes the
    bounds and the daily limit, the withdrawal fee is [<= 0] or the amount
    less the fee is not below 1.0, and the balance is not below that net
    amount.  On success the balance is debited the amount less the fee (the
    fee lowers what is taken from the balance, and the balance is tested
    against the net amount), the daily total grows by the full amount, and the
    most recent history entry is "Withdrawal" with minus the net amount and
    the new balance. *)
Theorem withdraw_succeeds_iff
    (service : BankingService) (now : time_t) (amount : double) (a : Account) :
  let r := service_withdraw service now amount a in
  let fee := withdrawal_fee service in
  let net := if fee <=? 0 then amount else amount - fee in
  (fst r = OK
   <-> (amount <? 1.0) = false /\ (10000.0 <? amount) = false
       /\ (effective_daily_limit service <? daily_total a + amount) = false
       /\ ((fee <=? 0) = true \/ (amount - fee <? 1.0) = false)
       /\ (balance a <? net) = false)
  /\ (fst r = OK ->
      balance (snd r) = balance a - net
      /\ daily_total (snd r) = daily_total a + amount
      /\ investment_balance (snd r) = investment_balance a
      /\ items (snd r) = items a
      /\ owner (snd r) = owner a
      /\ last_entry_is (snd r) (mkEntry now "Withdrawal" (- net) (balance a - net))).
Proof.
  cbv zeta. split.
  - unfold service_withdraw. rewrite enforce_daily_spec. unfold apply_fee.
    pose proof (enforce_amount_ok amount) as Hamt.
    destruct (enforce_amount amount).
    + destruct Hamt as [Hamt _]. destruct (Hamt eq_refl) as [H1 H2].
      destruct (_ <? daily_total a + amount);
        [cbn; split; [discriminate | intros (_ & _ & H & _); discriminate]|].
      destruct (withdrawal_fee service <=? 0).
      * destruct (balance a <? amount); cbn; split; auto 6; try discriminate.
        intros (_ & _ & _ & _ & H); discriminate.
      * unfold BANK_MIN_TRANSACTION.
        destruct (amount - withdrawal_fee service <? 1);
          [cbn; split; [discriminate | intros (_ & _ & _ & [H|H] & _); discriminate]|].
        destruct (balance a <? _); cbn; split; auto 6; try discriminate.
        intros (_ & _ & _ & _ & H); discriminate.
    + cbn. split; [discriminate|]. intros (H1 & H2 & _).
      destruct Hamt as [_ Hamt]. discriminate (Hamt (conj H1 H2)).
  - intros H. rewrite (service_withdraw_ok service now amount a H). cbn [snd].
    unfold net_of_fee. frame. repeat split.
    apply add_history_last_entry; [cbn; lia | reflexivity].
Qed.

(** X14. [service_transfer] succeeds exactly when the amount passes the
    bounds and the sender's daily limit, the sender's balance is not below the
    full amount, and the transfer fee is not above 0 or the amount less the
    fee is not below 1.0.  The tests come in that order: with the earlier ones
    passed, a balance below the amount fails with the "available / required"
    message even when the fee would reject the amount too, and only then does
    an amount too small after the fee fail with its own message; nothing
    changes in either case. *)
Theorem transfer_succeeds_iff
    (service : BankingService) (now_from now_to : time_t) (from to : Ptr)
    (amount : double) (h : Heap) :
  let r := service_transfer service now_from now_to from to amount h in
  let fee := transfer_fee service in
  (fst r = OK
   <-> (amount <? 1.0) = false /\ (10000.0 <? amount) = false
       /\ (effective_daily_limit service <? daily_total (h from) + amount) = false
       /\ (balance (h from) <? amount) = false
       /\ ((0 <? fee) = false \/ (amount - fee <? 1.0) = false))
  /\ (enforce_amount amount = OK -> enforce_daily service (h from) amount = OK ->
      (balance (h from) <? amount) = true ->
      r = (Err (ErrTransferFunds (balance (h from)) amount), h))
  /\ (enforce_amount amount = OK -> enforce_daily service (h from) amount = OK ->
      (balance (h from) <? amount) = false ->
      (0 <? fee) = true -> (amount - fee <? 1.0) = true ->
      r = (Err (ErrTransferFee amount), h)).
Proof.
  cbv zeta. split; [|split].
  - unfold service_transfer. rewrite enforce_daily_spec.
    pose proof (enforce_amount_ok amount) as Hamt.
    destruct (enforce_amount amount).
    + destruct Hamt as [Hamt _]. destruct (Hamt eq_refl) as [H1 H2].
      destruct (_ <? daily_total (h from) + amount);
        [cbn; split; [discriminate | intros (_ & _ & H & _); discriminate]|].
      destruct (balance (h from) <? amount);
        [cbn; split; [discriminate | intros (_ & _ & _ & H & _); discriminate]|].
      destruct (0 <? transfer_fee service); [|cbn; split; auto 7].
      unfold BANK_MIN_TRANSACTION.
      destruct (amount - transfer_fee service <? 1); cbn; split; auto 7; try discriminate.
      intros (_ & _ & _ & _ & [H|H]); discriminate.
    + cbn. split; [discriminate|]. intros (H1 & H2 & _).
      destruct Hamt as [_ Hamt]. discriminate (Hamt (conj H1 H2)).
  - intros Ha Hd Hf. unfold service_transfer. rewrite Ha, Hd, Hf. reflexivity.
  - intros Ha Hd Hf Hfee Hafter. unfold service_transfer, BANK_MIN_TRANSACTION.
    rewrite Ha, Hd, Hf, Hfee, Hafter. reflexivity.
Qed.

(** X15. [service_withdraw_investment] succeeds exactly when neither
    [amount <= 0] nor [investment_balance < amount] holds; for numbers this
    is [amount > 0] and [amount <= investment_balance].  The service plays no
    part (no bounds, no daily limit, no fee).  On success the investment
    balance is lowered and the balance raised by the amount, the daily total
    and the items are unchanged and the most recent history entry is
    "Investment Withdrawal" with the amount and the new balance.  A failure
    is the "must be positive" message when [amount <= 0], else the
    "only ... invested" message. *)
Theorem withdraw_investment_succeeds_iff
    (service : BankingService) (now : time_t) (amount : double) (a : Account) :
  let r := service_withdraw_investment service now amount a in
  (fst r = OK <-> (amount <=? 0) = false /\ (investment_balance a <? amount) = false)
  /\ (is_nan amount = false -> is_nan (investment_balance a) = false ->
      (fst r = OK <-> (0 <? amount) = true /\ (amount <=? investment_balance a) = true))
  /\ (fst r = OK ->
      investment_balance (snd r) = investment_balance a - amount
      /\ balance (snd r) = balance a + amount
      /\ daily_total (snd r) = daily_total a
      /\ items (snd r) = items a
      /\ last_entry_is (snd r)
           (mkEntry now "Investment Withdrawal" amount (balance a + amount)))
  /\ (forall service', service_withdraw_investment service' now amount a = r)
  /\ (forall e, fst r = Err e ->
      (e = ErrWithdrawInvestmentNonPositive /\ (amount <=? 0) = true)
      \/ (e = ErrWithdrawInvestmentFunds (investment_balance a) amount
          /\ (investment_balance a <? amount) = true)).
Proof.
  cbv zeta.
  assert (Hiff : fst (service_withdraw_investment service now amount a) = OK
                 <-> (amount <=? 0) = false /\ (investment_balance a <? amount) = false).
  { unfold service_withdraw_investment.
    destruct (amount <=? 0); [cbn; split; [discriminate | intros [H _]; discriminate]|].
    destruct (investment_balance a <? amount); cbn; split; auto; try discriminate.
    intros [_ H]; discriminate. }
  split; [exact Hiff|]. split; [|split; [|split]].
  - intros Na Ni. rewrite Hiff.
    rewrite (IEEE.leb_negb_ltb amount 0 Na eq_refl).
    rewrite (IEEE.leb_negb_ltb amount (investment_balance a) Na Ni).
    rewrite !negb_false_iff, negb_true_iff. reflexivity.
  - intros H. apply Hiff in H as [H1 H2].
    rewrite (service_withdraw_investment_effect service now amount a H1 H2). cbn [snd].
    frame. repeat split. apply add_history_last_entry; [cbn; lia | reflexivity].
  - reflexivity.
  - intros e. unfold service_withdraw_investment.
    destruct (amount <=? 0); [cbn; intros [= <-]; auto|].
    destruct (investment_balance a <? amount); cbn; [intros [= <-]; auto | discriminate].
Qed.

(** X16. [service_transfer] accepts the same account as sender and
    receiver.  When such a transfer succeeds, the balance ends as
    [balance - amount + credited] (so the account pays the fee), the daily
    total grows by the amount, the investment balance and the items are
    unchanged, and the history gets both entries, "Transfer Sent" then
    "Transfer Received", each recording that final balance; no other account
    changes. *)
Theorem transfer_to_the_same_account
    (service : BankingService) (now_from now_to : time_t) (p : Ptr)
    (amount : double) (h : Heap) :
  history_within_capacity (h p) ->
  fst (service_transfer service now_from now_to p p amount h) = OK ->
  let h' := snd (service_transfer service now_from now_to p p amount h) in
  let credited := if 0 <? transfer_fee service
                  then amount - transfer_fee service else amount in
  let final := balance (h p) - amount + credited in
  balance (h' p) = final
  /\ daily_total (h' p) = daily_total (h p) + amount
  /\ investment_balance (h' p) = investment_balance (h p)
  /\ items (h' p) = items (h p)
  /\ history (h' p)
     = last_n MAX_TRANSACTION_HISTORY
         (history (h p)
          ++ [mkEntry now_from "Transfer Sent" (- amount) final;
              mkEntry now_to "Transfer Received" credited final])
  /\ forall q, q <> p -> h' q = h q.
Proof.
  intros Hcap Hok. cbv zeta.
  destruct (service_transfer_self service now_from now_to p amount h Hok) as [Hp Hq].
  cbv zeta in Hp. rewrite Hp. frame. repeat split; [|exact Hq].
  set (a := set_daily_total _ _).
  change (history (add_entries a [(now_from, "Transfer Sent", - amount);
                                  (now_to, "Transfer Received",
                                   if 0 <? transfer_fee service
                                   then amount - transfer_fee service else amount)])
          = last_n MAX_TRANSACTION_HISTORY
              (history a ++ map (history_entry a)
                 [(now_from, "Transfer Sent", - amount);
                  (now_to, "Transfer Received",
                   if 0 <? transfer_fee service
                   then amount - transfer_fee service else amount)])).
  apply add_entries_history. exact Hcap.
Qed.

Lemma transfer_to_the_same_account_witness :
  let h' := snd (service_transfer guild_treasurer 1%Z 2%Z 0%nat 0%nat 25.0 heroes) in
  let credited := if 0 <? transfer_fee guild_treasurer
                  then 25.0 - transfer_fee guild_treasurer else 25.0 in
  let final := balance (heroes 0%nat) - 25.0 + credited in
  balance (h' 0%nat) = final
  /\ daily_total (h' 0%nat) = daily_total (heroes 0%nat) + 25.0
  /\ investment_balance (h' 0%nat) = investment_balance (heroes 0%nat)
  /\ items (h' 0%nat) = items (heroes 0%nat)
  /\ history (h' 0%nat)
     = last_n MAX_TRANSACTION_HISTORY
         (history (heroes 0%nat)
          ++ [mkEntry 1%Z "Transfer Sent" (- 25.0) final;
              mkEntry 2%Z "Transfer Received" credited final])
  /\ forall q, q <> 0%nat -> h' q = heroes q.
Proof.
  apply (transfer_to_the_same_account guild_treasurer 1%Z 2%Z 0%nat 25.0 heroes).
  - unfold history_within_capacity. vm_compute. lia.
  - vm_compute. reflexivity.
Defined.

(** * Calls touch only the accounts they are given *)

Lemma on_account_other (p q : Ptr) (f : Account -> Result * Account) (h : Heap) :
  q <> p -> snd (on_account p f h) q = h q.
Proof.
  intros H. unfold on_account. destruct (f (h p)). cbn [snd]. apply heap_set_other, H.
Qed.

Lemma service_transfer_frame service now_from now_to from to amount h (q : Ptr) :
  let h' := snd (service_transfer service now_from now_to from to amount h) in
  investment_balance (h' q) = investment_balance (h q)
  /\ items (h' q) = items (h q)
  /\ owner (h' q) = owner (h q)
  /\ (q <> from -> daily_total (h' q) = daily_total (h q))
  /\ (q <> from -> q <> to -> h' q = h q).
Proof.
  cbv zeta.
  destruct (result_cases (fst (service_transfer service now_from now_to from to amount h)))
    as [Hok|[e He]].
  - destruct (Nat.eq_dec from to) as [<-|Hne].
    + destruct (service_transfer_self service now_from now_to from amount h Hok) as [Hp Hq].
      destruct (Nat.eq_dec q from) as [->|Hqne].
      * rewrite Hp. frame. repeat split; intros; congruence.
      * rewrite (Hq q Hqne). repeat split.
    + destruct (service_transfer_distinct service now_from now_to from to amount h Hne Hok)
        as (Hf & Ht & Hq).
      destruct (Nat.eq_dec q from) as [->|Hqf];
        [rewrite Hf; frame; repeat split; intros; congruence|].
      destruct (Nat.eq_dec q to) as [->|Hqt];
        [rewrite Ht; frame; repeat split; intros; congruence|].
      rewrite (Hq q Hqf Hqt). repeat split.
  - rewrite (service_transfer_failure service now_from now_to from to amount h e He).
    repeat split.
Qed.

(** X17. A call changes no account but the ones it is given: every
    account other than the one passed (the two passed, for a transfer) is
    exactly as before, whether the call succeeds or fails.  And a transfer
    never changes the investment balance, the items or the owner of any
    account, nor the daily total of any account but the sender's. *)
Theorem calls_touch_only_the_accounts_they_name :
  (forall op h q, ~ names_account op q -> snd (exec op h) q = h q)
  /\ (forall service now_from now_to from to amount h q,
        let h' := snd (service_transfer service now_from now_to from to amount h) in
        investment_balance (h' q) = investment_balance (h q)
        /\ items (h' q) = items (h q)
        /\ owner (h' q) = owner (h q)
        /\ (q <> from -> daily_total (h' q) = daily_total (h q))).
Proof.
  split.
  - intros op h q Hq.
    destruct op as [service p amount now | service p amount now
                   | service from to amount now_from now_to
                   | service p amount now | service p now | service p amount now
                   | p name quantity now | p name quantity now | p];
      cbn [exec snd names_account] in *;
      try (apply on_account_other; exact Hq);
      try (apply heap_set_other; exact Hq).
    apply service_transfer_frame; intros E; apply Hq; auto.
  - intros service now_from now_to from to amount h q. cbv zeta.
    destruct (service_transfer_frame service now_from now_to from to amount h q)
      as (H1 & H2 & H3 & H4 & _).
    auto.
Qed.

(** * Setting up a service, opening an account, the daily limit *)

Lemma positive_limit (service : BankingService) :
  (0 <? effective_daily_limit service) = true.
Proof.
  unfold effective_daily_limit.
  destruct (0 <? daily_limit service) eqn:E; [exact E | reflexivity].
Qed.

Lemma zero_within_daily_limit (service : BankingService) :
  (effective_daily_limit service <? 0) = false.
Proof.
  apply IEEE.positive_never_negative, IEEE.ltb_leb_antisym, positive_limit.
Qed.

(** X18. For a service set up by [service_init], the limit that
    [enforce_daily] applies is the configured daily limit when that is above
    0 and 25000.0 otherwise, and it is always above 0.  When the configured
    limit is a number, the stored [daily_limit] is already that limit, so the
    fallback inside [enforce_daily] never fires.  The three fees and the
    investment rate are stored as given, unchecked, and the name is the given
    one ("Bank" for NULL) cut to 47 characters. *)
Theorem service_init_stores_a_positive_limit
    (name : option string)
    (deposit_fee' withdrawal_fee' transfer_fee' investment_rate' daily_limit' : double) :
  let service := service_init name deposit_fee' withdrawal_fee' transfer_fee'
                   investment_rate' daily_limit' in
  let given := match name with Some n => n | None => "Bank" end in
  effective_daily_limit service = (if 0 <? daily_limit' then daily_limit' else 25000.0)
  /\ (0 <? effective_daily_limit service) = true
  /\ (is_nan daily_limit' = false ->
      daily_limit service = effective_daily_limit service
      /\ (0 <? daily_limit service) = true)
  /\ (deposit_fee service = deposit_fee' /\ withdrawal_fee service = withdrawal_fee'
      /\ transfer_fee service = transfer_fee' /\ investment_rate service = investment_rate')
  /\ String.length (service_name service) = Nat.min 47 (String.length given)
  /\ prefix (service_name service) given = true
  /\ ((String.length given < MAX_SERVICE_NAME)%nat -> service_name service = given).
Proof.
  cbv zeta.
  assert (Hlimit : effective_daily_limit
                     (service_init name deposit_fee' withdrawal_fee' transfer_fee'
                        investment_rate' daily_limit')
                   = if 0 <? daily_limit' then daily_limit' else 25000.0).
  { unfold effective_daily_limit, service_init, BANK_MAX_DAILY_TOTAL. cbn [daily_limit].
    destruct (daily_limit' <=? 0) eqn:E; [|reflexivity].
    destruct (0 <? daily_limit') eqn:E'; [|reflexivity].
    rewrite (IEEE.ltb_leb_antisym _ _ E') in E. discriminate. }
  split; [exact Hlimit|]. split; [apply positive_limit|]. split; [|split; [|split; [|split]]].
  - intros Hn. rewrite Hlimit.
    unfold service_init, BANK_MAX_DAILY_TOTAL. cbn [daily_limit].
    rewrite (IEEE.leb_negb_ltb daily_limit' 0 Hn eq_refl).
    destruct (0 <? daily_limit') eqn:E; cbn [negb]; auto.
  - cbn. auto.
  - apply snprintf_s_length.
  - apply substring_0_prefix.
  - apply snprintf_s_fits.
Qed.

(** X19. [account_reset] leaves a balance of 0 for an initial balance
    below 0 and the initial balance otherwise, so a balance that is never
    below 0 (and at least 0 unless the initial balance is NaN), no
    investment, an empty daily total, no items, no history, and as owner the
    given name ("Unknown" for NULL) cut to 63 characters.  On such an account
    no item is found and every retrieval fails. *)
Theorem account_reset_opens_an_empty_account (o : option string) (initial_balance : double) :
  let a := account_reset o initial_balance in
  let given := match o with Some n => n | None => "Unknown" end in
  ((initial_balance <? 0) = true -> balance a = 0)
  /\ ((initial_balance <? 0) = false -> balance a = initial_balance)
  /\ (balance a <? 0) = false
  /\ (is_nan initial_balance = false -> (0 <=? balance a) = true)
  /\ investment_balance a = 0 /\ daily_total a = 0
  /\ item_count a = 0%nat /\ history_count a = 0%nat
  /\ String.length (owner a) = Nat.min 63 (String.length given)
  /\ prefix (owner a) given = true
  /\ ((String.length given < 64)%nat -> owner a = given)
  /\ (forall name, account_find_item a name = None)
  /\ (forall now name quantity, fst (service_retrieve_item now name quantity a) <> OK).
Proof.
  cbv zeta. unfold account_reset at 1 2 3 4 5 6 7 8.
  cbn [balance investment_balance daily_total owner item_count history_count items history
       List.length].
  split; [intros ->; reflexivity|]. split; [intros ->; reflexivity|].
  split; [destruct (initial_balance <? 0) eqn:E; [reflexivity | exact E]|].
  split.
  { intros Hn. destruct (initial_balance <? 0) eqn:E; [reflexivity|].
    apply IEEE.not_below_zero_at_least_zero; assumption. }
  repeat split.
  - apply snprintf_s_length.
  - apply substring_0_prefix.
  - apply snprintf_s_fits.
  - intros [name|]; reflexivity.
  - intros now [name|] quantity; cbn; [|discriminate].
    destruct (quantity =? 0)%N; discriminate.
Qed.

Lemma zero_add_ltb (l x : float) : (l <? 0 + x) = (l <? x).
Proof.
  rewrite !FloatAxioms.ltb_spec, FloatAxioms.add_spec, IEEE.Prim2SF_zero.
  unfold SFltb, SF64add.
  destruct (Prim2SF x) as [[|]|[|]| |[|] m e]; cbn [SFadd];
    destruct (Prim2SF l) as [[|]|[|]| |[|] ml el]; reflexivity.
Qed.

(** X20. After [service_reset_daily] the daily gate compares the amount
    alone with the limit: it lets through exactly the amounts that are not
    above the limit, an amount in range and above the limit still fails with
    the daily-limit message, and a deposit or withdrawal that succeeds leaves
    the amount as the new daily total. *)
Theorem daily_reset_reopens_the_gate
    (service : BankingService) (now : time_t) (amount : double) (a : Account) :
  let limit := effective_daily_limit service in
  let a0 := service_reset_daily a in
  (enforce_daily service a0 amount = OK <-> (limit <? amount) = false)
  /\ ((limit <? amount) = true -> enforce_amount amount = OK ->
      service_deposit service now amount a0 = (Err (ErrDailyLimit (0 + amount) limit), a0)
      /\ service_withdraw service now amount a0
         = (Err (ErrDailyLimit (0 + amount) limit), a0))
  /\ (fst (service_deposit service now amount a0) = OK ->
      daily_total (snd (service_deposit service now amount a0)) = 0 + amount)
  /\ (fst (service_withdraw service now amount a0) = OK ->
      daily_total (snd (service_withdraw service now amount a0)) = 0 + amount).
Proof.
  cbv zeta.
  assert (Hgate : enforce_daily service (service_reset_daily a) amount
            = if effective_daily_limit service <? amount
              then Err (ErrDailyLimit (0 + amount) (effective_daily_limit service)) else OK).
  { rewrite enforce_daily_spec. cbn [service_reset_daily daily_total set_daily_total].
    rewrite zero_add_ltb. reflexivity. }
  split; [|split; [|split]].
  - rewrite Hgate. destruct (_ <? amount); split; auto; discriminate.
  - intros Hl Hok. unfold service_deposit, service_withdraw.
    rewrite Hok, Hgate, Hl. auto.
  - intros H. rewrite (service_deposit_ok _ _ _ _ H). cbn [snd]. frame. reflexivity.
  - intros H. rewrite (service_withdraw_ok _ _ _ _ H). cbn [snd]. frame. reflexivity.
Qed.

Lemma exec_within_daily_limit (service : BankingService) (op : Operation) (h : Heap) :
  uses_service service op ->
  (forall q, within_daily_limit service (h q)) ->
  forall q, within_daily_limit service (snd (exec op h) q).
Proof.
  intros Huse Hh.
  destruct op as [s p amount now | s p amount now
                 | s from to amount now_from now_to
                 | s p amount now | s p now | s p amount now
                 | p name quantity now | p name quantity now | p];
    cbn [exec snd uses_service] in *; subst;
    try (apply on_account_pointwise; [|exact Hh]; intros a Ha);
    try (apply heap_set_pointwise; [exact Hh|]; pose proof (Hh p) as Ha).
  - destruct (result_cases (fst (service_deposit service now amount a))) as [H|[e H]].
    + destruct (service_deposit_daily service now amount a) as (_ & Hok & _).
      destruct (Hok H) as [Hgate Hd]. unfold within_daily_limit. rewrite Hd. exact Hgate.
    + rewrite (service_deposit_failure _ _ _ _ _ H). exact Ha.
  - destruct (result_cases (fst (service_withdraw service now amount a))) as [H|[e H]].
    + destruct (service_withdraw_daily service now amount a) as (_ & Hok & _).
      destruct (Hok H) as [Hgate Hd]. unfold within_daily_limit. rewrite Hd. exact Hgate.
    + rewrite (service_withdraw_failure _ _ _ _ _ H). exact Ha.
  - intros q.
    destruct (result_cases (fst (service_transfer service now_from now_to from to amount h)))
      as [H|[e H]].
    + destruct (service_transfer_daily service now_from now_to from to amount h)
        as (_ & Hok & _).
      destruct (Hok H) as (Hgate & Hd & _).
      destruct (Nat.eq_dec q from) as [->|Hq].
      * unfold within_daily_limit. rewrite Hd. exact Hgate.
      * destruct (service_transfer_frame service now_from now_to from to amount h q)
          as (_ & _ & _ & Hsame & _).
        unfold within_daily_limit. rewrite (Hsame Hq). apply Hh.
    + rewrite (service_transfer_failure service now_from now_to from to amount h e H).
      apply Hh.
  - unfold within_daily_limit. unfold service_invest. guards; cbn [snd]; frame; exact Ha.
  - unfold within_daily_limit. unfold service_apply_investment_yield.
    guards; frame; exact Ha.
  - unfold within_daily_limit. unfold service_withdraw_investment.
    guards; cbn [snd]; frame; exact Ha.
  - unfold within_daily_limit.
    destruct (service_store_item_currency now name quantity a) as (_ & _ & -> & _). exact Ha.
  - unfold within_daily_limit.
    destruct (service_retrieve_item_currency now name quantity a) as (_ & _ & -> & _).
    exact Ha.
  - apply zero_within_daily_limit.
Qed.

(** X21. When all calls go through one service, no account that
    [account_reset] created ever has a daily total above the limit that the
    service's gate uses, whatever the calls and whether they succeed or
    fail. *)
Theorem daily_total_stays_within_the_limit
    (service : BankingService) (h : Heap) (calls : list Operation) (p : Ptr) :
  fresh_heap h ->
  Forall (uses_service service) calls ->
  (effective_daily_limit service <? daily_total (drive calls h p)) = false.
Proof.
  intros Hfresh Huse.
  assert (H0 : forall q, within_daily_limit service (h q)).
  { intros q. destruct (Hfresh q) as (o & b & ->). apply zero_within_daily_limit. }
  clear Hfresh. revert h H0 p. unfold drive.
  induction Huse as [|op calls Hop Huse IH]; intros h H0 p; cbn [fold_left]; [apply H0|].
  apply IH. apply exec_within_daily_limit; assumption.
Qed.

Lemma daily_total_stays_within_the_limit_witness :
  (effective_daily_limit guild_treasurer <? daily_total (drive demo_calls heroes 0%nat))
  = false.
Proof.
  apply (daily_total_stays_within_the_limit guild_treasurer heroes demo_calls 0%nat).
  - exact heroes_fresh.
  - unfold demo_calls. repeat (apply Forall_cons; [cbn; auto|]). apply Forall_nil.
Defined.

(** * Rounding keeps the order

    Adding a number that is at least zero to a valid binary64 number never
    gives less than that number, and taking one away never gives more: the
    number itself is representable, and rounding to nearest does not step
    over a representable number. *)

Module Rounding.
Import IEEE.

Lemma bounded_exponent (m : positive) (e : Z) :
  bounded prec emax m e = true -> (e <= 971)%Z.
Proof.
  unfold bounded. intros H. apply andb_prop in H as [_ H].
  apply Z.leb_le in H. exact H.
Qed.

Lemma shl_align_spec (m : positive) (e t : Z) :
  exists k, (0 <= k)%Z
    /\ Zpos (fst (shl_align m e t)) = (Zpos m * 2 ^ k)%Z
    /\ snd (shl_align m e t) = (e - k)%Z
    /\ Zpos (digits2_pos (fst (shl_align m e t))) = (Zpos (digits2_pos m) + k)%Z.
Proof.
  unfold shl_align. destruct (t - e)%Z as [|d|d] eqn:E; cbn [fst snd].
  - exists 0%Z. rewrite Z.mul_1_r. lia.
  - exists 0%Z. rewrite Z.mul_1_r. lia.
  - exists (Zpos d). rewrite iter_xO_value, digits2_pos_iter_xO. lia.
Qed.

Lemma pow2_pos (k : Z) : (0 <= k)%Z -> (0 < 2 ^ k)%Z.
Proof. intros H. apply Z.pow_pos_nonneg; lia. Qed.

Lemma pow2_lt_inv (a b : Z) : (0 <= b)%Z -> (2 ^ a < 2 ^ b)%Z -> (a < b)%Z.
Proof. intros Hb H. apply (Z.pow_lt_mono_r_iff 2); lia. Qed.

(** The digits of a positive number that is at least [m * 2^k]. *)
Lemma digits_lower (m z : positive) (k : Z) :
  (0 <= k)%Z -> (Zpos m * 2 ^ k <= Zpos z)%Z ->
  (Zpos (digits2_pos m) + k <= Zpos (digits2_pos z))%Z.
Proof.
  intros Hk H.
  pose proof (digits2_pos_bounds m) as [Lm _].
  pose proof (digits2_pos_bounds z) as [_ Uz].
  assert (L : (2 ^ (Zpos (digits2_pos m) - 1 + k) <= Zpos z)%Z).
  { rewrite Z.pow_add_r by lia. pose proof (pow2_pos k Hk). nia. }
  assert (2 ^ (Zpos (digits2_pos m) - 1 + k) < 2 ^ Zpos (digits2_pos z))%Z by lia.
  apply pow2_lt_inv in H0; lia.
Qed.

Lemma digits_upper (m z : positive) (k : Z) :
  (0 <= k)%Z -> (Zpos z <= Zpos m * 2 ^ k)%Z ->
  (Zpos (digits2_pos z) <= Zpos (digits2_pos m) + k)%Z.
Proof.
  intros Hk H.
  pose proof (digits2_pos_bounds m) as [_ Um].
  pose proof (digits2_pos_bounds z) as [Lz _].
  assert (U : (Zpos z < 2 ^ (Zpos (digits2_pos m) + k))%Z).
  { rewrite Z.pow_add_r by lia. pose proof (pow2_pos k Hk). nia. }
  assert (2 ^ (Zpos (digits2_pos z) - 1) < 2 ^ (Zpos (digits2_pos m) + k))%Z by lia.
  apply pow2_lt_inv in H0; lia.
Qed.

(** The second shift of [binary_round_aux] only absorbs a carry: a mantissa of
    at most [2^53] comes out unchanged, or halved when it is [2^53]. *)
Lemma carry_shift (m1 e' : Z) :
  (1 <= m1 <= 2 ^ 53)%Z -> (-1074 <= e')%Z ->
  let n' := Z.max 0 (fexp prec emax (Zdigits2 m1 + e') - e') in
  (n' = 0%Z /\ (m1 / 2 ^ n' = m1)%Z)
  \/ (n' = 1%Z /\ m1 = (2 ^ 53)%Z /\ (m1 / 2 ^ n' = 2 ^ 52)%Z).
Proof.
  intros Hm He. cbv zeta. rewrite fexp_bounds.
  pose proof (Zdigits2_le_pow m1 53 ltac:(lia) ltac:(lia)) as Hd.
  destruct m1 as [|p|p]; try lia. cbn [Zdigits2] in *.
  pose proof (digits2_pos_bounds p) as [Lp Up].
  destruct (Z.le_gt_cases (Zpos (digits2_pos p)) 53) as [H|H].
  - left. replace (Z.max 0 (Z.max (Z.pos (digits2_pos p) + e' - 53) (-1074) - e'))
      with 0%Z by lia.
    rewrite Z.div_1_r. auto.
  - right. assert (Hd54 : Zpos (digits2_pos p) = 54%Z) by lia.
    rewrite Hd54 in *.
    replace (Z.max 0 (Z.max (54 + e' - 53) (-1074) - e')) with 1%Z by lia.
    change (2 ^ (54 - 1))%Z with (2 ^ 53)%Z in Lp.
    assert (E : Zpos p = (2 ^ 53)%Z) by lia. rewrite E.
    repeat split; reflexivity.
Qed.

(** Rounding a positive mantissa that stands for at least [ma * 2^ea], a
    valid binary64 number, does not go below that number. *)
Lemma binary_round_aux_lower (mz : positive) (ez' : Z) (ma : positive) (ea : Z)
    (l : location) :
  bounded prec emax ma ea = true ->
  (ez' <= ea)%Z -> (Zpos ma * 2 ^ (ea - ez') <= Zpos mz)%Z ->
  sf_above ma ea (binary_round_aux prec emax false (Zpos mz) ez' l).
Proof.
  intros B Hle Hval.
  pose proof (bounded_inv _ _ B) as (Da & Ea & Ca).
  pose proof (digits_lower ma mz (ea - ez') ltac:(lia) Hval) as Hd.
  pose proof (digits2_pos_bounds mz) as [Lz Uz].
  unfold binary_round_aux.
  pose proof (shr_fexp_spec (Zpos mz) ez' l ltac:(lia)) as [S1 E1]. cbv zeta in S1, E1.
  rewrite fexp_bounds in S1, E1. cbn [Zdigits2] in S1, E1.
  destruct (shr_fexp prec emax (Zpos mz) ez' l) as [mrs' e']. cbn [fst snd] in S1, E1.
  set (d := Zpos (digits2_pos mz)) in *.
  set (n := Z.max 0 (Z.max (d + ez' - 53) (-1074) - ez')) in *.
  assert (Hn : (0 <= n)%Z) by lia.
  assert (He' : (ea <= e')%Z) by lia.
  pose proof (pow2_pos n Hn) as Hpn.
  assert (Hsame : e' = ea -> (Zpos ma <= shr_m mrs')%Z).
  { intros E. rewrite S1. apply Z.div_le_lower_bound; [exact Hpn|].
    replace (ea - ez')%Z with n in Hval by lia. lia. }
  assert (Hpos : (1 <= shr_m mrs')%Z).
  { destruct (Z.eq_dec e' ea) as [E|E]; [specialize (Hsame E); lia|].
    assert (En : n = (d - 53)%Z) by lia.
    rewrite S1. apply Z.div_le_lower_bound; [exact Hpn|].
    assert (2 ^ n * 2 ^ 52 = 2 ^ (d - 1))%Z.
    { rewrite <- Z.pow_add_r by lia. f_equal. lia. }
    assert (0 < 2 ^ 52)%Z by reflexivity. nia. }
  assert (Hlt : (shr_m mrs' < 2 ^ 53)%Z).
  { rewrite S1. apply Z.div_lt_upper_bound; [exact Hpn|].
    rewrite <- Z.pow_add_r by lia.
    eapply Z.lt_le_trans; [exact Uz|]. apply Z.pow_le_mono_r; lia. }
  pose proof (round_nearest_even_bounds (shr_m mrs') (loc_of_shr_record mrs')) as Bm.
  set (m1 := round_nearest_even (shr_m mrs') (loc_of_shr_record mrs')) in *.
  pose proof (shr_fexp_spec m1 e' loc_Exact ltac:(lia)) as [S2 E2]. cbv zeta in S2, E2.
  pose proof (carry_shift m1 e' ltac:(lia) ltac:(lia)) as C. cbv zeta in C.
  destruct (shr_fexp prec emax m1 e' loc_Exact) as [mrs'' e'']. cbn [fst snd] in S2, E2.
  destruct C as [[En' Hdiv]|(En' & Em1 & Hdiv)]; rewrite En' in E2; rewrite Hdiv in S2;
    rewrite S2.
  - destruct m1 as [|p|p] eqn:Ep; try lia.
    destruct (_ <=? _)%Z; cbn [sf_above]; [|exact I].
    destruct (Z.eq_dec e' ea) as [E|E]; [right | left; lia].
    split; [lia|]. specialize (Hsame E). lia.
  - change (2 ^ 52)%Z with (Zpos 4503599627370496).
    destruct (_ <=? _)%Z; cbn [sf_above]; [|exact I]. left. lia.
Qed.

Lemma binary_round_lower (M : positive) (ez : Z) (ma : positive) (ea : Z) :
  bounded prec emax ma ea = true ->
  (ez <= ea)%Z -> (Zpos ma * 2 ^ (ea - ez) <= Zpos M)%Z ->
  sf_above ma ea (binary_round prec emax false M ez).
Proof.
  intros B Hle Hval. unfold binary_round.
  destruct (shl_align_spec M ez (fexp prec emax (Zpos (digits2_pos M) + ez)))
    as (k & Hk & Hm & He & _).
  destruct (shl_align M ez _) as [mz ez']. cbn [fst snd] in Hm, He.
  apply binary_round_aux_lower; [exact B | lia |].
  rewrite Hm, He. replace (ea - (ez - k))%Z with (ea - ez + k)%Z by lia.
  rewrite Z.pow_add_r by lia. pose proof (pow2_pos k Hk). nia.
Qed.

Lemma sf_above_leb (ma : positive) (ea : Z) (r : spec_float) :
  sf_above ma ea r -> SFleb (S754_finite false ma ea) r = true.
Proof.
  unfold SFleb. destruct r as [s|[|]| |[|] mr er]; cbn [sf_above SFcompare];
    try contradiction; try reflexivity.
  intros [H|[-> H]].
  - apply Z.compare_lt_iff in H. rewrite H. reflexivity.
  - rewrite Z.compare_refl.
    change (Pos.compare_cont Eq ma mr) with (Pos.compare ma mr).
    destruct (Pos.compare_spec ma mr); try reflexivity. lia.
Qed.

Lemma SFcompare_finite_refl (m : positive) (e : Z) :
  SFcompare (S754_finite false m e) (S754_finite false m e) = Some Eq.
Proof. cbn [SFcompare]. rewrite Z.compare_refl, Pos.compare_cont_refl. reflexivity. Qed.

(** Adding a number that is at least zero does not lower a number that is at
    least zero. *)
Lemma SFadd_above (a b : spec_float) :
  valid_binary a = true -> sf_geq0 a -> sf_geq0 b -> SFleb a (SF64add a b) = true.
Proof.
  unfold SF64add.
  destruct a as [sa|[|]| |[|] ma ea], b as [sb|[|]| |[|] mb eb];
    cbn [sf_geq0 SFadd valid_binary cond_Zopp]; intros Va Ha Hb;
    try contradiction; try reflexivity;
    try (destruct sa; try destruct sb; reflexivity);
    try (unfold SFleb; rewrite SFcompare_finite_refl; reflexivity).
  apply sf_above_leb.
  change (Zpos (fst (shl_align ma ea (Z.min ea eb)))
          + Zpos (fst (shl_align mb eb (Z.min ea eb))))%Z
    with (Zpos (fst (shl_align ma ea (Z.min ea eb))
                + fst (shl_align mb eb (Z.min ea eb)))).
  cbn [binary_normalize].
  apply binary_round_lower; [exact Va | lia |].
  rewrite Pos2Z.inj_add, shl_align_value by lia. lia.
Qed.

(** The round bit after [p] shifts is the last bit shifted out. *)
Lemma iter_shr_1_r (p : positive) :
  forall mrs, (0 <= shr_m mrs)%Z ->
    shr_r (SpecFloat.iter_pos shr_1 p mrs) = true ->
    Z.odd (shr_m mrs / 2 ^ (Zpos p - 1)) = true.
Proof.
  induction p as [p IH|p IH|]; intros mrs Hm Hr; cbn [SpecFloat.iter_pos] in Hr.
  - assert (H1 : (0 <= shr_m (shr_1 mrs))%Z).
    { rewrite shr_1_m by exact Hm. apply Z.div_pos; lia. }
    assert (H2 : (0 <= shr_m (SpecFloat.iter_pos shr_1 p (shr_1 mrs)))%Z).
    { rewrite iter_shr_1_m by exact H1. apply Z.div_pos; [exact H1|]. apply pow2_pos; lia. }
    apply IH in Hr; [|exact H2].
    rewrite iter_shr_1_m in Hr by exact H1. rewrite shr_1_m in Hr by exact Hm.
    rewrite !Z.div_div in Hr by (try apply pow2_pos; lia).
    match type of Hr with context [(shr_m mrs / ?X)%Z] =>
      replace X with (2 ^ (Z.pos p~1 - 1))%Z in Hr; [exact Hr|] end.
    replace (Z.pos p~1 - 1)%Z with (1 + (Z.pos p + (Z.pos p - 1)))%Z by lia.
    rewrite !Z.pow_add_r by lia. reflexivity.
  - assert (H2 : (0 <= shr_m (SpecFloat.iter_pos shr_1 p mrs))%Z).
    { rewrite iter_shr_1_m by exact Hm. apply Z.div_pos; [exact Hm|]. apply pow2_pos; lia. }
    apply IH in Hr; [|exact H2].
    rewrite iter_shr_1_m in Hr by exact Hm.
    rewrite !Z.div_div in Hr by (try apply pow2_pos; lia).
    match type of Hr with context [(shr_m mrs / ?X)%Z] =>
      replace X with (2 ^ (Z.pos p~0 - 1))%Z in Hr; [exact Hr|] end.
    replace (Z.pos p~0 - 1)%Z with (Z.pos p + (Z.pos p - 1))%Z by lia.
    rewrite !Z.pow_add_r by lia. reflexivity.
  - change (2 ^ (1 - 1))%Z with 1%Z. rewrite Z.div_1_r.
    destruct mrs as [m r s]. cbn [shr_m] in *.
    destruct m as [|[q|q|]|q]; cbn [shr_1 shr_r] in Hr; try discriminate; try reflexivity; lia.
Qed.

(** Rounding to nearest rounds up only past the half: when the mantissa
    grows, the last bit shifted out was set. *)
Lemma round_up_only_past_half (mz ez' : Z) :
  (0 <= mz)%Z ->
  let n := Z.max 0 (fexp prec emax (Zdigits2 mz + ez') - ez') in
  let mrs' := fst (shr_fexp prec emax mz ez' loc_Exact) in
  let m1 := round_nearest_even (shr_m mrs') (loc_of_shr_record mrs') in
  m1 = shr_m mrs'
  \/ (m1 = (shr_m mrs' + 1)%Z /\ (1 <= n)%Z /\ Z.odd (mz / 2 ^ (n - 1)) = true).
Proof.
  intros Hm. cbv zeta. unfold shr_fexp, shr.
  destruct (fexp prec emax (Zdigits2 mz + ez') - ez')%Z as [|p|p] eqn:E; cbn [fst].
  - left. reflexivity.
  - pose proof (iter_shr_1_r p (shr_record_of_loc mz loc_Exact)) as Hr.
    rewrite shr_record_of_loc_m in Hr. specialize (Hr Hm).
    destruct (SpecFloat.iter_pos shr_1 p (shr_record_of_loc mz loc_Exact)) as [m r s].
    cbn [shr_m shr_r] in *.
    destruct r.
    + specialize (Hr eq_refl).
      replace (Z.max 0 (Z.pos p)) with (Z.pos p) by lia.
      destruct s; cbn [loc_of_shr_record round_nearest_even].
      * right. repeat split; [lia | exact Hr].
      * destruct (Z.even m); [left; reflexivity | right; repeat split; [lia | exact Hr]].
    + left. destruct s; reflexivity.
  - left. reflexivity.
Qed.

(** Rounding a positive mantissa that stands for at most [ma * 2^ea], a
    valid binary64 number, does not go above that number. *)
Lemma binary_round_aux_upper (mz : positive) (ez' : Z) (ma : positive) (ea : Z) :
  bounded prec emax ma ea = true ->
  (ez' <= ea)%Z -> (Zpos mz <= Zpos ma * 2 ^ (ea - ez'))%Z ->
  sf_below ma ea (binary_round_aux prec emax false (Zpos mz) ez' loc_Exact).
Proof.
  intros B Hle Hval.
  pose proof (bounded_inv _ _ B) as (Da & Ea & Ca).
  pose proof (bounded_exponent _ _ B) as Ua.
  pose proof (digits_upper ma mz (ea - ez') ltac:(lia) Hval) as Hd.
  pose proof (digits2_pos_bounds mz) as [Lz Uz].
  pose proof (digits2_pos_bounds ma) as [La Uma].
  unfold binary_round_aux.
  pose proof (round_up_only_past_half (Zpos mz) ez' ltac:(lia)) as R. cbv zeta in R.
  pose proof (shr_fexp_spec (Zpos mz) ez' loc_Exact ltac:(lia)) as [S1 E1].
  cbv zeta in S1, E1.
  rewrite fexp_bounds in S1, E1, R. cbn [Zdigits2] in S1, E1, R.
  destruct (shr_fexp prec emax (Zpos mz) ez' loc_Exact) as [mrs' e'].
  cbn [fst snd] in S1, E1, R.
  set (d := Zpos (digits2_pos mz)) in *.
  set (n := Z.max 0 (Z.max (d + ez' - 53) (-1074) - ez')) in *.
  assert (Hn : (0 <= n)%Z) by lia.
  assert (He' : (e' <= ea)%Z) by lia.
  assert (He'' : (-1074 <= e')%Z) by lia.
  pose proof (pow2_pos n Hn) as Hpn.
  pose proof (pow2_pos (ea - e') ltac:(lia)) as Hpk.
  set (K := (Zpos ma * 2 ^ (ea - e'))%Z).
  assert (HK : (Zpos mz <= K * 2 ^ n)%Z).
  { unfold K. rewrite <- Z.mul_assoc, <- Z.pow_add_r by lia.
    replace (ea - e' + n)%Z with (ea - ez')%Z by lia. exact Hval. }
  assert (Hm' : (0 <= shr_m mrs' <= K)%Z).
  { rewrite S1. split; [apply Z.div_pos; lia|].
    apply Z.div_le_upper_bound; [exact Hpn | lia]. }
  assert (Hlt : (shr_m mrs' < 2 ^ 53)%Z).
  { rewrite S1. apply Z.div_lt_upper_bound; [exact Hpn|].
    rewrite <- Z.pow_add_r by lia.
    eapply Z.lt_le_trans; [exact Uz|]. apply Z.pow_le_mono_r; lia. }
  set (m1 := round_nearest_even (shr_m mrs') (loc_of_shr_record mrs')) in *.
  assert (Hm1 : (0 <= m1 <= K)%Z).
  { destruct R as [->|(-> & H1n & Hodd)]; [exact Hm'|].
    split; [lia|].
    assert (Hq : (Zpos mz / 2 ^ (n - 1) = 2 * shr_m mrs' + 1)%Z).
    { rewrite S1.
      replace (2 ^ n)%Z with (2 ^ (n - 1) * 2)%Z
        by (rewrite Z.mul_comm, <- Z.pow_succ_r by lia; f_equal; lia).
      rewrite <- Z.div_div by (try apply pow2_pos; lia).
      rewrite (Z.div_mod (Zpos mz / 2 ^ (n - 1)) 2) at 1 by lia.
      rewrite <- Z.bit0_mod, Z.bit0_odd, Hodd. reflexivity. }
    pose proof (pow2_pos (n - 1) ltac:(lia)) as Hp1.
    assert (Hge : ((2 * shr_m mrs' + 1) * 2 ^ (n - 1) <= Zpos mz)%Z).
    { rewrite <- Hq. rewrite Z.mul_comm. apply Z.mul_div_le. exact Hp1. }
    replace (2 ^ n)%Z with (2 * 2 ^ (n - 1))%Z in HK
      by (rewrite <- Z.pow_succ_r by lia; f_equal; lia).
    nia. }
  assert (Hm153 : (m1 <= 2 ^ 53)%Z).
  { pose proof (round_nearest_even_bounds (shr_m mrs') (loc_of_shr_record mrs')).
    fold m1 in H. lia. }
  pose proof (shr_fexp_spec m1 e' loc_Exact ltac:(lia)) as [S2 E2]. cbv zeta in S2, E2.
  destruct (Z.eq_dec m1 0) as [Z0|NZ].
  { destruct (shr_fexp prec emax m1 e' loc_Exact) as [mrs'' e'']. cbn [fst snd] in S2, E2.
    rewrite Z0 in S2. rewrite Z.div_0_l in S2 by (apply Z.pow_nonzero; lia).
    rewrite S2. exact I. }
  pose proof (carry_shift m1 e' ltac:(lia) ltac:(lia)) as C. cbv zeta in C.
  destruct (shr_fexp prec emax m1 e' loc_Exact) as [mrs'' e'']. cbn [fst snd] in S2, E2.
  assert (Hma : (Zpos ma < 2 ^ 53)%Z).
  { eapply Z.lt_le_trans; [exact Uma|]. apply Z.pow_le_mono_r; lia. }
  destruct C as [[En' Hdiv]|(En' & Em1 & Hdiv)]; rewrite En' in E2; rewrite Hdiv in S2;
    rewrite S2.
  - destruct m1 as [|p|p] eqn:Ep; try lia.
    assert (Hfin : (e'' <=? emax - prec)%Z = true)
      by (apply Z.leb_le; change (emax - prec)%Z with 971%Z; lia).
    rewrite Hfin. cbn [sf_below].
    destruct (Z.eq_dec e' ea) as [E|E]; [right | left; lia].
    split; [lia|]. unfold K in Hm1. rewrite E, Z.sub_diag in Hm1.
    change (2 ^ 0)%Z with 1%Z in Hm1. lia.
  - change (2 ^ 52)%Z with (Zpos 4503599627370496).
    assert (Hgap : (e' < ea)%Z).
    { destruct (Z.eq_dec e' ea) as [E|E]; [|lia]. exfalso.
      unfold K in Hm1. rewrite E, Z.sub_diag in Hm1.
      change (2 ^ 0)%Z with 1%Z in Hm1. lia. }
    assert (Hfin : (e'' <=? emax - prec)%Z = true)
      by (apply Z.leb_le; change (emax - prec)%Z with 971%Z; lia).
    rewrite Hfin. cbn [sf_below].
    destruct (Z.eq_dec e'' ea) as [E|E]; [right | left; lia].
    split; [exact E|].
    assert (Hk1 : (ea - e' = 1)%Z) by lia.
    unfold K in Hm1. rewrite Hk1 in Hm1. change (2 ^ 1)%Z with 2%Z in Hm1.
    change (2 ^ 53)%Z with 9007199254740992%Z in *. lia.
Qed.

Lemma binary_round_upper (M : positive) (ez : Z) (ma : positive) (ea : Z) :
  bounded prec emax ma ea = true ->
  (ez <= ea)%Z -> (Zpos M <= Zpos ma * 2 ^ (ea - ez))%Z ->
  sf_below ma ea (binary_round prec emax false M ez).
Proof.
  intros B Hle Hval. unfold binary_round.
  destruct (shl_align_spec M ez (fexp prec emax (Zpos (digits2_pos M) + ez)))
    as (k & Hk & Hm & He & _).
  destruct (shl_align M ez _) as [mz ez']. cbn [fst snd] in Hm, He.
  apply binary_round_aux_upper; [exact B | lia |].
  rewrite Hm, He. replace (ea - (ez - k))%Z with (ea - ez + k)%Z by lia.
  rewrite Z.pow_add_r by lia. pose proof (pow2_pos k Hk). nia.
Qed.

Lemma sf_below_leb (ma : positive) (ea : Z) (r : spec_float) :
  sf_below ma ea r -> SFleb r (S754_finite false ma ea) = true.
Proof.
  unfold SFleb. destruct r as [s|[|]| |[|] mr er]; cbn [sf_below SFcompare];
    try contradiction; try reflexivity.
  intros [H|[-> H]].
  - apply Z.compare_lt_iff in H. rewrite H. reflexivity.
  - rewrite Z.compare_refl.
    change (Pos.compare_cont Eq mr ma) with (Pos.compare mr ma).
    destruct (Pos.compare_spec mr ma); try reflexivity. lia.
Qed.

(** Taking away a finite number that is at least zero, and no more than the
    number it is taken from, does not raise that number. *)
Lemma SFsub_below (a b : spec_float) :
  valid_binary a = true -> valid_binary b = true ->
  sf_geq0 a -> sf_geq0 b -> sf_is_finite b -> SFltb a b = false ->
  SFleb (SF64sub a b) a = true.
Proof.
  unfold SF64sub, SFltb.
  destruct a as [sa|[|]| |[|] ma ea], b as [sb|[|]| |[|] mb eb];
    cbn [sf_geq0 sf_is_finite SFsub SFcompare valid_binary cond_Zopp negb];
    intros Va Vb Ha Hb Fb H;
    try contradiction; try discriminate; try reflexivity;
    try (destruct sa; try destruct sb; reflexivity);
    try (unfold SFleb; rewrite SFcompare_finite_refl; reflexivity).
  pose proof (compare_aligned _ _ _ _ Va Vb) as C.
  pose proof (shl_align_value ma ea (Z.min ea eb) ltac:(lia)) as HA.
  set (A := fst (shl_align ma ea (Z.min ea eb))) in *.
  set (B := fst (shl_align mb eb (Z.min ea eb))) in *.
  assert (HAB : (Zpos B <= Zpos A)%Z).
  { destruct (Z.compare_spec (Zpos A) (Zpos B)) as [E|E|E]; try lia.
    rewrite C in H. discriminate. }
  destruct (Zpos A - Zpos B)%Z as [|M|M] eqn:EM; cbn [binary_normalize]; try lia.
  - reflexivity.
  - apply sf_below_leb. apply binary_round_upper; [exact Va | lia | lia].
Qed.

End Rounding.

(** * Money moves one way *)

Lemma leb_refl (x : float) : is_nan x = false -> (x <=? x) = true.
Proof.
  rewrite IEEE.is_nan_spec, FloatAxioms.leb_spec. intros H. unfold SFleb.
  rewrite (IEEE.SFcompare_refl _ H). reflexivity.
Qed.

Lemma add_not_below (x y : float) :
  at_least_zero x -> at_least_zero y -> (x <=? x + y) = true.
Proof.
  rewrite !IEEE.at_least_zero_spec, FloatAxioms.leb_spec, FloatAxioms.add_spec.
  apply Rounding.SFadd_above, Prim2SF_valid.
Qed.

Lemma sub_not_above (x y : float) :
  at_least_zero x -> at_least_zero y -> is_finite y = true -> (x <? y) = false ->
  (x - y <=? x) = true.
Proof.
  rewrite !IEEE.at_least_zero_spec, FloatAxioms.leb_spec, FloatAxioms.sub_spec,
    FloatAxioms.ltb_spec.
  intros Hx Hy Fy H.
  apply Rounding.SFsub_below; auto using Prim2SF_valid, IEEE.is_finite_spec.
Qed.

(** What passes the fee gate of a deposit or a withdrawal is a finite amount
    of at least 1. *)
Lemma net_of_fee_positive (amount fee : double) :
  is_nan amount = false -> is_nan fee = false ->
  (amount <? 1.0) = false -> (10000.0 <? amount) = false ->
  (fee <=? 0) = true \/ (amount - fee <? 1.0) = false ->
  at_least_zero (net_of_fee amount fee) /\ is_finite (net_of_fee amount fee) = true.
Proof.
  intros Na Nf H1 H2 Hfee. unfold net_of_fee.
  destruct (fee <=? 0) eqn:E.
  - split; [apply IEEE.at_least_one_at_least_zero | apply IEEE.in_range_is_finite];
      assumption.
  - destruct Hfee as [Hfee|Hfee]; [discriminate|].
    pose proof (IEEE.sub_fee_is_finite amount fee Na Nf H1 H2 E Hfee) as Hfin.
    split; [|exact Hfin].
    apply IEEE.at_least_one_at_least_zero; [apply IEEE.is_finite_not_nan|]; assumption.
Qed.

Lemma service_deposit_passed service now amount a :
  fst (service_deposit service now amount a) = OK ->
  (amount <? 1.0) = false /\ (10000.0 <? amount) = false
  /\ ((deposit_fee service <=? 0) = true
      \/ (amount - deposit_fee service <? 1.0) = false).
Proof.
  unfold service_deposit, apply_fee.
  pose proof (enforce_amount_ok amount) as [Hamt _].
  destruct (enforce_amount amount); [|discriminate]. destruct (Hamt eq_refl) as [H1 H2].
  destruct (enforce_daily service a amount); [|discriminate].
  destruct (deposit_fee service <=? 0); [auto|].
  unfold BANK_MIN_TRANSACTION.
  destruct (amount - deposit_fee service <? 1); [discriminate | auto].
Qed.

Lemma service_withdraw_passed service now amount a :
  fst (service_withdraw service now amount a) = OK ->
  (amount <? 1.0) = false /\ (10000.0 <? amount) = false
  /\ ((withdrawal_fee service <=? 0) = true
      \/ (amount - withdrawal_fee service <? 1.0) = false)
  /\ (balance a <? net_of_fee amount (withdrawal_fee service)) = false.
Proof.
  unfold service_withdraw, apply_fee, net_of_fee.
  pose proof (enforce_amount_ok amount) as [Hamt _].
  destruct (enforce_amount amount); [|discriminate]. destruct (Hamt eq_refl) as [H1 H2].
  destruct (enforce_daily service a amount); [|discriminate].
  destruct (withdrawal_fee service <=? 0).
  - destruct (balance a <? amount); [discriminate | auto].
  - unfold BANK_MIN_TRANSACTION.
    destruct (amount - withdrawal_fee service <? 1); [discriminate|].
    destruct (balance a <? _); [discriminate | auto].
Qed.

(** X22. On an account whose balance is at least 0, with an amount and a
    fee that are numbers: a deposit that succeeds never lowers the balance,
    and a withdrawal that succeeds never raises it and leaves it at least 0,
    in binary64 arithmetic, rounding included.  Both never lower a daily
    total that is at least 0. *)
Theorem deposit_up_withdrawal_down
    (service : BankingService) (now : time_t) (amount : double) (a : Account) :
  at_least_zero (balance a) ->
  is_nan amount = false ->
  (is_nan (deposit_fee service) = false ->
   fst (service_deposit service now amount a) = OK ->
   (balance a <=? balance (snd (service_deposit service now amount a))) = true)
  /\ (is_nan (withdrawal_fee service) = false ->
      fst (service_withdraw service now amount a) = OK ->
      (balance (snd (service_withdraw service now amount a)) <=? balance a) = true
      /\ at_least_zero (balance (snd (service_withdraw service now amount a))))
  /\ (at_least_zero (daily_total a) ->
      (fst (service_deposit service now amount a) = OK ->
       (daily_total a <=? daily_total (snd (service_deposit service now amount a))) = true)
      /\ (fst (service_withdraw service now amount a) = OK ->
          (daily_total a
           <=? daily_total (snd (service_withdraw service now amount a))) = true)).
Proof.
  intros Hb Na. split; [|split].
  - intros Nf Hok.
    destruct (service_deposit_passed service now amount a Hok) as (H1 & H2 & Hfee).
    destruct (net_of_fee_positive amount _ Na Nf H1 H2 Hfee) as [Hnet _].
    rewrite (service_deposit_ok service now amount a Hok). cbn [snd]. frame.
    apply add_not_below; assumption.
  - intros Nf Hok.
    destruct (service_withdraw_passed service now amount a Hok) as (H1 & H2 & Hfee & Hfunds).
    destruct (net_of_fee_positive amount _ Na Nf H1 H2 Hfee) as [Hnet Hfin].
    rewrite (service_withdraw_ok service now amount a Hok). cbn [snd]. frame.
    split; [apply sub_not_above | apply IEEE.sub_at_least_zero]; assumption.
  - intros Hd.
    assert (Hamt : (amount <? 1.0) = false -> at_least_zero amount)
      by (apply IEEE.at_least_one_at_least_zero; exact Na).
    split; intros Hok.
    + destruct (service_deposit_passed service now amount a Hok) as (H1 & _).
      rewrite (service_deposit_ok service now amount a Hok). cbn [snd]. frame.
      apply add_not_below; auto.
    + destruct (service_withdraw_passed service now amount a Hok) as (H1 & _).
      rewrite (service_withdraw_ok service now amount a Hok). cbn [snd]. frame.
      apply add_not_below; auto.
Qed.

Lemma deposit_up_withdrawal_down_witness :
  let deposited := snd (service_deposit guild_treasurer 1%Z 200.0 hero) in
  let withdrawn := snd (service_withdraw guild_treasurer 1%Z 200.0 hero) in
  (balance hero <=? balance deposited) = true
  /\ (balance withdrawn <=? balance hero) = true
  /\ at_least_zero (balance withdrawn)
  /\ (daily_total hero <=? daily_total deposited) = true
  /\ (daily_total hero <=? daily_total withdrawn) = true.
Proof.
  cbv zeta.
  destruct (deposit_up_withdrawal_down guild_treasurer 1%Z 200.0 hero)
    as (Hdeposit & Hwithdraw & Hdaily).
  - vm_compute. reflexivity.
  - vm_compute. reflexivity.
  - destruct Hwithdraw as [Hw1 Hw2]; [vm_compute; reflexivity | vm_compute; reflexivity |].
    destruct Hdaily as [Hd1 Hd2]; [vm_compute; reflexivity|].
    split; [apply Hdeposit; vm_compute; reflexivity|].
    split; [exact Hw1|]. split; [exact Hw2|].
    split; [apply Hd1 | apply Hd2]; vm_compute; reflexivity.
Defined.

(** X23. On an account whose balances are at least 0: investing a finite
    amount never raises the balance and never lowers the investment balance;
    withdrawing a finite amount from the investment never raises the
    investment balance and never lowers the balance; and applying the yield,
    for a rate that is a number, never lowers the investment balance and
    leaves the balance as it is.  All in binary64 arithmetic, rounding
    included. *)
Theorem investments_move_one_way
    (service : BankingService) (now : time_t) (amount : double) (a : Account) :
  balances_at_least_zero a ->
  (is_finite amount = true ->
   fst (service_invest service now amount a) = OK ->
   let a' := snd (service_invest service now amount a) in
   (balance a' <=? balance a) = true
   /\ (investment_balance a <=? investment_balance a') = true)
  /\ (is_finite amount = true ->
      fst (service_withdraw_investment service now amount a) = OK ->
      let a' := snd (service_withdraw_investment service now amount a) in
      (investment_balance a' <=? investment_balance a) = true
      /\ (balance a <=? balance a') = true)
  /\ (is_nan (investment_rate service) = false ->
      let a' := service_apply_investment_yield service now a in
      (investment_balance a <=? investment_balance a') = true
      /\ balance a' = balance a).
Proof.
  intros [Hb Hi]. split; [|split].
  - intros Fa Hok. cbv zeta.
    apply service_invest_ok_iff in Hok as H. destruct H as [Hpos Hfunds].
    rewrite (service_invest_effect service now amount a Hok). cbn [snd]. frame.
    assert (Ha : at_least_zero amount)
      by (apply IEEE.positive_at_least_zero; [apply IEEE.is_finite_not_nan|]; assumption).
    split; [apply sub_not_above | apply add_not_below]; assumption.
  - intros Fa. unfold service_withdraw_investment.
    destruct (amount <=? 0) eqn:Hpos; [discriminate|].
    destruct (investment_balance a <? amount) eqn:Hfunds; [discriminate|].
    intros _. cbv zeta. cbn [snd]. frame.
    assert (Ha : at_least_zero amount)
      by (apply IEEE.positive_at_least_zero; [apply IEEE.is_finite_not_nan|]; assumption).
    split; [apply sub_not_above | apply add_not_below]; assumption.
  - intros Nr. cbv zeta. unfold service_apply_investment_yield.
    destruct (investment_balance a <=? 0) eqn:E1; cbn [orb];
      [split; [apply leb_refl, IEEE.at_least_zero_not_nan, Hi | reflexivity]|].
    destruct (investment_rate service <=? 0) eqn:E2;
      [split; [apply leb_refl, IEEE.at_least_zero_not_nan, Hi | reflexivity]|].
    frame. split; [|reflexivity].
    apply add_not_below; [exact Hi|].
    apply IEEE.mul_at_least_zero; try assumption.
    apply IEEE.at_least_zero_not_nan, Hi.
Qed.

Lemma investments_move_one_way_witness :
  let a := snd (service_invest rate_one_tenth 1%Z 100.0 hero) in
  let invested := snd (service_invest rate_one_tenth 2%Z 50.0 a) in
  let withdrawn := snd (service_withdraw_investment rate_one_tenth 2%Z 50.0 a) in
  let grown := service_apply_investment_yield rate_one_tenth 2%Z a in
  ((balance invested <=? balance a) = true
   /\ (investment_balance a <=? investment_balance invested) = true)
  /\ ((investment_balance withdrawn <=? investment_balance a) = true
      /\ (balance a <=? balance withdrawn) = true)
  /\ ((investment_balance a <=? investment_balance grown) = true
      /\ balance grown = balance a).
Proof.
  cbv zeta.
  destruct (investments_move_one_way rate_one_tenth 2%Z 50.0
              (snd (service_invest rate_one_tenth 1%Z 100.0 hero)))
    as (Hinvest & Hwithdraw & Hyield).
  - split; vm_compute; reflexivity.
  - split; [apply Hinvest; vm_compute; reflexivity|].
    split; [apply Hwithdraw; vm_compute; reflexivity|].
    apply Hyield; vm_compute; reflexivity.
Defined.

(** X24. A transfer that succeeds between two different accounts whose
    balances are at least 0, for an amount that is a number, never raises the
    sender's balance, never lowers the receiver's, and leaves the sender's
    balance at least 0. *)
Theorem transfer_moves_one_way
    (service : BankingService) (now_from now_to : time_t) (from to : Ptr)
    (amount : double) (h : Heap) :
  from <> to ->
  at_least_zero (balance (h from)) -> at_least_zero (balance (h to)) ->
  is_nan amount = false ->
  fst (service_transfer service now_from now_to from to amount h) = OK ->
  let h' := snd (service_transfer service now_from now_to from to amount h) in
  (balance (h' from) <=? balance (h from)) = true
  /\ (balance (h to) <=? balance (h' to)) = true
  /\ at_least_zero (balance (h' from)).
Proof.
  intros Hne Hbf Hbt Na Hok. cbv zeta.
  destruct (service_transfer_distinct service now_from now_to from to amount h Hne Hok)
    as (Hf & Ht & _).
  cbv zeta in Hf, Ht. rewrite Hf, Ht. frame.
  revert Hok. unfold service_transfer.
  pose proof (enforce_amount_ok amount) as [Hamt _].
  destruct (enforce_amount amount); [|discriminate]. destruct (Hamt eq_refl) as [H1 H2].
  destruct (enforce_daily service (h from) amount); [|discriminate].
  destruct (balance (h from) <? amount) eqn:Hfunds; [discriminate|].
  pose proof (IEEE.in_range_is_finite amount Na H1 H2) as Fa.
  pose proof (IEEE.at_least_one_at_least_zero amount Na H1) as Ha.
  assert (Hcredit : (0 <? transfer_fee service) = true ->
            (amount - transfer_fee service <? 1.0) = false ->
            at_least_zero (amount - transfer_fee service)).
  { intros Hfee Hafter. apply IEEE.at_least_one_at_least_zero; [|exact Hafter].
    apply IEEE.sub_fee_not_nan; [exact Fa | exact (IEEE.ltb_true_not_nan _ _ Hfee)]. }
  destruct (0 <? transfer_fee service) eqn:Hfee.
  - unfold BANK_MIN_TRANSACTION.
    destruct (amount - transfer_fee service <? 1) eqn:Hafter; [discriminate|]. intros _.
    split; [apply sub_not_above; assumption|].
    split; [apply add_not_below; auto | apply IEEE.sub_at_least_zero; assumption].
  - intros _.
    split; [apply sub_not_above; assumption|].
    split; [apply add_not_below; auto | apply IEEE.sub_at_least_zero; assumption].
Qed.

Lemma transfer_moves_one_way_witness :
  let h' := snd (service_transfer guild_treasurer 6%Z 7%Z 0%nat 1%nat 25.0 heroes) in
  (balance (h' 0%nat) <=? balance (heroes 0%nat)) = true
  /\ (balance (heroes 1%nat) <=? balance (h' 1%nat)) = true
  /\ at_least_zero (balance (h' 0%nat)).
Proof.
  apply (transfer_moves_one_way guild_treasurer 6%Z 7%Z 0%nat 1%nat 25.0 heroes).
  - discriminate.
  - vm_compute. reflexivity.
  - vm_compute. reflexivity.
  - vm_compute. reflexivity.
  - vm_compute. reflexivity.
Defined.

(** * The report *)

Lemma drive_history_capacity (calls : list Operation) (h : Heap) :
  fresh_heap h -> forall q, history_within_capacity (drive calls h q).
Proof.
  intros Hfresh.
  apply (drive_pointwise history_within_capacity exec_history_capacity).
  intros q. destruct (Hfresh q) as (o & b & ->).
  unfold history_within_capacity, history_count, MAX_TRANSACTION_HISTORY. cbn. lia.
Qed.


